(** * BGR-Pro: the interactive raster editing engine of [ImageEditor.tsx]

    A shallow embedding of the editor component: the undo/redo history over
    canvas snapshots, the brush handlers (erase / restore) and the crop
    rectangle state machine, followed by the properties of the specification.

    Conventions of the embedding.
    - A JavaScript [number] is a rational ([Q]); the arithmetic of the
      component ([+], [-], [*], [/ 2], [Math.min], [Math.abs], comparisons)
      is exact on them, and a numeric literal denotes its binary64 value.
    - React state ([useState]) and refs ([useRef]) are the fields of one
      record, [State]; a handler is a function on it, run on the state of
      the latest render.  A handler that can throw returns an [Outcome]: the
      state it left behind and the exception, if any.
    - The canvas 2D context is modelled from the HTML standard: a bitmap of
      premultiplied RGBA pixels that [getImageData] and [putImageData] copy
      exactly, Porter-Duff compositing, and the drawing state the component
      sets.  What the standard leaves to the user agent (coverage of an
      anti-aliased stroke, resampling of [drawImage], the pixels of the crop
      overlay, the largest bitmap it can serialise) is a parameter of the
      development, see [Section Editor].
    - Pointer events carry the position [getMousePos] computes, in canvas
      coordinates. *)

From Stdlib Require Import String Ascii ZArith QArith Qabs Qminmax List Bool Lia Lqa.
Import ListNotations.

Local Open Scope Q_scope.

(** ** Numbers *)

Definition Qltb (a b : Q) : bool := negb (Qle_bool b a).
Definition Qgtb (a b : Q) : bool := Qltb b a.

Infix "<?" := Qltb (at level 70, no associativity) : Q_scope.
Infix ">?" := Qgtb (at level 70, no associativity) : Q_scope.

(** [Math.min] and [Math.abs]. *)
Definition Math_min (a b : Q) : Q := if Qle_bool a b then a else b.
Definition Math_abs (a : Q) : Q := if a <? 0 then - a else a.

(** ** Strings: [String.prototype.includes] *)

Fixpoint includes (s needle : string) : bool :=
  if String.prefix needle s then true
  else match s with
       | EmptyString => false
       | String _ rest => includes rest needle
       end.

(** ** [types.ts] *)

Inductive EditMode : Set := Erase | Restore | Crop.

Definition EditMode_eqb (m1 m2 : EditMode) : bool :=
  match m1, m2 with
  | Erase, Erase | Restore, Restore | Crop, Crop => true
  | _, _ => false
  end.

Record BrushSettings : Set := { size : Z }.

(** ** Crop rectangle and crop action *)

Module Point.
Record t : Set := mk { x : Q; y : Q }.
End Point.

Module CropRect.
Record t : Set := mk { x : Q; y : Q; width : Q; height : Q }.
End CropRect.

Inductive ActionType : Set := drawing | moving | resizing.

Module CropAction.
Record t : Set := mk {
  type : ActionType;
  handle : option string;
  startX : Q;
  startY : Q;
  startRect : option CropRect.t
}.
End CropAction.

Definition HANDLE_SIZE : Q := 10.

(** ** Pixels and bitmaps

    A pixel holds premultiplied colour and alpha, each in [0, 1].  A bitmap
    is a list of [height] rows of [width] pixels; it stands for an
    [ImageData], for the backing store of a canvas and for a decoded
    [HTMLImageElement]. *)

Record Pixel : Set := { red : Q; green : Q; blue : Q; alpha : Q }.

Definition transparent : Pixel := {| red := 0; green := 0; blue := 0; alpha := 0 |}.

Module ImageData.
Record t : Set := mk { width : nat; height : nat; data : list (list Pixel) }.
End ImageData.

Definition Canvas : Set := ImageData.t.
Definition HTMLImageElement : Set := ImageData.t.

Definition tabulate (w h : nat) (f : nat -> nat -> Pixel) : list (list Pixel) :=
  map (fun j => map (fun i => f i j) (seq 0 w)) (seq 0 h).

Definition inBounds (b : ImageData.t) (i j : Z) : bool :=
  ((0 <=? i) && (i <? Z.of_nat (ImageData.width b)) &&
   (0 <=? j) && (j <? Z.of_nat (ImageData.height b)))%Z.

(** The pixel at column [i], row [j]; transparent black outside the bitmap. *)
Definition pixelAt (b : ImageData.t) (i j : Z) : Pixel :=
  if inBounds b i j
  then nth (Z.to_nat i) (nth (Z.to_nat j) (ImageData.data b) []) transparent
  else transparent.

(** A bitmap as every API of the platform produces it: the rows agree with
    the declared dimensions. *)
Definition wf_bitmap (b : ImageData.t) : Prop :=
  length (ImageData.data b) = ImageData.height b /\
  Forall (fun row => length row = ImageData.width b) (ImageData.data b).

Definition nonempty_bitmap (b : ImageData.t) : Prop :=
  (0 < ImageData.width b)%nat /\ (0 < ImageData.height b)%nat.

(** Setting [canvas.width] / [canvas.height] resets the bitmap to
    transparent black. *)
Definition blank (w h : nat) : Canvas :=
  ImageData.mk w h (tabulate w h (fun _ _ => transparent)).

(** [ctx.clearRect(0, 0, canvas.width, canvas.height)]. *)
Definition clearAll (c : Canvas) : Canvas :=
  blank (ImageData.width c) (ImageData.height c).

(** [ctx.putImageData(img, dx, dy)]: the pixels of [img] replace those of
    the canvas where they fall inside it; no compositing. *)
Definition putImageData (c : Canvas) (img : ImageData.t) (dx dy : Z) : Canvas :=
  ImageData.mk (ImageData.width c) (ImageData.height c)
    (tabulate (ImageData.width c) (ImageData.height c)
       (fun i j =>
          let si := (Z.of_nat i - dx)%Z in
          let sj := (Z.of_nat j - dy)%Z in
          if inBounds img si sj then pixelAt img si sj
          else pixelAt c (Z.of_nat i) (Z.of_nat j))).

(** ** Exceptions of the platform *)

Inductive Exception : Set := IndexSizeError | TypeError.

Inductive Completion (A : Type) : Type :=
| Normal (a : A)
| Throw (e : Exception).
Arguments Normal {A} a.
Arguments Throw {A} e.

(** WebIDL [[EnforceRange] long]: the integer part (towards zero), a
    [TypeError] outside the 32-bit signed range. *)
Definition integerPart (q : Q) : Z := Z.quot (Qnum q) (Zpos (Qden q)).

Definition enforceRangeLong (q : Q) : Completion Z :=
  let z := integerPart q in
  if ((-2147483648 <=? z) && (z <=? 2147483647))%Z then Normal z else Throw TypeError.

(** [ctx.getImageData(sx, sy, sw, sh)] on integer arguments: an
    [IndexSizeError] when [sw] or [sh] is zero; a negative extent flips the
    source rectangle; pixels outside the canvas are transparent black. *)
Definition getImageData (c : Canvas) (sx sy sw sh : Z) : Completion ImageData.t :=
  if ((sw =? 0) || (sh =? 0))%Z then Throw IndexSizeError
  else
    let x0 := (if sw <? 0 then sx + sw else sx)%Z in
    let y0 := (if sh <? 0 then sy + sh else sy)%Z in
    let w := Z.abs_nat sw in
    let h := Z.abs_nat sh in
    Normal (ImageData.mk w h
              (tabulate w h (fun i j => pixelAt c (x0 + Z.of_nat i) (y0 + Z.of_nat j)))).

(** The [width] / [height] attribute of a canvas element is a reflected
    [unsigned long] limited to 31 bits: the value is converted modulo 2^32,
    and a value above 2^31 - 1 is replaced by the attribute's default. *)
Definition toCanvasDim (default : nat) (q : Q) : nat :=
  let z := (integerPart q mod 4294967296)%Z in
  if (z <=? 2147483647)%Z then Z.to_nat z else default.

(** ** Compositing (Porter-Duff, premultiplied) *)

Definition scalePixel (k : Q) (p : Pixel) : Pixel :=
  {| red := k * red p; green := k * green p; blue := k * blue p; alpha := k * alpha p |}.

(** [destination-out] with a source of alpha [k]: the destination is
    kept where the source is absent. *)
Definition destination_out (dst : Pixel) (k : Q) : Pixel := scalePixel (1 - k) dst.

(** [source-over]. *)
Definition source_over (src dst : Pixel) : Pixel :=
  {| red := red src + (1 - alpha src) * red dst;
     green := green src + (1 - alpha src) * green dst;
     blue := blue src + (1 - alpha src) * blue dst;
     alpha := alpha src + (1 - alpha src) * alpha dst |}.

(** ** JavaScript arrays *)

(** [arr.slice(0, end)]. *)
Definition slice0 {A : Type} (arr : list A) (e : Z) : list A :=
  let len := Z.of_nat (length arr) in
  let k := (if e <? 0 then Z.max (len + e) 0 else Z.min e len)%Z in
  firstn (Z.to_nat k) arr.

(** [arr[i]]; [None] stands for [undefined]. *)
Definition index {A : Type} (arr : list A) (i : Z) : option A :=
  if (i <? 0)%Z then None else nth_error arr (Z.to_nat i).

(** ** The drawing state of the 2D context

    The attributes the component sets on the context of the canvas.  They
    persist from one call to the next and return to their defaults when the
    canvas is resized. *)

Record DrawingState : Set := {
  globalCompositeOperation : string;
  strokeStyle : string;
  lineWidth : Z;
  lineCap : string;
  lineJoin : string
}.

Definition defaultDrawingState : DrawingState :=
  {| globalCompositeOperation := "source-over";
     strokeStyle := "#000000";
     lineWidth := 1;
     lineCap := "butt";
     lineJoin := "miter" |}.

(** ** The state of the component

    The [useState] cells, then the [useRef] cells; [canvas] is the bitmap
    behind [canvasRef.current] and [context] the drawing state of its 2D
    context. *)

Record State : Set := mkState {
  editMode : EditMode;
  brushSettings : BrushSettings;
  history : list ImageData.t;
  historyIndex : Z;
  cropRect : option CropRect.t;
  cropAction : option CropAction.t;
  canvas : Canvas;
  context : DrawingState;
  originalImageRef : option HTMLImageElement;
  isDrawing : bool;
  lastPoint : option Point.t
}.

Definition setEditMode (m : EditMode) (st : State) : State :=
  mkState m (brushSettings st) (history st) (historyIndex st) (cropRect st)
    (cropAction st) (canvas st) (context st) (originalImageRef st) (isDrawing st)
    (lastPoint st).

Definition setBrushSettings (b : BrushSettings) (st : State) : State :=
  mkState (editMode st) b (history st) (historyIndex st) (cropRect st)
    (cropAction st) (canvas st) (context st) (originalImageRef st) (isDrawing st)
    (lastPoint st).

Definition setHistory (h : list ImageData.t) (st : State) : State :=
  mkState (editMode st) (brushSettings st) h (historyIndex st) (cropRect st)
    (cropAction st) (canvas st) (context st) (originalImageRef st) (isDrawing st)
    (lastPoint st).

Definition setHistoryIndex (i : Z) (st : State) : State :=
  mkState (editMode st) (brushSettings st) (history st) i (cropRect st)
    (cropAction st) (canvas st) (context st) (originalImageRef st) (isDrawing st)
    (lastPoint st).

Definition setCropRect (r : option CropRect.t) (st : State) : State :=
  mkState (editMode st) (brushSettings st) (history st) (historyIndex st) r
    (cropAction st) (canvas st) (context st) (originalImageRef st) (isDrawing st)
    (lastPoint st).

Definition setCropAction (a : option CropAction.t) (st : State) : State :=
  mkState (editMode st) (brushSettings st) (history st) (historyIndex st)
    (cropRect st) a (canvas st) (context st) (originalImageRef st) (isDrawing st)
    (lastPoint st).

Definition setCanvas (c : Canvas) (st : State) : State :=
  mkState (editMode st) (brushSettings st) (history st) (historyIndex st)
    (cropRect st) (cropAction st) c (context st) (originalImageRef st)
    (isDrawing st) (lastPoint st).

Definition setContext (d : DrawingState) (st : State) : State :=
  mkState (editMode st) (brushSettings st) (history st) (historyIndex st)
    (cropRect st) (cropAction st) (canvas st) d (originalImageRef st)
    (isDrawing st) (lastPoint st).

Definition setOriginalImageRef (o : option HTMLImageElement) (st : State) : State :=
  mkState (editMode st) (brushSettings st) (history st) (historyIndex st)
    (cropRect st) (cropAction st) (canvas st) (context st) o (isDrawing st)
    (lastPoint st).

Definition setIsDrawing (b : bool) (st : State) : State :=
  mkState (editMode st) (brushSettings st) (history st) (historyIndex st)
    (cropRect st) (cropAction st) (canvas st) (context st) (originalImageRef st) b
    (lastPoint st).

Definition setLastPoint (p : option Point.t) (st : State) : State :=
  mkState (editMode st) (brushSettings st) (history st) (historyIndex st)
    (cropRect st) (cropAction st) (canvas st) (context st) (originalImageRef st)
    (isDrawing st) p.

(** What a handler leaves behind: the state it reached, and the exception
    it did not catch, if any. *)
Inductive Outcome : Set :=
| Ok (st : State)
| Uncaught (e : Exception) (st : State).

Definition stateOf (o : Outcome) : State :=
  match o with Ok st => st | Uncaught _ st => st end.

(** ** History: [saveToHistory], [restoreCanvasState], [handleUndo],
    [handleRedo], [canUndo], [canRedo] *)

Definition saveToHistory (st : State) : Outcome :=
  let c := canvas st in
  match getImageData c 0 0 (Z.of_nat (ImageData.width c)) (Z.of_nat (ImageData.height c)) with
  | Throw e => Uncaught e st
  | Normal currentImageData =>
      let newHistory := slice0 (history st) (historyIndex st + 1) ++ [currentImageData] in
      Ok (setHistoryIndex (Z.of_nat (length newHistory) - 1) (setHistory newHistory st))
  end.

Definition restoreCanvasState (imageData : ImageData.t) (st : State) : State :=
  setCanvas
    (putImageData (blank (ImageData.width imageData) (ImageData.height imageData))
       imageData 0 0)
    (setContext defaultDrawingState st).

(** [restoreCanvasState(history[newIndex])]; reading [.width] of
    [undefined] is a [TypeError], raised after [setHistoryIndex]. *)
Definition restoreEntry (newIndex : Z) (st : State) : Outcome :=
  let st1 := setHistoryIndex newIndex st in
  match index (history st) newIndex with
  | Some imageData => Ok (restoreCanvasState imageData st1)
  | None => Uncaught TypeError st1
  end.

Definition handleUndo (st : State) : Outcome :=
  if (historyIndex st >? 0)%Z
  then restoreEntry (historyIndex st - 1) st
  else Ok st.

Definition handleRedo (st : State) : Outcome :=
  if (historyIndex st <? Z.of_nat (length (history st)) - 1)%Z
  then restoreEntry (historyIndex st + 1) st
  else Ok st.

Definition canUndo (st : State) : bool := (historyIndex st >? 0)%Z.
Definition canRedo (st : State) : bool :=
  (historyIndex st <? Z.of_nat (length (history st)) - 1)%Z.

(** ** Crop logic: [getCropHandle], the pointer handlers, cancel, mode *)

Definition getCropHandle (pos : Point.t) (rect : CropRect.t) : option string :=
  let x := CropRect.x rect in
  let y := CropRect.y rect in
  let width := CropRect.width rect in
  let height := CropRect.height rect in
  let hs := HANDLE_SIZE in
  if (Point.x pos >? x + width - hs) && (Point.x pos <? x + width + hs) &&
     (Point.y pos >? y + height - hs) && (Point.y pos <? y + height + hs) then Some "br"%string
  else if (Point.x pos >? x - hs) && (Point.x pos <? x + hs) &&
     (Point.y pos >? y - hs) && (Point.y pos <? y + hs) then Some "tl"%string
  else if (Point.x pos >? x + width - hs) && (Point.x pos <? x + width + hs) &&
     (Point.y pos >? y - hs) && (Point.y pos <? y + hs) then Some "tr"%string
  else if (Point.x pos >? x - hs) && (Point.x pos <? x + hs) &&
     (Point.y pos >? y + height - hs) && (Point.y pos <? y + height + hs) then Some "bl"%string
  else if (Point.x pos >? x + width / 2 - hs) && (Point.x pos <? x + width / 2 + hs) &&
     (Point.y pos >? y - hs) && (Point.y pos <? y + hs) then Some "tm"%string
  else if (Point.x pos >? x + width / 2 - hs) && (Point.x pos <? x + width / 2 + hs) &&
     (Point.y pos >? y + height - hs) && (Point.y pos <? y + height + hs) then Some "bm"%string
  else if (Point.x pos >? x - hs) && (Point.x pos <? x + hs) &&
     (Point.y pos >? y + height / 2 - hs) && (Point.y pos <? y + height / 2 + hs) then Some "ml"%string
  else if (Point.x pos >? x + width - hs) && (Point.x pos <? x + width + hs) &&
     (Point.y pos >? y + height / 2 - hs) && (Point.y pos <? y + height / 2 + hs) then Some "mr"%string
  else None.

(** The test of lines 221 and 241: strictly inside the rectangle body. *)
Definition insideRect (pos : Point.t) (r : CropRect.t) : bool :=
  (Point.x pos >? CropRect.x r) && (Point.x pos <? CropRect.x r + CropRect.width r) &&
  (Point.y pos >? CropRect.y r) && (Point.y pos <? CropRect.y r + CropRect.height r).

(** A string in a condition: the empty string is falsy. *)
Definition truthy (s : string) : bool :=
  match s with EmptyString => false | _ => true end.

Definition handleCropMouseDown (pos : Point.t) (st : State) : State :=
  if negb (EditMode_eqb (editMode st) Crop) then st
  else
    let fresh :=
      setCropAction
        (Some (CropAction.mk drawing None (Point.x pos) (Point.y pos) None)) st in
    match cropRect st with
    | Some rect =>
        match getCropHandle pos rect with
        | Some h =>
            if truthy h
            then setCropAction
                   (Some (CropAction.mk resizing (Some h) (Point.x pos) (Point.y pos) (Some rect))) st
            else if insideRect pos rect
            then setCropAction
                   (Some (CropAction.mk moving None (Point.x pos) (Point.y pos) (Some rect))) st
            else fresh
        | None =>
            if insideRect pos rect
            then setCropAction
                   (Some (CropAction.mk moving None (Point.x pos) (Point.y pos) (Some rect))) st
            else fresh
        end
    | None => fresh
    end.

(** Lines 270-278: the edits of a handle on the rectangle taken at
    pointer-down, then the normalisation of negative extents. *)
Definition resizeRect (handle : string) (startRect : CropRect.t) (dx dy : Q) : CropRect.t :=
  let x := CropRect.x startRect in
  let y := CropRect.y startRect in
  let width := CropRect.width startRect in
  let height := CropRect.height startRect in
  let '(x, width) := if includes handle "l" then (x + dx, width - dx) else (x, width) in
  let width := if includes handle "r" then width + dx else width in
  let '(y, height) := if includes handle "t" then (y + dy, height - dy) else (y, height) in
  let height := if includes handle "b" then height + dy else height in
  let '(x, width) := if width <? 0 then (x + width, - width) else (x, width) in
  let '(y, height) := if height <? 0 then (y + height, - height) else (y, height) in
  CropRect.mk x y width height.

(** The state part of [handleCropMouseMove] (the cursor style of the
    element is not part of the state). *)
Definition handleCropMouseMove (pos : Point.t) (st : State) : State :=
  match cropAction st with
  | None => st
  | Some act =>
      if negb (EditMode_eqb (editMode st) Crop) then st
      else
        match CropAction.type act, CropAction.startRect act, CropAction.handle act with
        | drawing, _, _ =>
            let x := Math_min (Point.x pos) (CropAction.startX act) in
            let y := Math_min (Point.y pos) (CropAction.startY act) in
            let width := Math_abs (Point.x pos - CropAction.startX act) in
            let height := Math_abs (Point.y pos - CropAction.startY act) in
            setCropRect (Some (CropRect.mk x y width height)) st
        | moving, Some startRect, _ =>
            let dx := Point.x pos - CropAction.startX act in
            let dy := Point.y pos - CropAction.startY act in
            setCropRect
              (Some (CropRect.mk (CropRect.x startRect + dx) (CropRect.y startRect + dy)
                       (CropRect.width startRect) (CropRect.height startRect))) st
        | resizing, Some startRect, Some h =>
            if truthy h then
              let dx := Point.x pos - CropAction.startX act in
              let dy := Point.y pos - CropAction.startY act in
              setCropRect (Some (resizeRect h startRect dx dy)) st
            else st
        | _, _, _ => st
        end
  end.

Definition handleCropMouseUp (st : State) : State := setCropAction None st.

Definition handleCancelCrop (st : State) : State :=
  setEditMode Erase (setCropRect None st).

(** The literals [0.1] and [0.8] of line 380 denote binary64 numbers, a
    little above one tenth and eight tenths:
    3602879701896397 / 2^55 and 3602879701896397 / 2^52. *)
Definition literal_0_1 : Q := 3602879701896397 # 36028797018963968.
Definition literal_0_8 : Q := 3602879701896397 # 4503599627370496.

Definition handleSetEditMode (mode : EditMode) (st : State) : State :=
  let st1 := setEditMode mode st in
  match mode, cropRect st with
  | Crop, None =>
      let w := inject_Z (Z.of_nat (ImageData.width (canvas st))) in
      let h := inject_Z (Z.of_nat (ImageData.height (canvas st))) in
      setCropRect
        (Some (CropRect.mk (w * literal_0_1) (h * literal_0_1)
                 (w * literal_0_8) (h * literal_0_8))) st1
  | Crop, Some _ => st1
  | _, _ => setCropRect None st1
  end.

(** ** Decidable equality of the render dependencies *)

Definition Q_eq_dec (a b : Q) : {a = b} + {a <> b}.
Proof. decide equality; [apply Pos.eq_dec | apply Z.eq_dec]. Defined.

Definition Pixel_eq_dec (a b : Pixel) : {a = b} + {a <> b}.
Proof. decide equality; apply Q_eq_dec. Defined.

Definition ImageData_eq_dec (a b : ImageData.t) : {a = b} + {a <> b}.
Proof.
  decide equality; [ | apply Nat.eq_dec | apply Nat.eq_dec ].
  apply list_eq_dec, list_eq_dec, Pixel_eq_dec.
Defined.

Definition CropRect_eq_dec (a b : CropRect.t) : {a = b} + {a <> b}.
Proof. decide equality; apply Q_eq_dec. Defined.

Definition EditMode_eq_dec (a b : EditMode) : {a = b} + {a <> b}.
Proof. decide equality. Defined.

(** The dependency list of [redrawCanvas]:
    [[history, historyIndex, editMode, cropRect]]. *)
Definition Deps : Set := (list ImageData.t * Z * EditMode * option CropRect.t)%type.

Definition depsOf (st : State) : Deps :=
  (history st, historyIndex st, editMode st, cropRect st).

Definition Deps_eq_dec (a b : Deps) : {a = b} + {a <> b}.
Proof.
  repeat decide equality;
    try apply Q_eq_dec; try apply Pixel_eq_dec.
Defined.

(** ** The handlers that paint *)

Section Editor.

(** Coverage, in [0, 1], of the pixel in column [i], row [j] by the
    round-capped stroke of width [lineWidth] from [p0] to [p1]. *)
Variable strokeCoverage : Z -> Point.t -> Point.t -> nat -> nat -> Q.

(** Coverage of the same pixel by the clipping region that [ctx.clip()]
    makes of the current path. *)
Variable clipCoverage : Point.t -> Point.t -> nat -> nat -> Q.

(** [drawImage(img, sx, sy, sw, sh, dx, dy, dw, dh)]: the colour the
    resampled source rectangle contributes to the destination pixel in
    column [i], row [j] (transparent where it contributes nothing). *)
Variable drawImageSample :
  HTMLImageElement -> Q -> Q -> Q -> Q -> Q -> Q -> Q -> Q -> nat -> nat -> Pixel.

(** The crop overlay (lines 288-308) painted over the canvas by a context
    in the given drawing state. *)
Variable drawCropOverlay : DrawingState -> Canvas -> CropRect.t -> Canvas.

(** Whether the user agent can serialise a bitmap of the given width and
    height.  The limits on the size of a canvas differ from one user agent
    to the next; [toDataURL] gives ["data:,"] for a bitmap beyond them. *)
Variable serialisable : nat -> nat -> bool.

Definition drawImage (c : Canvas) (img : HTMLImageElement)
    (sx sy sw sh dx dy dw dh : Q) : Canvas :=
  ImageData.mk (ImageData.width c) (ImageData.height c)
    (tabulate (ImageData.width c) (ImageData.height c)
       (fun i j =>
          source_over (drawImageSample img sx sy sw sh dx dy dw dh i j)
            (pixelAt c (Z.of_nat i) (Z.of_nat j)))).

(** [stroke()] of the segment in opaque black under [destination-out]. *)
Definition eraseStroke (c : Canvas) (lineWidth : Z) (p0 p1 : Point.t) : Canvas :=
  ImageData.mk (ImageData.width c) (ImageData.height c)
    (tabulate (ImageData.width c) (ImageData.height c)
       (fun i j =>
          destination_out (pixelAt c (Z.of_nat i) (Z.of_nat j))
            (strokeCoverage lineWidth p0 p1 i j))).

(** [save(); clip(); drawImage(originalImg, 0, 0, canvas.width,
    canvas.height); restore()] under [source-over]. *)
Definition restoreStroke (c : Canvas) (originalImg : HTMLImageElement)
    (p0 p1 : Point.t) : Canvas :=
  let cw := inject_Z (Z.of_nat (ImageData.width c)) in
  let ch := inject_Z (Z.of_nat (ImageData.height c)) in
  let iw := inject_Z (Z.of_nat (ImageData.width originalImg)) in
  let ih := inject_Z (Z.of_nat (ImageData.height originalImg)) in
  ImageData.mk (ImageData.width c) (ImageData.height c)
    (tabulate (ImageData.width c) (ImageData.height c)
       (fun i j =>
          source_over
            (scalePixel (clipCoverage p0 p1 i j)
               (drawImageSample originalImg 0 0 iw ih 0 0 cw ch i j))
            (pixelAt c (Z.of_nat i) (Z.of_nat j)))).

(** Lines 142-145, then the composite operation of the branch taken. *)
Definition strokeSetup (composite : option string) (st : State) : DrawingState :=
  {| globalCompositeOperation :=
       match composite with
       | Some op => op
       | None => globalCompositeOperation (context st)
       end;
     strokeStyle := "rgba(0,0,0,1)";
     lineWidth := size (brushSettings st);
     lineCap := "round";
     lineJoin := "round" |}.

Definition drawLine (x0 y0 x1 y1 : Q) (st : State) : State :=
  match editMode st, originalImageRef st with
  | Restore, None => st
  | Erase, _ =>
      setCanvas
        (eraseStroke (canvas st) (size (brushSettings st))
           (Point.mk x0 y0) (Point.mk x1 y1))
        (setContext (strokeSetup (Some "destination-out"%string) st) st)
  | Restore, Some originalImg =>
      setCanvas
        (restoreStroke (canvas st) originalImg (Point.mk x0 y0) (Point.mk x1 y1))
        (setContext (strokeSetup (Some "source-over"%string) st) st)
  | Crop, _ => setContext (strokeSetup None st) st
  end.

Definition startDrawing (pos : Point.t) (st : State) : State :=
  if EditMode_eqb (editMode st) Crop then st
  else
    let st1 := setIsDrawing true st in
    let st2 := setLastPoint (Some pos) st1 in
    drawLine (Point.x pos) (Point.y pos) (Point.x pos) (Point.y pos) st2.

Definition draw (currentPoint : Point.t) (st : State) : State :=
  if EditMode_eqb (editMode st) Crop then st
  else if negb (isDrawing st) then st
  else
    match lastPoint st with
    | Some last =>
        setLastPoint (Some currentPoint)
          (drawLine (Point.x last) (Point.y last)
             (Point.x currentPoint) (Point.y currentPoint) st)
    | None => st
    end.

Definition stopDrawing (st : State) : Outcome :=
  let finish s := setLastPoint None (setIsDrawing false s) in
  if isDrawing st then
    match saveToHistory st with
    | Ok st1 => Ok (finish st1)
    | Uncaught e st1 => Uncaught e st1
    end
  else Ok (finish st).

(** [new Image()] with [src = c.toDataURL()]: the image, once it has
    loaded.  The URL of a bitmap without pixels, or of one the user agent
    cannot serialise, is ["data:,"]: it loads no image, and the [load] event
    never fires. *)
Definition imageOfCanvas (c : Canvas) : option HTMLImageElement :=
  if (0 <? ImageData.width c)%nat && (0 <? ImageData.height c)%nat &&
     serialisable (ImageData.width c) (ImageData.height c)
  then Some c
  else None.

(** [handleApplyCrop].  Every update is made by the [onload] callback of
    the image created from the cropped original (lines 329-340): when that
    image loads, the callback runs before the next event; when it does not,
    nothing is updated. *)
Definition handleApplyCrop (st : State) : Outcome :=
  match cropRect st, originalImageRef st with
  | Some rect, Some originalImg =>
      let x := CropRect.x rect in
      let y := CropRect.y rect in
      let width := CropRect.width rect in
      let height := CropRect.height rect in
      match enforceRangeLong x, enforceRangeLong y,
            enforceRangeLong width, enforceRangeLong height with
      | Normal sx, Normal sy, Normal sw, Normal sh =>
          match getImageData (canvas st) sx sy sw sh with
          | Throw e => Uncaught e st
          | Normal croppedImageData =>
              let tw := toCanvasDim 300 width in
              let th := toCanvasDim 150 height in
              let tempCanvas :=
                drawImage (blank tw th) originalImg x y width height 0 0 width height in
              match imageOfCanvas tempCanvas with
              | None => Ok st
              | Some newOriginalImage =>
                  let st1 := setOriginalImageRef (Some newOriginalImage) st in
                  let st2 :=
                    setCanvas (putImageData (blank tw th) croppedImageData 0 0)
                      (setContext defaultDrawingState st1) in
                  match saveToHistory st2 with
                  | Ok st3 => Ok (setEditMode Erase (setCropRect None st3))
                  | Uncaught e st3 => Uncaught e st3
                  end
              end
          end
      | _, _, _, _ => Uncaught TypeError st
      end
  | _, _ => Ok st
  end.

(** [redrawCanvas] (lines 36-50). *)
Definition redrawCanvas (st : State) : State :=
  let c0 := clearAll (canvas st) in
  let c1 :=
    if (0 <? length (history st))%nat then
      match index (history st) (historyIndex st) with
      | Some imageData => putImageData c0 imageData 0 0
      | None => c0
      end
    else c0 in
  let c2 :=
    match editMode st, cropRect st with
    | Crop, Some rect => drawCropOverlay (context st) c1 rect
    | _, _ => c1
    end in
  setCanvas c2 st.

(** ** Events

    The pointer events of the canvas element and the buttons of the
    toolbar, routed as the JSX does: the canvas picks its handlers by
    [editMode]; in crop mode the toolbar shows Apply and Cancel only, and
    otherwise the mode buttons, Undo and Redo (disabled by [canUndo] /
    [canRedo]) and the brush size. *)

Inductive Event : Set :=
| MouseDown (pos : Point.t)
| MouseMove (pos : Point.t)
| MouseUp
| MouseLeave
| ClickUndo
| ClickRedo
| ClickApplyCrop
| ClickCancelCrop
| ClickMode (mode : EditMode)
| ChangeBrushSize (n : Z).

Definition dispatch (ev : Event) (st : State) : Outcome :=
  let inCrop := EditMode_eqb (editMode st) Crop in
  match ev with
  | MouseDown pos => Ok (if inCrop then handleCropMouseDown pos st else startDrawing pos st)
  | MouseMove pos => Ok (if inCrop then handleCropMouseMove pos st else draw pos st)
  | MouseUp | MouseLeave => if inCrop then Ok (handleCropMouseUp st) else stopDrawing st
  | ClickUndo => if inCrop || negb (canUndo st) then Ok st else handleUndo st
  | ClickRedo => if inCrop || negb (canRedo st) then Ok st else handleRedo st
  | ClickApplyCrop => if inCrop then handleApplyCrop st else Ok st
  | ClickCancelCrop => if inCrop then Ok (handleCancelCrop st) else Ok st
  | ClickMode mode => if inCrop then Ok st else Ok (handleSetEditMode mode st)
  | ChangeBrushSize n => if inCrop then Ok st else Ok (setBrushSettings {| size := n |} st)
  end.

(** The effect of line 77 runs [redrawCanvas] after a render in which one
    of its dependencies changed. *)
Definition render (before after : State) : State :=
  if Deps_eq_dec (depsOf before) (depsOf after) then after else redrawCanvas after.

Definition step (st : State) (ev : Event) : State :=
  render st (stateOf (dispatch ev st)).

Definition run (st : State) (evs : list Event) : State := fold_left step evs st.

(** A history push as the history manager sees it: [saveToHistory] is
    called while the canvas shows [b], and the component renders. *)
Definition pushSnapshot (b : Canvas) (st : State) : State :=
  let st1 := setCanvas b st in
  render st1 (stateOf (saveToHistory st1)).

Definition pushAll (bs : list Canvas) (st : State) : State :=
  fold_left (fun s b => pushSnapshot b s) bs st.

Fixpoint undos (n : nat) (st : State) : State :=
  match n with
  | O => st
  | S k => step (undos k st) ClickUndo
  end.

Fixpoint redos (n : nat) (st : State) : State :=
  match n with
  | O => st
  | S k => step (redos k st) ClickRedo
  end.

End Editor.

(** ** Invariants of a session *)

Definition wf_image (b : ImageData.t) : Prop := wf_bitmap b /\ nonempty_bitmap b.

(** An image is loaded, the editor is in a brush mode, and the canvas
    shows the history entry under the cursor. *)
Definition settled (st : State) : Prop :=
  Forall wf_image (history st) /\
  editMode st <> Crop /\
  index (history st) (historyIndex st) = Some (canvas st).

(** ** A reference user agent

    One instance of the parameters of [Section Editor], used to run the
    editor on concrete sessions.  It paints without anti-aliasing: a pixel
    belongs to a shape when its centre does. *)

Definition pixelCentre (i j : nat) : Point.t :=
  Point.mk (inject_Z (Z.of_nat i) + (1 # 2)) (inject_Z (Z.of_nat j) + (1 # 2)).

Definition samePoint (p q : Point.t) : bool :=
  Qeq_bool (Point.x p) (Point.x q) && Qeq_bool (Point.y p) (Point.y q).

(** The square of the distance from [c] to the segment from [p0] to [p1],
    two distinct points. *)
Definition distance2 (c p0 p1 : Point.t) : Q :=
  let dx := Point.x p1 - Point.x p0 in
  let dy := Point.y p1 - Point.y p0 in
  let t := ((Point.x c - Point.x p0) * dx + (Point.y c - Point.y p0) * dy) /
           (dx * dx + dy * dy) in
  let t := if t <? 0 then 0 else if 1 <? t then 1 else t in
  let ex := Point.x p0 + t * dx - Point.x c in
  let ey := Point.y p0 + t * dy - Point.y c in
  ex * ex + ey * ey.

(** The stroke of a segment with round caps: the points within half the
    line width (a positive number) of the segment.  A segment of length
    zero is pruned from the path when it is traced, and paints nothing. *)
Definition roundCoverage (lineWidth : Z) (p0 p1 : Point.t) (i j : nat) : Q :=
  let half := inject_Z lineWidth / 2 in
  if samePoint p0 p1 then 0
  else if Qle_bool (distance2 (pixelCentre i j) p0 p1) (half * half) then 1
  else 0.

(** [clip()] of a path that is one segment: the region it encloses is
    empty. *)
Definition segmentClip (p0 p1 : Point.t) (i j : nat) : Q := 0.

(** [drawImage] between a source and a destination rectangle of the same
    size, at whole pixels. *)
Definition nearestSample (img : HTMLImageElement)
    (sx sy sw sh dx dy dw dh : Q) (i j : nat) : Pixel :=
  pixelAt img (integerPart sx + Z.of_nat i - integerPart dx)
    (integerPart sy + Z.of_nat j - integerPart dy).

(** The pixel has its centre in the rectangle of origin ([x], [y]) and
    extents [w], [h]; a negative extent reaches back from the origin. *)
Definition centreIn (x y w h : Q) (i j : nat) : bool :=
  let c := pixelCentre i j in
  let x0 := Math_min x (x + w) in
  let y0 := Math_min y (y + h) in
  Qle_bool x0 (Point.x c) && (Point.x c <? x0 + Math_abs w) &&
  Qle_bool y0 (Point.y c) && (Point.y c <? y0 + Math_abs h).

(** The distance from [c] to the interval from [a] to [b]. *)
Definition outside (a b c : Q) : Q :=
  if c <? a then a - c else if b <? c then c - b else 0.

(** [strokeRect(x, y, w, h)] with a line width of 1: nothing when both
    extents are zero, a line with the caps of the context when one is, and
    otherwise the outline with the joins of the context. *)
Definition outlineCovers (ds : DrawingState) (x y w h : Q) (i j : nat) : bool :=
  let c := pixelCentre i j in
  let x0 := Math_min x (x + w) in
  let x1 := x0 + Math_abs w in
  let y0 := Math_min y (y + h) in
  let y1 := y0 + Math_abs h in
  let ox := outside x0 x1 (Point.x c) in
  let oy := outside y0 y1 (Point.y c) in
  let round := Qle_bool (ox * ox + oy * oy) (1 # 4) in
  let square := Qle_bool ox (1 # 2) && Qle_bool oy (1 # 2) in
  if Qeq_bool w 0 && Qeq_bool h 0 then false
  else if Qeq_bool ox 0 && Qeq_bool oy 0 then
    Qle_bool
      (Math_min (Math_min (Point.x c - x0) (x1 - Point.x c))
         (Math_min (Point.y c - y0) (y1 - Point.y c))) (1 # 2)
  else if Qeq_bool w 0 || Qeq_bool h 0 then
    if String.eqb (lineCap ds) "round" then round
    else if String.eqb (lineCap ds) "square" then square
    else if Qeq_bool h 0 then Qeq_bool ox 0 && Qle_bool oy (1 # 2)
    else Qeq_bool oy 0 && Qle_bool ox (1 # 2)
  else
    if String.eqb (lineJoin ds) "round" then round
    else if String.eqb (lineJoin ds) "bevel" then Qle_bool (ox + oy) (1 # 2)
    else square.

(** Painting a premultiplied colour under the composite operation of the
    context; the component sets [destination-out] and [source-over]. *)
Definition paint (ds : DrawingState) (src dst : Pixel) : Pixel :=
  if String.eqb (globalCompositeOperation ds) "destination-out"
  then destination_out dst (alpha src)
  else source_over src dst.

(** The corners and edge midpoints of lines 300-305. *)
Definition handleCentres (rect : CropRect.t) : list Point.t :=
  let x := CropRect.x rect in
  let y := CropRect.y rect in
  let w := CropRect.width rect in
  let h := CropRect.height rect in
  [Point.mk x y; Point.mk (x + w) y;
   Point.mk x (y + h); Point.mk (x + w) (y + h);
   Point.mk (x + w / 2) y; Point.mk (x + w / 2) (y + h);
   Point.mk x (y + h / 2); Point.mk (x + w) (y + h / 2)].

(** [drawCropOverlay] (lines 288-308): the canvas is dimmed, the rectangle
    is cleared, and its outline and the eight handles are painted. *)
Definition cropOverlay (ds : DrawingState) (c : Canvas) (rect : CropRect.t) : Canvas :=
  let x := CropRect.x rect in
  let y := CropRect.y rect in
  let w := CropRect.width rect in
  let h := CropRect.height rect in
  let hs := HANDLE_SIZE in
  ImageData.mk (ImageData.width c) (ImageData.height c)
    (tabulate (ImageData.width c) (ImageData.height c)
       (fun i j =>
          let p := pixelAt c (Z.of_nat i) (Z.of_nat j) in
          let p := paint ds {| red := 0; green := 0; blue := 0; alpha := 1 # 2 |} p in
          let p := if centreIn x y w h i j then transparent else p in
          let p :=
            if outlineCovers ds x y w h i j
            then paint ds {| red := 8 # 10; green := 8 # 10; blue := 8 # 10; alpha := 8 # 10 |} p
            else p in
          fold_left
            (fun p hd =>
               if centreIn (Point.x hd - hs / 2) (Point.y hd - hs / 2) hs hs i j
               then paint ds {| red := 1; green := 1; blue := 1; alpha := 1 |} p
               else p)
            (handleCentres rect) p)).

(** A user agent whose canvases hold up to 4096 x 4096 pixels. *)
Definition upTo4096 (w h : nat) : bool := (w <=? 4096)%nat && (h <=? 4096)%nat.

Definition refStep : State -> Event -> State :=
  step roundCoverage segmentClip nearestSample cropOverlay upTo4096.

Definition refRun : State -> list Event -> State :=
  run roundCoverage segmentClip nearestSample cropOverlay upTo4096.

(** Sample pixels and bitmaps. *)

Definition opaque (r g b : Q) : Pixel := {| red := r; green := g; blue := b; alpha := 1 |}.
Definition redPx : Pixel := opaque 1 0 0.
Definition greenPx : Pixel := opaque 0 1 0.
Definition bluePx : Pixel := opaque 0 0 1.
Definition whitePx : Pixel := opaque 1 1 1.

Definition solid (w h : nat) (p : Pixel) : ImageData.t :=
  ImageData.mk w h (tabulate w h (fun _ _ => p)).

(** The state after the two [onload] callbacks of the mount effect: the
    processed image is the first history entry and is on the canvas. *)
Definition loadedSession (processed original : ImageData.t) : State :=
  {| editMode := Erase;
     brushSettings := {| size := 40 |};
     history := [processed];
     historyIndex := 0;
     cropRect := None;
     cropAction := None;
     canvas := processed;
     context := defaultDrawingState;
     originalImageRef := Some original;
     isDrawing := false;
     lastPoint := None |}.

(** A session in crop mode (4x4 canvas, so the initial rectangle is
    [{x:0.4, y:0.4, width:3.2, height:3.2}], in binary64), and the same session after a
    pointer-down at (100,100), outside the rectangle and its handles. *)
Definition cropSession : State :=
  handleSetEditMode Crop (loadedSession (solid 4 4 redPx) (solid 4 4 greenPx)).

Definition dragSession : State := handleCropMouseDown (Point.mk 100 100) cropSession.

(** ** Vocabulary of the specification for the crop rectangle *)

(** Normalisation of negative extents by flipping the origin. *)
Definition flipNegative (r : CropRect.t) : CropRect.t :=
  let x := CropRect.x r in
  let y := CropRect.y r in
  let w := CropRect.width r in
  let h := CropRect.height r in
  CropRect.mk (if w <? 0 then x + w else x) (if h <? 0 then y + h else y)
    (if w <? 0 then - w else w) (if h <? 0 then - h else h).

(** The eight handles, in the order in which [getCropHandle] tries them. *)
Definition handleTags : list string :=
  ["br"; "tl"; "tr"; "bl"; "tm"; "bm"; "ml"; "mr"]%string.

(** The corner or edge midpoint of the rectangle a handle sits on. *)
Definition feature (tag : string) (r : CropRect.t) : Point.t :=
  let x := CropRect.x r in
  let y := CropRect.y r in
  let w := CropRect.width r in
  let h := CropRect.height r in
  if String.eqb tag "br" then Point.mk (x + w) (y + h)
  else if String.eqb tag "tl" then Point.mk x y
  else if String.eqb tag "tr" then Point.mk (x + w) y
  else if String.eqb tag "bl" then Point.mk x (y + h)
  else if String.eqb tag "tm" then Point.mk (x + w / 2) y
  else if String.eqb tag "bm" then Point.mk (x + w / 2) (y + h)
  else if String.eqb tag "ml" then Point.mk x (y + h / 2)
  else Point.mk (x + w) (y + h / 2).

(** The open square of side [side] centred on [c], and the closed one. *)
Definition inSquare (c : Point.t) (side : Q) (p : Point.t) : Prop :=
  Qabs (Point.x p - Point.x c) < side / 2 /\ Qabs (Point.y p - Point.y c) < side / 2.

Definition inClosedSquare (c : Point.t) (side : Q) (p : Point.t) : Prop :=
  Qabs (Point.x p - Point.x c) <= side / 2 /\ Qabs (Point.y p - Point.y c) <= side / 2.

Definition inSquareb (c : Point.t) (side : Q) (p : Point.t) : bool :=
  (Qabs (Point.x p - Point.x c) <? side / 2) && (Qabs (Point.y p - Point.y c) <? side / 2).

(** The action a pointer-down starts. *)
Definition startedAction (st : State) (pos : Point.t) : option CropAction.t :=
  cropAction (handleCropMouseDown pos st).

(** A session in crop mode whose rectangle is [r]. *)
Definition cropSessionWith (r : CropRect.t) : State := setCropRect (Some r) cropSession.

(** Pointer-down on the bottom-right corner of [{x:10,y:10,w:50,h:50}]. *)
Definition resizeSession : State :=
  handleCropMouseDown (Point.mk 60 60) (cropSessionWith (CropRect.mk 10 10 50 50)).

(** Small sessions: one 1x1 image just loaded, and a session with five history
    entries and the cursor on the last one. *)
Definition tinySession : State :=
  loadedSession (solid 1 1 redPx) (solid 1 1 greenPx).

Definition fiveEntrySession : State :=
  {| editMode := Erase;
     brushSettings := {| size := 40 |};
     history := [solid 1 1 redPx; solid 1 1 greenPx; solid 1 1 bluePx;
                 solid 1 1 whitePx; solid 1 1 transparent];
     historyIndex := 4;
     cropRect := None;
     cropAction := None;
     canvas := solid 1 1 transparent;
     context := defaultDrawingState;
     originalImageRef := Some (solid 1 1 greenPx);
     isDrawing := false;
     lastPoint := None |}.

(** One brush stroke over the pixel of [tinySession] (pointer down, a move
    of a quarter of a pixel, release), and the same followed by Undo.  With
    the initial brush of width 40 the whole pixel lies within the stroke. *)
Definition oneStroke : list Event :=
  [MouseDown (Point.mk (1 # 2) (1 # 2)); MouseMove (Point.mk (3 # 4) (1 # 2)); MouseUp].

Definition eraseThenUndo : list Event := oneStroke ++ [ClickUndo].

Definition refPush : Canvas -> State -> State := pushSnapshot cropOverlay.
Definition refPushAll : list Canvas -> State -> State := pushAll cropOverlay.
Definition refUndos : nat -> State -> State :=
  undos roundCoverage segmentClip nearestSample cropOverlay upTo4096.
Definition refRedos : nat -> State -> State :=
  redos roundCoverage segmentClip nearestSample cropOverlay upTo4096.

(** ** Vocabulary of the specification for pixels *)

(** A premultiplied pixel: colour within alpha, alpha within [0, 1]. *)
Definition premultiplied (p : Pixel) : Prop :=
  0 <= red p <= alpha p /\ 0 <= green p <= alpha p /\
  0 <= blue p <= alpha p /\ alpha p <= 1.

(** Pixel identity up to the representation of the rationals. *)
Definition px_eq (p q : Pixel) : Prop :=
  red p == red q /\ green p == green q /\ blue p == blue q /\ alpha p == alpha q.

Definition valid_canvas (c : Canvas) : Prop :=
  forall i j : Z, premultiplied (pixelAt c i j).

(** A completed pointer gesture on the canvas: down, moves, then up or
    leave. *)
Definition isRelease (ev : Event) : Prop := ev = MouseUp \/ ev = MouseLeave.

Definition gesture (p0 : Point.t) (moves : list Point.t) (release : Event) : list Event :=
  MouseDown p0 :: map MouseMove moves ++ [release].

(** A session in Restore mode whose original image never loaded. *)
Definition noOriginalSession : State :=
  setOriginalImageRef None (setEditMode Restore tinySession).

(** The state of a session between the pointer-down of a brush stroke that
    began in [st0] and its release: nothing [redrawCanvas] depends on has
    changed, the stroke is in progress, and the canvas is a bitmap of
    positive size, untouched if the stroke cannot paint. *)
Definition midStroke (st0 s : State) : Prop :=
  depsOf s = depsOf st0 /\
  originalImageRef s = originalImageRef st0 /\
  isDrawing s = true /\
  wf_image (canvas s) /\
  (editMode st0 = Restore -> originalImageRef st0 = None -> canvas s = canvas st0).

(** ** Vocabulary of the specification for applying a crop *)

(** The [sw] x [sh] region of a canvas with origin ([sx], [sy]); what lies
    outside the canvas is transparent black. *)
Definition croppedRegion (c : Canvas) (sx sy sw sh : Z) : ImageData.t :=
  ImageData.mk (Z.to_nat sw) (Z.to_nat sh)
    (tabulate (Z.to_nat sw) (Z.to_nat sh)
       (fun i j => pixelAt c (sx + Z.of_nat i) (sy + Z.of_nat j))).

(** The rectangle lies within the canvas. *)
Definition withinCanvas (c : Canvas) (r : CropRect.t) : Prop :=
  0 <= CropRect.x r /\ 0 <= CropRect.y r /\
  CropRect.x r + CropRect.width r <= inject_Z (Z.of_nat (ImageData.width c)) /\
  CropRect.y r + CropRect.height r <= inject_Z (Z.of_nat (ImageData.height c)).

(** A 4x4 image is loaded, crop mode is entered, and the bottom-right handle
    is dragged from (1,1) to (3.5,3.5), the pointer staying on the canvas:
    the rectangle becomes [{x:0.4, y:0.4, width:5.7, height:5.7}], in
    binary64. *)
Definition overshootSession : State :=
  refRun (loadedSession (solid 4 4 redPx) (solid 4 4 greenPx))
    [ClickMode Crop; MouseDown (Point.mk 1 1); MouseMove (Point.mk (7 # 2) (7 # 2)); MouseUp].

(** ** More of the component: cursor hint, pointer position, export *)

(** [[...].includes(handle!)] on an array of strings; [None] stands for
    [null]. *)
Definition arrayIncludes (arr : list string) (h : option string) : bool :=
  match h with
  | Some s => existsb (String.eqb s) arr
  | None => false
  end.

Definition getCursorForHandle (h : option string) : string :=
  if arrayIncludes ["tl"; "br"]%string h then "nwse-resize"
  else if arrayIncludes ["tr"; "bl"]%string h then "nesw-resize"
  else if arrayIncludes ["tm"; "bm"]%string h then "ns-resize"
  else if arrayIncludes ["ml"; "mr"]%string h then "ew-resize"
  else "move".

(** The value [handleCropMouseMove] assigns to [canvas.style.cursor] when
    it is called (lines 235-248). *)
Definition hoverCursor (pos : Point.t) (st : State) : string :=
  if EditMode_eqb (editMode st) Crop then
    match cropRect st with
    | Some rect =>
        match getCropHandle pos rect with
        | Some h =>
            if truthy h then getCursorForHandle (Some h)
            else if insideRect pos rect then "move"
            else "crosshair"
        | None => if insideRect pos rect then "move" else "crosshair"
        end
    | None => "crosshair"
    end
  else "crosshair".

(** [canvas.style.cursor] after an event, from its value before.  Only
    [handleCropMouseMove] assigns it, and the canvas has that handler in
    crop mode only (line 408): in a brush mode a pointer move goes to
    [draw], and the style keeps the value it had. *)
Definition styleCursor (cursor : string) (ev : Event) (st : State) : string :=
  match ev with
  | MouseMove pos =>
      if EditMode_eqb (editMode st) Crop then hoverCursor pos st else cursor
  | _ => cursor
  end.

(** The cursor style after a sequence of events, the state advancing by
    [next]. *)
Fixpoint cursorRun (next : State -> Event -> State) (cursor : string) (st : State)
    (evs : list Event) : string :=
  match evs with
  | [] => cursor
  | ev :: rest => cursorRun next (styleCursor cursor ev st) (next st ev) rest
  end.

(** [canvas.getBoundingClientRect()]. *)
Module DOMRect.
Record t : Set := mk { left : Q; top : Q; width : Q; height : Q }.
End DOMRect.

(** [getMousePos] for a mounted canvas whose box on the page is [rect]. *)
Definition getMousePos (clientX clientY : Q) (rect : DOMRect.t) (c : Canvas) : Point.t :=
  let scaleX := inject_Z (Z.of_nat (ImageData.width c)) / DOMRect.width rect in
  let scaleY := inject_Z (Z.of_nat (ImageData.height c)) / DOMRect.height rect in
  Point.mk ((clientX - DOMRect.left rect) * scaleX) ((clientY - DOMRect.top rect) * scaleY).

(** [handleDownload]: what is encoded, how, and under which file name.
    [drawImage(canvas, 0, 0)] of a canvas onto one of the same size copies
    its pixels under [source-over]. *)
Inductive DownloadFormat : Set := png | jpeg.

Record Download : Set := {
  encoded : Canvas;
  mimeType : string;
  quality : option Q;
  fileName : string
}.

Definition fillWhite (w h : nat) : Canvas :=
  ImageData.mk w h
    (tabulate w h
       (fun _ _ =>
          source_over {| red := 1; green := 1; blue := 1; alpha := 1 |} transparent)).

Definition drawCanvas (dst src : Canvas) : Canvas :=
  ImageData.mk (ImageData.width dst) (ImageData.height dst)
    (tabulate (ImageData.width dst) (ImageData.height dst)
       (fun i j =>
          if inBounds src (Z.of_nat i) (Z.of_nat j)
          then source_over (pixelAt src (Z.of_nat i) (Z.of_nat j))
                 (pixelAt dst (Z.of_nat i) (Z.of_nat j))
          else pixelAt dst (Z.of_nat i) (Z.of_nat j))).

Definition handleDownload (format : DownloadFormat) (st : State) : Download :=
  match format with
  | png =>
      {| encoded := canvas st; mimeType := "image/png"; quality := None;
         fileName := "background_removed.png" |}
  | jpeg =>
      let c := canvas st in
      let tempCanvas :=
        drawCanvas (fillWhite (ImageData.width c) (ImageData.height c)) c in
      {| encoded := tempCanvas; mimeType := "image/jpeg"; quality := Some (9 # 10);
         fileName := "background_removed.jpg" |}
  end.

(** ** Vocabulary for the further properties *)

(** [a] is [b] up to 2^-50 of [scale]. *)
Definition near (scale a b : Q) : Prop :=
  Qabs (a - b) <= scale * (1 # 1125899906842624).

(** The cursor is within the history. *)
Definition cursorInBounds (st : State) : Prop :=
  (0 <= historyIndex st < Z.of_nat (length (history st)))%Z.

Definition nonNegativeExtents (r : CropRect.t) : Prop :=
  0 <= CropRect.width r /\ 0 <= CropRect.height r.

(** The stored rectangle and the snapshot of the active action, when there
    are any, have non-negative extents. *)
Definition rectWellFormed (st : State) : Prop :=
  (forall r, cropRect st = Some r -> nonNegativeExtents r) /\
  (forall a r, cropAction st = Some a -> CropAction.startRect a = Some r ->
               nonNegativeExtents r).

Definition isResizeCursor (c : string) : Prop :=
  c = "nwse-resize"%string \/ c = "nesw-resize"%string \/
  c = "ns-resize"%string \/ c = "ew-resize"%string.

(** A state of crop mode as the component reaches it: an image is loaded
    and the canvas has the size of the entry under the cursor. *)
Definition cropping (st : State) : Prop :=
  editMode st = Crop /\
  Forall wf_image (history st) /\
  exists entry,
    index (history st) (historyIndex st) = Some entry /\
    ImageData.width (canvas st) = ImageData.width entry /\
    ImageData.height (canvas st) = ImageData.height entry.

(** How an event can affect the history. *)
Definition historyUnchanged (st st' : State) : Prop :=
  history st' = history st /\ historyIndex st' = historyIndex st.

Definition historyPushed (st st' : State) : Prop :=
  exists snap,
    history st' = slice0 (history st) (historyIndex st + 1) ++ [snap] /\
    historyIndex st' = (Z.of_nat (length (history st')) - 1)%Z.

(** A rectangle is stored exactly in crop mode. *)
Definition modeRectAgree (st : State) : Prop :=
  editMode st = Crop <-> cropRect st <> None.

(** The rectangle an active action assigns to a pointer position; [None]
    when a pointer move has nothing to update. *)
Definition moveTarget (st : State) (pos : Point.t) : option CropRect.t :=
  cropRect (handleCropMouseMove pos (setCropRect None st)).

(** ** The background-removal service and the application shell

    [removeBackground] (geminiService.ts) and the [App] component.  An
    awaited call is modelled by its outcome; what is outside the repository
    (the [generateContent] call, [fileToBase64]) is a parameter. *)

(** A thrown value: an [Error] with its message, or anything else. *)
Inductive Thrown : Set :=
| ErrorObject (message : string)
| OtherValue.

Inductive Promise (A : Type) : Type :=
| Resolved (a : A)
| Rejected (t : Thrown).
Arguments Resolved {A} a.
Arguments Rejected {A} t.

(** A string or [null] in a condition. *)
Definition truthyOpt (s : option string) : bool :=
  match s with
  | Some v => truthy v
  | None => false
  end.

Fixpoint dropChars (n : nat) (s : string) : string :=
  match n, s with
  | O, _ => s
  | S k, String _ rest => dropChars k rest
  | S _, EmptyString => EmptyString
  end.

Module Gemini.

(** A part of the response; [inlineData] holds [part.inlineData.data]. *)
Record Part : Set := { inlineData : option string }.

(** [parts] is [response.candidates?.[0]?.content?.parts] and [text] is
    [response.text]. *)
Record Response : Set := { parts : option (list Part); text : option string }.

(** The text [MimeTypeRegex] matches for one of its alternatives. *)
Definition mimePrefix (kind : string) : string :=
  ("data:image/" ++ kind ++ ";base64,")%string.

(** [base64Image.match(MimeTypeRegex)]: the captured group, if the string
    starts with the prefix of one of the three kinds. *)
Definition mimeTypeMatch (base64Image : string) : option string :=
  if String.prefix (mimePrefix "png") base64Image then Some "png"%string
  else if String.prefix (mimePrefix "jpeg") base64Image then Some "jpeg"%string
  else if String.prefix (mimePrefix "webp") base64Image then Some "webp"%string
  else None.

(** The first part that carries inline data. *)
Fixpoint firstInlineData (ps : list Part) : option string :=
  match ps with
  | [] => None
  | p :: rest =>
      match inlineData p with
      | Some data => Some data
      | None => firstInlineData rest
      end
  end.

Definition noImageError (response : Response) : Thrown :=
  ErrorObject
    ("API did not return an image." ++
     (if truthyOpt (text response)
      then " Response: " ++ match text response with Some t => t | None => "" end
      else ""))%string.

Definition removeBackground
    (generateContent : string -> string -> Promise Response)
    (base64Image : string) : Promise string :=
  match mimeTypeMatch base64Image with
  | None =>
      Rejected
        (ErrorObject "Invalid image format. Only PNG, JPEG, and WEBP are supported.")
  | Some kind =>
      let mimeType := ("image/" ++ kind)%string in
      let base64Data := dropChars (String.length (mimePrefix kind)) base64Image in
      let attempt : Promise string :=
        match generateContent base64Data mimeType with
        | Resolved response =>
            match parts response with
            | Some ps =>
                match firstInlineData ps with
                | Some data => Resolved data
                | None => Rejected (noImageError response)
                end
            | None => Rejected (noImageError response)
            end
        | Rejected t => Rejected t
        end in
      match attempt with
      | Resolved data => Resolved data
      | Rejected (ErrorObject message) =>
          Rejected (ErrorObject ("The API returned an error: " ++ message)%string)
      | Rejected OtherValue => Rejected (ErrorObject "An unknown API error occurred.")
      end
  end.

End Gemini.

Module App.

Record State : Set := mk {
  originalImage : option string;
  processedImage : option string;
  isLoading : bool;
  error : option string;
  key : Z
}.

Definition initial : State := mk None None false None 0.

Definition errorMessage (err : Thrown) : string :=
  match err with
  | ErrorObject message => message
  | OtherValue => "An unknown error occurred."
  end.

(** The [catch] and [finally] blocks of [handleImageUpload]. *)
Definition failed (err : Thrown) (st : State) : State :=
  mk None (processedImage st) false
    (Some ("Failed to process image. " ++ errorMessage err)%string) (key st).

(** [handleImageUpload]: the state at each [await] and on completion. *)
Definition handleImageUpload (fileToBase64 : Promise string)
    (removeBackground : string -> Promise string) (st : State) : list State :=
  let started := mk (originalImage st) None true None (key st) in
  match fileToBase64 with
  | Rejected err => [started; failed err started]
  | Resolved base64Image =>
      let read := mk (Some base64Image) None true None (key st) in
      match removeBackground base64Image with
      | Rejected err => [started; read; failed err read]
      | Resolved resultBase64 =>
          [started; read;
           mk (Some base64Image)
             (Some ("data:image/png;base64," ++ resultBase64)%string) false None (key st)]
      end
  end.

Definition handleReset (st : State) : State := mk None None false None (key st + 1).

(** The four panels of the page (lines 53-86). *)
Definition showsSpinner (st : State) : bool := isLoading st.

Definition showsError (st : State) : bool :=
  truthyOpt (error st) && negb (isLoading st).

Definition showsUpload (st : State) : bool :=
  negb (truthyOpt (originalImage st)) && negb (isLoading st) &&
  negb (truthyOpt (error st)).

Definition showsEditor (st : State) : bool :=
  truthyOpt (originalImage st) && truthyOpt (processedImage st) && negb (isLoading st).

(** The number of panels on the page. *)
Definition panelCount (st : State) : nat :=
  (if showsSpinner st then 1 else 0) + (if showsError st then 1 else 0) +
  (if showsUpload st then 1 else 0) + (if showsEditor st then 1 else 0).

(** The states the page goes through: an upload starts from the upload
    panel, a reset from the error panel or from the editor. *)
Inductive reachable : State -> Prop :=
| reachable_initial : reachable initial
| reachable_upload (st s : State) (fileToBase64 : Promise string)
    (removeBackground : string -> Promise string) :
    reachable st -> showsUpload st = true ->
    In s (handleImageUpload fileToBase64 removeBackground st) -> reachable s
| reachable_reset (st : State) :
    reachable st -> showsError st = true \/ showsEditor st = true ->
    reachable (handleReset st).

End App.

(** Sample sessions and inputs for the further properties. *)

(** Pointer-down in the middle of the rectangle [{x:10,y:10,w:80,h:80}],
    away from every handle: a [moving] action anchored at (50,50). *)
Definition movingSession : State :=
  handleCropMouseDown (Point.mk 50 50) (cropSessionWith (CropRect.mk 10 10 80 80)).

(** A 3x3 image just loaded. *)
Definition threeByThreeSession : State :=
  loadedSession (solid 3 3 redPx) (solid 3 3 greenPx).

(** A 4x4 image with a brush of width 1. *)
Definition fineBrushSession : State :=
  setBrushSettings {| size := 1 |}
    (loadedSession (solid 4 4 redPx) (solid 4 4 greenPx)).

(** A service that answers with a text part followed by an image part. *)
Definition sampleService (data mime : string) : Promise Gemini.Response :=
  Resolved
    {| Gemini.parts :=
         Some [ {| Gemini.inlineData := None |};
                {| Gemini.inlineData := Some "QUJD"%string |} ];
       Gemini.text := None |}.

(** * Properties *)

(** ** Comparisons on rationals *)

Lemma Qltb_lt (a b : Q) : (a <? b) = true <-> a < b.
Proof.
  unfold Qltb. rewrite negb_true_iff.
  split; intro H.
  - apply Qnot_le_lt. intro Hle. apply Qle_bool_iff in Hle. congruence.
  - destruct (Qle_bool b a) eqn:E; [ | reflexivity ].
    apply Qle_bool_iff in E. exfalso. apply (Qlt_not_le _ _ H E).
Qed.

Lemma Qltb_ge (a b : Q) : (a <? b) = false <-> b <= a.
Proof.
  unfold Qltb. rewrite negb_false_iff. apply Qle_bool_iff.
Qed.

Lemma Qgtb_gt (a b : Q) : (a >? b) = true <-> b < a.
Proof. unfold Qgtb. apply Qltb_lt. Qed.

Lemma Qle_bool_false (a b : Q) : Qle_bool a b = false <-> b < a.
Proof.
  split; intro H.
  - apply Qnot_le_lt. intro Hle. apply Qle_bool_iff in Hle. congruence.
  - destruct (Qle_bool a b) eqn:E; [ | reflexivity ].
    apply Qle_bool_iff in E. exfalso. apply (Qlt_not_le _ _ H E).
Qed.

Lemma Math_min_Qmin (a b : Q) : Math_min a b == Qmin a b.
Proof.
  unfold Math_min. destruct (Qle_bool a b) eqn:E.
  - apply Qle_bool_iff in E. symmetry. apply Q.min_l. exact E.
  - apply Qle_bool_false in E. symmetry. apply Q.min_r. apply Qlt_le_weak. exact E.
Qed.

Lemma Math_abs_Qabs (a : Q) : Math_abs a == Qabs a.
Proof.
  unfold Math_abs. destruct (a <? 0) eqn:E.
  - apply Qltb_lt in E. symmetry. apply Qabs_neg. apply Qlt_le_weak. exact E.
  - apply Qltb_ge in E. symmetry. apply Qabs_pos. exact E.
Qed.

Lemma Math_abs_nonneg (a : Q) : 0 <= Math_abs a.
Proof. rewrite Math_abs_Qabs. apply Qabs_nonneg. Qed.

Lemma Math_min_plus_abs (p a : Q) : Math_min p a + Math_abs (p - a) == Qmax p a.
Proof.
  unfold Math_min, Math_abs.
  destruct (Qle_bool p a) eqn:E1; destruct (p - a <? 0) eqn:E2.
  - apply Qle_bool_iff in E1. rewrite Q.max_r by exact E1. ring.
  - apply Qle_bool_iff in E1. apply Qltb_ge in E2.
    assert (p == a) by lra. rewrite Q.max_r by exact E1. lra.
  - apply Qle_bool_false in E1. apply Qltb_lt in E2. lra.
  - apply Qle_bool_false in E1. rewrite Q.max_l by lra. ring.
Qed.

(** ** Crop: drawing a rectangle *)

Lemma Math_min_cases (p a : Q) :
  (a <= p -> Math_min p a == a) /\ (p <= a -> Math_min p a == p).
Proof.
  unfold Math_min. destruct (Qle_bool p a) eqn:E.
  - apply Qle_bool_iff in E. split; intro; lra.
  - apply Qle_bool_false in E. split; intro; lra.
Qed.

Lemma Math_abs_cases (p a : Q) :
  (a <= p -> Math_abs (p - a) == p - a) /\ (p <= a -> Math_abs (p - a) == a - p).
Proof.
  unfold Math_abs. destruct (p - a <? 0) eqn:E.
  - apply Qltb_lt in E. split; intro; lra.
  - apply Qltb_ge in E. split; intro; lra.
Qed.



(** ** Crop: resizing by a handle *)

Lemma flipNegative_extent (x w : Q) :
  let x' := if w <? 0 then x + w else x in
  let w' := if w <? 0 then - w else w in
  0 <= w' /\ x' == Qmin x (x + w) /\ w' == Qabs w /\ x' + w' == Qmax x (x + w).
Proof.
  cbv zeta. destruct (w <? 0) eqn:E.
  - apply Qltb_lt in E.
    rewrite Q.min_r by lra. rewrite Q.max_l by lra. rewrite Qabs_neg by lra.
    repeat split; lra.
  - apply Qltb_ge in E.
    rewrite Q.min_l by lra. rewrite Q.max_r by lra. rewrite Qabs_pos by lra.
    repeat split; lra.
Qed.



(** ** Crop: hit-testing *)

Lemma interval_abs (p c hs : Q) :
  (p >? c - hs) && (p <? c + hs) = (Qabs (p - c) <? 2 * hs / 2).
Proof.
  assert (Hh : 2 * hs / 2 == hs) by field.
  destruct (Qabs (p - c) <? 2 * hs / 2) eqn:E.
  - apply Qltb_lt in E. rewrite Hh in E.
    apply Qabs_Qlt_condition in E. destruct E as [E1 E2].
    apply andb_true_iff. split; [ apply Qgtb_gt | apply Qltb_lt ]; lra.
  - apply Qltb_ge in E. rewrite Hh in E. apply not_true_is_false. intro H.
    apply andb_true_iff in H. destruct H as [H1 H2].
    apply Qgtb_gt in H1. apply Qltb_lt in H2.
    assert (Hlt : Qabs (p - c) < hs).
    { apply Qabs_Qlt_condition. split; lra. }
    lra.
Qed.

Lemma hit_square (px py cx cy : Q) :
  (px >? cx - HANDLE_SIZE) && (px <? cx + HANDLE_SIZE) &&
  (py >? cy - HANDLE_SIZE) && (py <? cy + HANDLE_SIZE) =
  inSquareb (Point.mk cx cy) (2 * HANDLE_SIZE) (Point.mk px py).
Proof.
  unfold inSquareb. cbn [Point.x Point.y].
  rewrite <- andb_assoc. rewrite !interval_abs. reflexivity.
Qed.

Lemma inSquareb_spec (c : Point.t) (side : Q) (p : Point.t) :
  inSquareb c side p = true <-> inSquare c side p.
Proof.
  unfold inSquareb, inSquare. rewrite andb_true_iff, !Qltb_lt. reflexivity.
Qed.

Lemma getCropHandle_find (pos : Point.t) (rect : CropRect.t) :
  getCropHandle pos rect =
  find (fun tag => inSquareb (feature tag rect) (2 * HANDLE_SIZE) pos) handleTags.
Proof.
  destruct pos as [px py]. unfold getCropHandle. cbn [Point.x Point.y].
  rewrite !hit_square.
  unfold handleTags. cbn [find].
  repeat match goal with
         | |- context [ feature ?t rect ] =>
             change (feature t rect) with ltac:(let v := eval cbv [feature String.eqb Ascii.eqb Bool.eqb] in (feature t rect) in exact v)
         end.
  reflexivity.
Qed.

Lemma handleTags_truthy (tag : string) : In tag handleTags -> truthy tag = true.
Proof.
  intro Hin. cbn in Hin.
  repeat (destruct Hin as [Hin | Hin]; [ subst tag; reflexivity | ]).
  contradiction.
Qed.

Lemma insideRect_spec (pos : Point.t) (r : CropRect.t) :
  insideRect pos r = true <->
  CropRect.x r < Point.x pos /\ Point.x pos < CropRect.x r + CropRect.width r /\
  CropRect.y r < Point.y pos /\ Point.y pos < CropRect.y r + CropRect.height r.
Proof.
  unfold insideRect. rewrite !andb_true_iff, !Qgtb_gt, !Qltb_lt. tauto.
Qed.




(** ** Bitmaps *)

Lemma map_nth_seq {A : Type} (l : list A) (d : A) :
  map (fun i => nth i l d) (seq 0 (length l)) = l.
Proof.
  apply nth_ext with (d := d) (d' := d).
  - rewrite length_map, length_seq. reflexivity.
  - intros n Hn. rewrite length_map, length_seq in Hn.
    rewrite (nth_indep _ d (nth 0 l d)) by (rewrite length_map, length_seq; exact Hn).
    rewrite (map_nth (fun i => nth i l d) (seq 0 (length l)) 0%nat n).
    rewrite seq_nth by exact Hn. reflexivity.
Qed.

Lemma nth_tabulate_row (w h : nat) (f : nat -> nat -> Pixel) (j : nat) :
  (j < h)%nat ->
  nth j (tabulate w h f) [] = map (fun i => f i j) (seq 0 w).
Proof.
  intro Hj. unfold tabulate.
  rewrite (nth_indep _ [] ((fun j => map (fun i => f i j) (seq 0 w)) 0%nat))
    by (rewrite length_map, length_seq; exact Hj).
  rewrite (map_nth (fun j => map (fun i => f i j) (seq 0 w)) (seq 0 h) 0%nat j).
  rewrite seq_nth by exact Hj. reflexivity.
Qed.

Lemma inBounds_nat (b : ImageData.t) (i j : nat) :
  (i < ImageData.width b)%nat -> (j < ImageData.height b)%nat ->
  inBounds b (Z.of_nat i) (Z.of_nat j) = true.
Proof.
  intros Hi Hj. unfold inBounds.
  rewrite !andb_true_iff. repeat split.
  - apply Z.leb_le. lia.
  - apply Z.ltb_lt. lia.
  - apply Z.leb_le. lia.
  - apply Z.ltb_lt. lia.
Qed.

Lemma pixelAt_tabulate (w h : nat) (f : nat -> nat -> Pixel) (i j : nat) :
  (i < w)%nat -> (j < h)%nat ->
  pixelAt (ImageData.mk w h (tabulate w h f)) (Z.of_nat i) (Z.of_nat j) = f i j.
Proof.
  intros Hi Hj. unfold pixelAt.
  rewrite inBounds_nat by (cbn; assumption).
  cbn [ImageData.data]. rewrite !Nat2Z.id.
  rewrite nth_tabulate_row by exact Hj.
  rewrite (nth_indep _ transparent ((fun i => f i j) 0%nat))
    by (rewrite length_map, length_seq; exact Hi).
  rewrite (map_nth (fun i => f i j) (seq 0 w) 0%nat i).
  rewrite seq_nth by exact Hi. reflexivity.
Qed.

Lemma tabulate_ext (w h : nat) (f g : nat -> nat -> Pixel) :
  (forall i j, (i < w)%nat -> (j < h)%nat -> f i j = g i j) ->
  tabulate w h f = tabulate w h g.
Proof.
  intro H. unfold tabulate.
  apply map_ext_in. intros j Hj. apply in_seq in Hj.
  apply map_ext_in. intros i Hi. apply in_seq in Hi.
  apply H; lia.
Qed.

Lemma wf_tabulate (w h : nat) (f : nat -> nat -> Pixel) :
  wf_bitmap (ImageData.mk w h (tabulate w h f)).
Proof.
  unfold wf_bitmap, tabulate. cbn. split.
  - rewrite length_map, length_seq. reflexivity.
  - apply Forall_forall. intros row Hrow.
    apply in_map_iff in Hrow. destruct Hrow as [j [Hrow _]]. subst row.
    rewrite length_map, length_seq. reflexivity.
Qed.

Lemma tabulate_pixelAt (b : ImageData.t) :
  wf_bitmap b ->
  tabulate (ImageData.width b) (ImageData.height b)
    (fun i j => pixelAt b (Z.of_nat i) (Z.of_nat j)) = ImageData.data b.
Proof.
  intros [Hlen Hrows]. unfold tabulate.
  transitivity (map (fun j => nth j (ImageData.data b) [])
                  (seq 0 (length (ImageData.data b))));
    [ | apply map_nth_seq ].
  rewrite Hlen.
  apply map_ext_in. intros j Hj. apply in_seq in Hj.
  assert (Hrow : length (nth j (ImageData.data b) []) = ImageData.width b).
  { rewrite Forall_forall in Hrows. apply Hrows. apply nth_In. lia. }
  transitivity (map (fun i => nth i (nth j (ImageData.data b) []) transparent)
                  (seq 0 (length (nth j (ImageData.data b) []))));
    [ | apply map_nth_seq ].
  rewrite Hrow.
  apply map_ext_in. intros i Hi. apply in_seq in Hi.
  unfold pixelAt. rewrite inBounds_nat by lia. rewrite !Nat2Z.id. reflexivity.
Qed.

Lemma putImageData_blank (img : ImageData.t) :
  wf_bitmap img ->
  putImageData (blank (ImageData.width img) (ImageData.height img)) img 0 0 = img.
Proof.
  intro Hwf. unfold putImageData, blank. cbn [ImageData.width ImageData.height].
  rewrite (tabulate_ext _ _ _ (fun i j => pixelAt img (Z.of_nat i) (Z.of_nat j))).
  - rewrite tabulate_pixelAt by exact Hwf. destruct img; reflexivity.
  - intros i j Hi Hj. cbv zeta. rewrite !Z.sub_0_r.
    rewrite inBounds_nat by assumption. reflexivity.
Qed.

Lemma getImageData_whole (c : Canvas) :
  wf_bitmap c -> nonempty_bitmap c ->
  getImageData c 0 0 (Z.of_nat (ImageData.width c)) (Z.of_nat (ImageData.height c)) =
    Normal c.
Proof.
  intros Hwf [Hw Hh]. unfold getImageData.
  assert (E : ((Z.of_nat (ImageData.width c) =? 0) || (Z.of_nat (ImageData.height c) =? 0))%Z = false).
  { apply orb_false_iff. split; apply Z.eqb_neq; lia. }
  rewrite E.
  assert (Ew : (Z.of_nat (ImageData.width c) <? 0)%Z = false) by (apply Z.ltb_ge; lia).
  assert (Eh : (Z.of_nat (ImageData.height c) <? 0)%Z = false) by (apply Z.ltb_ge; lia).
  rewrite Ew, Eh. rewrite !Zabs2Nat.id. cbn [Z.add].
  rewrite tabulate_pixelAt by exact Hwf. destruct c; reflexivity.
Qed.

(** ** History *)

Lemma setCanvas_same (st : State) : setCanvas (canvas st) st = st.
Proof. destruct st; reflexivity. Qed.

Lemma index_Some {A : Type} (l : list A) (i : Z) (a : A) :
  index l i = Some a ->
  (0 <= i < Z.of_nat (length l))%Z /\ nth_error l (Z.to_nat i) = Some a.
Proof.
  unfold index. destruct (i <? 0)%Z eqn:E; [ discriminate | ].
  apply Z.ltb_ge in E. intro H. split; [ | exact H ].
  assert (Hlt : (Z.to_nat i < length l)%nat).
  { apply nth_error_Some. congruence. }
  lia.
Qed.

Lemma index_nth_error {A : Type} (l : list A) (i : Z) :
  (0 <= i)%Z -> index l i = nth_error l (Z.to_nat i).
Proof.
  intro H. unfold index.
  destruct (i <? 0)%Z eqn:E; [ apply Z.ltb_lt in E; lia | reflexivity ].
Qed.

Lemma slice0_firstn {A : Type} (l : list A) (e : Z) :
  (0 <= e <= Z.of_nat (length l))%Z -> slice0 l e = firstn (Z.to_nat e) l.
Proof.
  intro H. unfold slice0.
  destruct (e <? 0)%Z eqn:E; [ apply Z.ltb_lt in E; lia | ].
  rewrite Z.min_l by lia. reflexivity.
Qed.

Lemma Forall_index {A : Type} (P : A -> Prop) (l : list A) (i : Z) (a : A) :
  Forall P l -> index l i = Some a -> P a.
Proof.
  intros HP Hi. apply index_Some in Hi. destruct Hi as [_ Hn].
  rewrite Forall_forall in HP. apply HP. eapply nth_error_In. exact Hn.
Qed.

Lemma saveToHistory_ok (st : State) :
  wf_image (canvas st) ->
  (-1 <= historyIndex st < Z.of_nat (length (history st)))%Z ->
  saveToHistory st =
    Ok (setHistoryIndex (historyIndex st + 1)
          (setHistory (firstn (Z.to_nat (historyIndex st + 1)) (history st) ++ [canvas st]) st)).
Proof.
  intros [Hwf Hne] Hidx. unfold saveToHistory.
  rewrite getImageData_whole by assumption.
  rewrite slice0_firstn by lia.
  rewrite length_app, length_firstn. cbn [length].
  rewrite Nat.min_l by lia.
  do 2 f_equal. lia.
Qed.

Lemma restoreCanvasState_canvas (img : ImageData.t) (st : State) :
  wf_bitmap img -> canvas (restoreCanvasState img st) = img.
Proof.
  intro Hwf. unfold restoreCanvasState. cbn [canvas setCanvas setContext].
  apply putImageData_blank. exact Hwf.
Qed.

Lemma index_exists {A : Type} (l : list A) (i : Z) :
  (0 <= i < Z.of_nat (length l))%Z -> exists a, index l i = Some a.
Proof.
  intro H. rewrite index_nth_error by lia.
  destruct (nth_error l (Z.to_nat i)) as [a | ] eqn:E; [ exists a; reflexivity | ].
  apply nth_error_None in E. lia.
Qed.

Lemma Forall_firstn_of {A : Type} (P : A -> Prop) (n : nat) (l : list A) :
  Forall P l -> Forall P (firstn n l).
Proof.
  intro H. rewrite <- (firstn_skipn n l) in H.
  apply Forall_app in H. exact (proj1 H).
Qed.

Lemma EditMode_eqb_Crop (m : EditMode) : m <> Crop -> EditMode_eqb m Crop = false.
Proof. destruct m; [ reflexivity | reflexivity | congruence ]. Qed.

Lemma nth_error_firstn_lt {A : Type} (l : list A) (n i : nat) :
  (i < n)%nat -> nth_error (firstn n l) i = nth_error l i.
Proof.
  intro H. rewrite nth_error_firstn.
  destruct (Nat.ltb_spec i n); [ reflexivity | lia ].
Qed.

Section HistoryProperties.

Variable strokeCoverage : Z -> Point.t -> Point.t -> nat -> nat -> Q.
Variable clipCoverage : Point.t -> Point.t -> nat -> nat -> Q.
Variable drawImageSample :
  HTMLImageElement -> Q -> Q -> Q -> Q -> Q -> Q -> Q -> Q -> nat -> nat -> Pixel.
Variable drawCropOverlay : DrawingState -> Canvas -> CropRect.t -> Canvas.
Variable serialisable : nat -> nat -> bool.

Local Abbreviation step' := (step strokeCoverage clipCoverage drawImageSample drawCropOverlay serialisable).
Local Abbreviation render' := (render drawCropOverlay).
Local Abbreviation push' := (pushSnapshot drawCropOverlay).
Local Abbreviation pushAll' := (pushAll drawCropOverlay).
Local Abbreviation undos' := (undos strokeCoverage clipCoverage drawImageSample drawCropOverlay serialisable).
Local Abbreviation redos' := (redos strokeCoverage clipCoverage drawImageSample drawCropOverlay serialisable).

Lemma render_same (st : State) : render' st st = st.
Proof.
  unfold render. destruct (Deps_eq_dec (depsOf st) (depsOf st)); [ reflexivity | ].
  congruence.
Qed.

Lemma redraw_settled (st : State) : settled st -> redrawCanvas drawCropOverlay st = st.
Proof.
  intros (Hwf & Hmode & Hidx). unfold redrawCanvas.
  pose proof (index_Some _ _ _ Hidx) as [Hrange _].
  assert (Hlen : (0 <? length (history st))%nat = true) by (apply Nat.ltb_lt; lia).
  rewrite Hlen, Hidx. unfold clearAll.
  rewrite putImageData_blank by (apply (Forall_index _ _ _ _ Hwf Hidx)).
  assert (Hov : match editMode st, cropRect st with
                | Crop, Some rect => drawCropOverlay (context st) (canvas st) rect
                | _, _ => canvas st
                end = canvas st).
  { destruct (editMode st); [ reflexivity | reflexivity | congruence ]. }
  rewrite Hov. apply setCanvas_same.
Qed.

Lemma render_settled (before st : State) : settled st -> render' before st = st.
Proof.
  intro H. unfold render.
  destruct (Deps_eq_dec (depsOf before) (depsOf st)); [ reflexivity | ].
  apply redraw_settled. exact H.
Qed.

Lemma restoreEntry_settled (st : State) (i : Z) :
  Forall wf_image (history st) -> editMode st <> Crop ->
  (0 <= i < Z.of_nat (length (history st)))%Z ->
  exists st', restoreEntry i st = Ok st' /\ settled st' /\
    history st' = history st /\ historyIndex st' = i /\ editMode st' = editMode st.
Proof.
  intros Hwf Hmode Hi. unfold restoreEntry.
  destruct (index_exists (history st) i Hi) as [img Himg]. rewrite Himg.
  eexists. split; [ reflexivity | ].
  assert (Hc : canvas (restoreCanvasState img (setHistoryIndex i st)) = img).
  { apply restoreCanvasState_canvas. apply (Forall_index _ _ _ _ Hwf Himg). }
  repeat split; try reflexivity; try assumption.
  unfold settled in *. cbn [history historyIndex restoreCanvasState setCanvas setContext setHistoryIndex].
  rewrite Himg. f_equal. symmetry. exact Hc.
Qed.

Lemma undo_step_settled (st : State) :
  settled st -> (0 < historyIndex st)%Z ->
  settled (step' st ClickUndo) /\
  history (step' st ClickUndo) = history st /\
  historyIndex (step' st ClickUndo) = (historyIndex st - 1)%Z.
Proof.
  intros (Hwf & Hmode & Hidx) Hpos.
  pose proof (index_Some _ _ _ Hidx) as [Hrange _].
  unfold step, dispatch, canUndo, handleUndo.
  rewrite (EditMode_eqb_Crop _ Hmode).
  assert (E : (historyIndex st >? 0)%Z = true) by (apply Z.gtb_lt; lia).
  rewrite E. cbn [orb negb].
  destruct (restoreEntry_settled st (historyIndex st - 1) Hwf Hmode ltac:(lia))
    as (st' & Hr & Hs & Hh & Hi & _).
  rewrite Hr. cbn [stateOf]. rewrite render_settled by exact Hs.
  repeat split; try assumption; apply Hs.
Qed.

Lemma redo_step_settled (st : State) :
  settled st -> (historyIndex st < Z.of_nat (length (history st)) - 1)%Z ->
  settled (step' st ClickRedo) /\
  history (step' st ClickRedo) = history st /\
  historyIndex (step' st ClickRedo) = (historyIndex st + 1)%Z.
Proof.
  intros (Hwf & Hmode & Hidx) Hlt.
  pose proof (index_Some _ _ _ Hidx) as [Hrange _].
  unfold step, dispatch, canRedo, handleRedo.
  rewrite (EditMode_eqb_Crop _ Hmode).
  assert (E : (historyIndex st <? Z.of_nat (length (history st)) - 1)%Z = true)
    by (apply Z.ltb_lt; lia).
  rewrite E. cbn [orb negb].
  destruct (restoreEntry_settled st (historyIndex st + 1) Hwf Hmode ltac:(lia))
    as (st' & Hr & Hs & Hh & Hi & _).
  rewrite Hr. cbn [stateOf]. rewrite render_settled by exact Hs.
  repeat split; try assumption; apply Hs.
Qed.

Lemma push_settled (b : Canvas) (st : State) :
  Forall wf_image (history st) -> editMode st <> Crop ->
  (-1 <= historyIndex st < Z.of_nat (length (history st)))%Z ->
  wf_image b ->
  settled (push' b st) /\
  history (push' b st) = firstn (Z.to_nat (historyIndex st + 1)) (history st) ++ [b] /\
  historyIndex (push' b st) = (historyIndex st + 1)%Z /\
  canvas (push' b st) = b.
Proof.
  intros Hwf Hmode Hidx Hb. unfold pushSnapshot. cbv zeta.
  rewrite saveToHistory_ok by (cbn [canvas history historyIndex setCanvas setContext]; assumption).
  cbn [stateOf canvas history historyIndex setCanvas setContext setHistory setHistoryIndex].
  match goal with |- context [ render' ?a ?s ] => set (st' := s); set (st0 := a) end.
  assert (Hs : settled st').
  { unfold settled, st'.
    cbn [canvas history historyIndex editMode setCanvas setContext setHistory setHistoryIndex].
    split; [ | split; [ exact Hmode | ] ].
    - apply Forall_app. split; [ apply Forall_firstn_of; exact Hwf | ].
      constructor; [ exact Hb | constructor ].
    - rewrite index_nth_error by lia.
      rewrite nth_error_app2 by (rewrite length_firstn; lia).
      rewrite length_firstn.
      replace (Z.to_nat (historyIndex st + 1) -
               Nat.min (Z.to_nat (historyIndex st + 1)) (length (history st)))%nat
        with 0%nat by lia.
      reflexivity. }
  rewrite render_settled by exact Hs.
  split; [ exact Hs | ]. unfold st'. repeat split.
Qed.

(** C7.  Undo with the cursor at 0 (or before the first entry) and redo
    with the cursor at the last index return normally and leave the whole
    state, hence the cursor, the history and the canvas, as it was, both
    as handlers and as toolbar events; [canUndo] holds exactly when the
    cursor is positive and [canRedo] exactly when it is below
    [length - 1]. *)
Theorem undo_redo_at_bounds_are_noops :
  forall st : State,
    ((historyIndex st <= 0)%Z ->
       handleUndo st = Ok st /\ step' st ClickUndo = st) /\
    ((Z.of_nat (length (history st)) - 1 <= historyIndex st)%Z ->
       handleRedo st = Ok st /\ step' st ClickRedo = st) /\
    (canUndo st = true <-> (0 < historyIndex st)%Z) /\
    (canRedo st = true <-> (historyIndex st < Z.of_nat (length (history st)) - 1)%Z).
Proof.
  intro st. split; [ | split; [ | split ] ].
  - intro H.
    assert (E : (historyIndex st >? 0)%Z = false).
    { apply not_true_is_false. intro T. apply Z.gtb_lt in T. lia. }
    unfold step, dispatch, canUndo, handleUndo. rewrite E.
    split; [ reflexivity | ].
    rewrite orb_true_r. cbn [stateOf]. apply render_same.
  - intro H.
    assert (E : (historyIndex st <? Z.of_nat (length (history st)) - 1)%Z = false)
      by (apply Z.ltb_ge; lia).
    unfold step, dispatch, canRedo, handleRedo. rewrite E.
    split; [ reflexivity | ].
    rewrite orb_true_r. cbn [stateOf]. apply render_same.
  - unfold canUndo. rewrite Z.gtb_lt. reflexivity.
  - unfold canRedo. rewrite Z.ltb_lt. reflexivity.
Qed.

Lemma undos_settled (n : nat) (st : State) :
  settled st -> (Z.of_nat n <= historyIndex st)%Z ->
  settled (undos' n st) /\
  history (undos' n st) = history st /\
  historyIndex (undos' n st) = (historyIndex st - Z.of_nat n)%Z.
Proof.
  intros Hs. induction n as [ | n IH]; intro Hn.
  - cbn. repeat split; try apply Hs. lia.
  - destruct IH as (IHs & IHh & IHi); [ lia | ].
    cbn [undos].
    destruct (undo_step_settled _ IHs) as (Hs' & Hh' & Hi'); [ lia | ].
    split; [ exact Hs' | split; [ congruence | lia ] ].
Qed.

Lemma redos_settled (n : nat) (st : State) :
  settled st ->
  (historyIndex st + Z.of_nat n <= Z.of_nat (length (history st)) - 1)%Z ->
  settled (redos' n st) /\
  history (redos' n st) = history st /\
  historyIndex (redos' n st) = (historyIndex st + Z.of_nat n)%Z.
Proof.
  intros Hs. induction n as [ | n IH]; intro Hn.
  - cbn. repeat split; try apply Hs. lia.
  - destruct IH as (IHs & IHh & IHi); [ lia | ].
    cbn [redos].
    destruct (redo_step_settled _ IHs) as (Hs' & Hh' & Hi'); [ rewrite IHh; lia | ].
    split; [ exact Hs' | split; [ congruence | lia ] ].
Qed.

Lemma pushAll_settled (bs : list Canvas) :
  forall st : State,
    settled st -> Forall wf_image bs ->
    settled (pushAll' bs st) /\
    historyIndex (pushAll' bs st) = (historyIndex st + Z.of_nat (length bs))%Z /\
    firstn (Z.to_nat (historyIndex (pushAll' bs st) + 1)) (history (pushAll' bs st)) =
      firstn (Z.to_nat (historyIndex st + 1)) (history st) ++ bs /\
    (bs <> [] ->
       history (pushAll' bs st) =
         firstn (Z.to_nat (historyIndex st + 1)) (history st) ++ bs).
Proof.
  induction bs as [ | b bs IH]; intros st Hs Hbs.
  - cbn [pushAll fold_left length]. rewrite app_nil_r.
    split; [ exact Hs | split; [ lia | split; [ reflexivity | congruence ] ] ].
  - inversion Hbs as [ | b' bs' Hb Hbs' ]; subst.
    destruct Hs as (Hwf & Hmode & Hidx).
    pose proof (index_Some _ _ _ Hidx) as [Hrange _].
    destruct (push_settled b st Hwf Hmode ltac:(lia) Hb) as (Hs1 & Hh1 & Hi1 & _).
    destruct (IH _ Hs1 Hbs') as (Hs2 & Hi2 & Hf2 & Hh2).
    change (pushAll' (b :: bs) st) with (pushAll' bs (push' b st)).
    assert (Hpre : firstn (Z.to_nat (historyIndex (push' b st) + 1)) (history (push' b st)) =
                   firstn (Z.to_nat (historyIndex st + 1)) (history st) ++ [b]).
    { rewrite Hh1, Hi1. apply firstn_all2.
      rewrite length_app, length_firstn. cbn [length]. lia. }
    split; [ exact Hs2 | ].
    split; [ rewrite Hi2, Hi1; cbn [length]; lia | ].
    split.
    + rewrite Hf2, Hpre, <- app_assoc. reflexivity.
    + intros _. destruct bs as [ | b2 bs2 ].
      * cbn [pushAll fold_left]. exact Hh1.
      * rewrite Hh2 by discriminate. rewrite Hpre, <- app_assoc. reflexivity.
Qed.

(** C3.  [saveToHistory] keeps the entries up to and including the
    cursor, drops every entry beyond it, appends the snapshot of the canvas
    and moves the cursor to that new last entry.  On a 5-entry history
    with the cursor at its end, two undos followed by a push leave 4
    entries: the first three, then the pushed snapshot under the cursor. *)
Theorem push_truncates_then_appends :
  (forall st : State,
      wf_image (canvas st) ->
      (-1 <= historyIndex st < Z.of_nat (length (history st)))%Z ->
      exists st' : State,
        saveToHistory st = Ok st' /\
        history st' =
          firstn (Z.to_nat (historyIndex st + 1)) (history st) ++ [canvas st] /\
        historyIndex st' = (historyIndex st + 1)%Z /\
        historyIndex st' = (Z.of_nat (length (history st')) - 1)%Z /\
        index (history st') (historyIndex st') = Some (canvas st) /\
        (forall i, (0 <= i <= historyIndex st)%Z ->
           index (history st') i = index (history st) i) /\
        canvas st' = canvas st) /\
  (forall (st : State) (b : Canvas),
      settled st ->
      length (history st) = 5%nat ->
      historyIndex st = 4%Z ->
      wf_image b ->
      let st3 := push' b (undos' 2 st) in
      length (history st3) = 4%nat /\
      history st3 = firstn 3 (history st) ++ [b] /\
      historyIndex st3 = 3%Z /\
      canvas st3 = b).
Proof.
  split.
  - intros st Hc Hidx. rewrite saveToHistory_ok by assumption.
    eexists. split; [ reflexivity | ].
    cbn [history historyIndex canvas setHistory setHistoryIndex].
    assert (Hlen : length (firstn (Z.to_nat (historyIndex st + 1)) (history st)) =
                   Z.to_nat (historyIndex st + 1)).
    { rewrite length_firstn. lia. }
    repeat split.
    + rewrite length_app, Hlen. cbn [length]. lia.
    + rewrite index_nth_error by lia.
      rewrite nth_error_app2 by lia.
      rewrite Hlen, Nat.sub_diag. reflexivity.
    + intros i Hi. rewrite !index_nth_error by lia.
      rewrite nth_error_app1 by lia.
      apply nth_error_firstn_lt. lia.
  - intros st b Hs Hlen Hidx Hb. cbv zeta.
    destruct (undos_settled 2 st Hs ltac:(lia)) as (Hs2 & Hh2 & Hi2).
    destruct Hs2 as (Hwf2 & Hmode2 & Hidx2).
    destruct (push_settled b _ Hwf2 Hmode2 ltac:(rewrite Hh2, Hi2; lia) Hb)
      as (_ & Hh3 & Hi3 & Hc3).
    rewrite Hh2, Hi2, Hidx in Hh3. rewrite Hi2, Hidx in Hi3.
    change (Z.to_nat (4 - Z.of_nat 2 + 1)) with 3%nat in Hh3.
    repeat split.
    + rewrite Hh3, length_app, length_firstn, Hlen. reflexivity.
    + exact Hh3.
    + exact Hi3.
    + exact Hc3.
Qed.

(** C2, amended.  From a settled session with cursor [c], after the
    pushes of [bs] ([N] of them), [U <= N] undos and [R <= U] redos, the
    entries up to [c] are followed by [bs], the cursor is
    [c + N - U + R], and the canvas shows the entry under it: the pushed
    entry of index [N - 1 - U + R] when [N - U + R >= 1], and the entry
    the session started on when every push was undone and none redone. *)
Theorem visible_buffer_after_pushes_undos_redos :
  forall (st : State) (bs : list Canvas) (U R : nat),
    settled st ->
    Forall wf_image bs ->
    (U <= length bs)%nat ->
    (R <= U)%nat ->
    let N := Z.of_nat (length bs) in
    let final := redos' R (undos' U (pushAll' bs st)) in
    historyIndex final = (historyIndex st + N - Z.of_nat U + Z.of_nat R)%Z /\
    index (history final) (historyIndex final) = Some (canvas final) /\
    firstn (Z.to_nat (historyIndex st + N + 1)) (history final) =
      firstn (Z.to_nat (historyIndex st + 1)) (history st) ++ bs /\
    ((1 <= N - Z.of_nat U + Z.of_nat R)%Z ->
       index bs (N - 1 - Z.of_nat U + Z.of_nat R) = Some (canvas final)) /\
    ((N - Z.of_nat U + Z.of_nat R = 0)%Z -> canvas final = canvas st).
Proof.
  intros st bs U R Hs Hbs HU HR N final.
  pose proof Hs as (Hwf & Hmode & Hidx).
  pose proof (index_Some _ _ _ Hidx) as [Hrange Hnth].
  destruct (pushAll_settled bs st Hs Hbs) as (Hs1 & Hi1 & Hf1 & _).
  destruct (undos_settled U _ Hs1 ltac:(lia)) as (Hs2 & Hh2 & Hi2).
  pose proof Hs1 as (_ & _ & Hidx1).
  pose proof (index_Some _ _ _ Hidx1) as [Hrange1 _].
  destruct (redos_settled R _ Hs2 ltac:(rewrite Hh2; lia)) as (Hs3 & Hh3 & Hi3).
  fold final in Hs3, Hh3, Hi3.
  assert (Hcur : historyIndex final = (historyIndex st + N - Z.of_nat U + Z.of_nat R)%Z)
    by (unfold N; lia).
  assert (Hhist : firstn (Z.to_nat (historyIndex st + N + 1)) (history final) =
                  firstn (Z.to_nat (historyIndex st + 1)) (history st) ++ bs).
  { rewrite Hh3, Hh2, <- Hf1, Hi1. reflexivity. }
  assert (Hvis : index (history final) (historyIndex final) = Some (canvas final))
    by apply Hs3.
  assert (Hpre : nth_error (firstn (Z.to_nat (historyIndex st + 1)) (history st) ++ bs)
                   (Z.to_nat (historyIndex final)) = Some (canvas final)).
  { rewrite <- Hhist. rewrite nth_error_firstn_lt by lia.
    rewrite <- index_nth_error by lia. exact Hvis. }
  assert (Hlen0 : length (firstn (Z.to_nat (historyIndex st + 1)) (history st)) =
                  Z.to_nat (historyIndex st + 1)).
  { rewrite length_firstn. lia. }
  split; [ exact Hcur | split; [ exact Hvis | split; [ exact Hhist | split ] ] ].
  - intro Hge. rewrite index_nth_error by lia.
    rewrite nth_error_app2 in Hpre by lia.
    rewrite Hlen0 in Hpre. rewrite <- Hpre. f_equal. lia.
  - intro Hz.
    rewrite nth_error_app1 in Hpre by lia.
    rewrite nth_error_firstn_lt in Hpre by lia.
    replace (Z.to_nat (historyIndex final)) with (Z.to_nat (historyIndex st)) in Hpre by lia.
    congruence.
Qed.

End HistoryProperties.

(** Well-formedness of concrete bitmaps and sessions, by evaluation. *)
Ltac concrete_wf :=
  unfold settled, wf_image, wf_bitmap, nonempty_bitmap; cbn;
  repeat first [ split | constructor | reflexivity | discriminate | lia ].

Ltac concrete_range :=
  split; [ apply Z.leb_le | apply Z.ltb_lt ]; vm_compute; reflexivity.

Lemma undo_redo_at_bounds_are_noops_witness :
  handleUndo tinySession = Ok tinySession /\
  refStep tinySession ClickUndo = tinySession /\
  handleRedo tinySession = Ok tinySession /\
  refStep tinySession ClickRedo = tinySession.
Proof.
  destruct (undo_redo_at_bounds_are_noops roundCoverage segmentClip nearestSample
              cropOverlay upTo4096 tinySession) as (Hu & Hr & _).
  destruct Hu as [Hu1 Hu2]; [ cbn; lia | ].
  destruct Hr as [Hr1 Hr2]; [ cbn; lia | ].
  repeat split; assumption.
Defined.

Lemma push_truncates_then_appends_witness :
  (exists st' : State,
     saveToHistory (refUndos 2 fiveEntrySession) = Ok st' /\
     history st' =
       [solid 1 1 redPx; solid 1 1 greenPx; solid 1 1 bluePx; solid 1 1 bluePx]) /\
  history (refPush (solid 1 1 redPx) (refUndos 2 fiveEntrySession)) =
    [solid 1 1 redPx; solid 1 1 greenPx; solid 1 1 bluePx; solid 1 1 redPx] /\
  historyIndex (refPush (solid 1 1 redPx) (refUndos 2 fiveEntrySession)) = 3%Z.
Proof.
  pose proof (push_truncates_then_appends roundCoverage segmentClip nearestSample
                cropOverlay upTo4096) as [Hpush Hfive].
  split.
  - destruct (Hpush (refUndos 2 fiveEntrySession)) as (st' & Hok & Hh & _).
    + concrete_wf.
    + concrete_range.
    + exists st'. split; [ exact Hok | ]. rewrite Hh. reflexivity.
  - destruct (Hfive fiveEntrySession (solid 1 1 redPx)) as (_ & Hh & Hi & _).
    + concrete_wf.
    + reflexivity.
    + reflexivity.
    + concrete_wf.
    + split; [ exact Hh | exact Hi ].
Defined.

(** C2, as stated, fails when every push is undone and nothing is redone
    ([U = N], [R = 0]).  One erase stroke across a freshly loaded 1x1
    red image (pointer down, a move, release) pushes one entry, the erased
    bitmap; after one undo the canvas shows the loaded image, which is not a
    pushed entry, and [N - 1 - U + R = -1] indexes nothing. *)
Lemma undoing_every_push_shows_the_loaded_entry :
  history (refRun tinySession eraseThenUndo) =
    [solid 1 1 redPx; solid 1 1 transparent] /\
  historyIndex (refRun tinySession eraseThenUndo) = 0%Z /\
  canvas (refRun tinySession eraseThenUndo) = solid 1 1 redPx /\
  index [solid 1 1 transparent] (1 - 1 - 1 + 0) <>
    Some (canvas (refRun tinySession eraseThenUndo)) /\
  ~ In (canvas (refRun tinySession eraseThenUndo)) [solid 1 1 transparent].
Proof.
  split; [ vm_compute; reflexivity | ].
  split; [ vm_compute; reflexivity | ].
  split; [ vm_compute; reflexivity | ].
  split.
  - vm_compute. discriminate.
  - vm_compute. intros [H | H]; [ discriminate | exact H ].
Qed.

Lemma visible_buffer_after_pushes_undos_redos_witness :
  settled tinySession /\
  index [solid 1 1 bluePx; solid 1 1 whitePx] (2 - 1 - 2 + 1) =
    Some (canvas (refRedos 1 (refUndos 2
            (refPushAll [solid 1 1 bluePx; solid 1 1 whitePx] tinySession)))) /\
  canvas (refRedos 0 (refUndos 2
            (refPushAll [solid 1 1 bluePx; solid 1 1 whitePx] tinySession))) =
    canvas tinySession.
Proof.
  assert (Hs : settled tinySession) by concrete_wf.
  assert (Hbs : Forall wf_image [solid 1 1 bluePx; solid 1 1 whitePx]) by concrete_wf.
  split; [ exact Hs | split ].
  - destruct (visible_buffer_after_pushes_undos_redos roundCoverage segmentClip
                nearestSample cropOverlay upTo4096 tinySession
                [solid 1 1 bluePx; solid 1 1 whitePx] 2 1 Hs Hbs)
      as (_ & _ & _ & Hge & _).
    + cbn; lia.
    + lia.
    + apply Hge. cbn; lia.
  - destruct (visible_buffer_after_pushes_undos_redos roundCoverage segmentClip
                nearestSample cropOverlay upTo4096 tinySession
                [solid 1 1 bluePx; solid 1 1 whitePx] 2 0 Hs Hbs)
      as (_ & _ & _ & _ & Hz).
    + cbn; lia.
    + lia.
    + apply Hz. cbn; lia.
Defined.

(** ** Brush strokes *)

Lemma premultiplied_transparent : premultiplied transparent.
Proof. unfold premultiplied, transparent; cbn. repeat split; lra. Qed.

Lemma destination_out_alpha (p : Pixel) (k : Q) :
  premultiplied p -> 0 <= k <= 1 ->
  alpha (destination_out p k) <= alpha p /\
  premultiplied (destination_out p k) /\
  (alpha p == 0 -> px_eq (destination_out p k) p).
Proof.
  intros (Hr & Hg & Hb & Ha) Hk. unfold destination_out, scalePixel, px_eq, premultiplied.
  cbn [red green blue alpha].
  assert (Hpos : 0 <= alpha p) by lra.
  split; [ nra | split ].
  - repeat split; nra.
  - intro Hz. repeat split; nra.
Qed.

Section PaintProperties.

Variable strokeCoverage : Z -> Point.t -> Point.t -> nat -> nat -> Q.
Variable clipCoverage : Point.t -> Point.t -> nat -> nat -> Q.
Variable drawImageSample :
  HTMLImageElement -> Q -> Q -> Q -> Q -> Q -> Q -> Q -> Q -> nat -> nat -> Pixel.
Variable drawCropOverlay : DrawingState -> Canvas -> CropRect.t -> Canvas.
Variable serialisable : nat -> nat -> bool.

Hypothesis strokeCoverage_range :
  forall lineWidth p0 p1 i j, 0 <= strokeCoverage lineWidth p0 p1 i j <= 1.

Local Abbreviation step' := (step strokeCoverage clipCoverage drawImageSample drawCropOverlay serialisable).
Local Abbreviation run' := (run strokeCoverage clipCoverage drawImageSample drawCropOverlay serialisable).
Local Abbreviation dispatch' := (dispatch strokeCoverage clipCoverage drawImageSample serialisable).
Local Abbreviation drawLine' := (drawLine strokeCoverage clipCoverage drawImageSample).
Local Abbreviation startDrawing' := (startDrawing strokeCoverage clipCoverage drawImageSample).
Local Abbreviation draw' := (draw strokeCoverage clipCoverage drawImageSample).
Local Abbreviation eraseStroke' := (eraseStroke strokeCoverage).

Lemma render_same_deps (before after : State) :
  depsOf before = depsOf after -> render drawCropOverlay before after = after.
Proof.
  intro H. unfold render.
  destruct (Deps_eq_dec (depsOf before) (depsOf after)); [ reflexivity | contradiction ].
Qed.

(** C8.  In Restore mode with no original image, [drawLine] returns the
    state it was given, so a stroke segment leaves the canvas as it was,
    whether it comes from the pointer-down or from a pointer-move, as a
    handler or as an event; the handlers return normally. *)
Theorem restore_without_original_is_noop :
  forall (st : State) (pos : Point.t),
    editMode st = Restore ->
    originalImageRef st = None ->
    (forall x0 y0 x1 y1, drawLine' x0 y0 x1 y1 st = st) /\
    canvas (startDrawing' pos st) = canvas st /\
    canvas (draw' pos st) = canvas st /\
    (exists st', dispatch' (MouseDown pos) st = Ok st' /\ canvas st' = canvas st) /\
    (exists st', dispatch' (MouseMove pos) st = Ok st' /\ canvas st' = canvas st) /\
    canvas (step' st (MouseDown pos)) = canvas st /\
    canvas (step' st (MouseMove pos)) = canvas st.
Proof.
  intros st pos Hmode Horig.
  assert (Hline : forall x0 y0 x1 y1 s,
             editMode s = Restore -> originalImageRef s = None ->
             drawLine' x0 y0 x1 y1 s = s).
  { intros x0 y0 x1 y1 s Hm Ho. unfold drawLine. rewrite Hm, Ho. reflexivity. }
  assert (Hstart : canvas (startDrawing' pos st) = canvas st /\
                   depsOf (startDrawing' pos st) = depsOf st).
  { unfold startDrawing. rewrite Hmode. cbn [EditMode_eqb].
    rewrite Hline by assumption. split; reflexivity. }
  assert (Hdraw : canvas (draw' pos st) = canvas st /\
                  depsOf (draw' pos st) = depsOf st).
  { unfold draw. rewrite Hmode. cbn [EditMode_eqb].
    destruct (isDrawing st); cbn [negb]; [ | split; reflexivity ].
    destruct (lastPoint st) as [last | ]; [ | split; reflexivity ].
    rewrite Hline by assumption. split; reflexivity. }
  split; [ intros; apply Hline; assumption | ].
  split; [ apply Hstart | ].
  split; [ apply Hdraw | ].
  unfold step, dispatch. rewrite Hmode. cbn [EditMode_eqb stateOf].
  split; [ eexists; split; [ reflexivity | apply Hstart ] | ].
  split; [ eexists; split; [ reflexivity | apply Hdraw ] | ].
  split.
  - rewrite render_same_deps by (symmetry; apply Hstart). apply Hstart.
  - rewrite render_same_deps by (symmetry; apply Hdraw). apply Hdraw.
Qed.

Lemma inBounds_to_nat (b : ImageData.t) (i j : Z) :
  inBounds b i j = true ->
  i = Z.of_nat (Z.to_nat i) /\ j = Z.of_nat (Z.to_nat j) /\
  (Z.to_nat i < ImageData.width b)%nat /\ (Z.to_nat j < ImageData.height b)%nat.
Proof.
  unfold inBounds. rewrite !andb_true_iff, !Z.leb_le, !Z.ltb_lt. lia.
Qed.

Lemma pixelAt_eraseStroke (c : Canvas) (lw : Z) (p0 p1 : Point.t) (i j : Z) :
  pixelAt (eraseStroke' c lw p0 p1) i j =
  if inBounds c i j
  then destination_out (pixelAt c i j)
         (strokeCoverage lw p0 p1 (Z.to_nat i) (Z.to_nat j))
  else transparent.
Proof.
  destruct (inBounds c i j) eqn:E.
  - destruct (inBounds_to_nat _ _ _ E) as (Hi & Hj & Hw & Hh).
    unfold eraseStroke. rewrite Hi, Hj.
    rewrite pixelAt_tabulate by assumption.
    rewrite !Nat2Z.id. reflexivity.
  - unfold pixelAt at 1.
    change (inBounds (eraseStroke' c lw p0 p1) i j) with (inBounds c i j).
    rewrite E. reflexivity.
Qed.

(** C9.  An erase segment is a [destination-out] stroke on the canvas.  On
    a canvas of premultiplied pixels it never raises the alpha of a pixel,
    and neither does a second erase after it, so the alpha after two
    erases is at most the alpha after the first and at most the initial
    one; a pixel whose alpha is already 0 is left as it is. *)
Theorem erase_never_raises_alpha :
  forall (c : Canvas) (lw : Z) (p0 p1 : Point.t) (lw2 : Z) (q0 q1 : Point.t),
    valid_canvas c ->
    let c1 := eraseStroke' c lw p0 p1 in
    let c2 := eraseStroke' c1 lw2 q0 q1 in
    (forall st x0 y0 x1 y1,
        editMode st = Erase -> canvas st = c ->
        size (brushSettings st) = lw -> p0 = Point.mk x0 y0 -> p1 = Point.mk x1 y1 ->
        canvas (drawLine' x0 y0 x1 y1 st) = c1) /\
    valid_canvas c1 /\
    valid_canvas c2 /\
    (forall i j : Z,
        alpha (pixelAt c1 i j) <= alpha (pixelAt c i j) /\
        alpha (pixelAt c2 i j) <= alpha (pixelAt c1 i j) /\
        alpha (pixelAt c2 i j) <= alpha (pixelAt c i j) /\
        0 <= alpha (pixelAt c2 i j) /\
        (alpha (pixelAt c i j) == 0 -> px_eq (pixelAt c1 i j) (pixelAt c i j)) /\
        (alpha (pixelAt c1 i j) == 0 -> px_eq (pixelAt c2 i j) (pixelAt c1 i j))).
Proof.
  intros c lw p0 p1 lw2 q0 q1 Hc c1 c2.
  assert (Hstep : forall (d : Canvas) w a b,
             valid_canvas d ->
             valid_canvas (eraseStroke' d w a b) /\
             forall i j,
               alpha (pixelAt (eraseStroke' d w a b) i j) <= alpha (pixelAt d i j) /\
               (alpha (pixelAt d i j) == 0 ->
                px_eq (pixelAt (eraseStroke' d w a b) i j) (pixelAt d i j))).
  { intros d w a b Hd.
    assert (Hpix : forall i j,
               premultiplied (pixelAt (eraseStroke' d w a b) i j) /\
               alpha (pixelAt (eraseStroke' d w a b) i j) <= alpha (pixelAt d i j) /\
               (alpha (pixelAt d i j) == 0 ->
                px_eq (pixelAt (eraseStroke' d w a b) i j) (pixelAt d i j))).
    { intros i j. rewrite pixelAt_eraseStroke.
      destruct (inBounds d i j) eqn:E.
      - destruct (destination_out_alpha (pixelAt d i j)
                    (strokeCoverage w a b (Z.to_nat i) (Z.to_nat j))
                    (Hd i j) (strokeCoverage_range _ _ _ _ _)) as (H1 & H2 & H3).
        split; [ exact H2 | split; [ exact H1 | exact H3 ] ].
      - unfold pixelAt. rewrite E.
        split; [ apply premultiplied_transparent | ].
        split; [ apply Qle_refl | ].
        intros _. unfold px_eq. repeat split; reflexivity. }
    split; [ intros i j; apply Hpix | intros i j; apply Hpix ]. }
  destruct (Hstep c lw p0 p1 Hc) as [Hv1 H1].
  destruct (Hstep c1 lw2 q0 q1 Hv1) as [Hv2 H2].
  fold c1 in Hv1, H1. fold c2 in Hv2, H2.
  split; [ | split; [ exact Hv1 | split; [ exact Hv2 | ] ] ].
  - intros st x0 y0 x1 y1 Hmode Hcan Hsize Hp0 Hp1.
    unfold drawLine. rewrite Hmode. cbn [canvas setCanvas setContext].
    unfold c1. rewrite Hcan, Hsize, Hp0, Hp1. reflexivity.
  - intros i j. destruct (H1 i j) as [Ha1 Hz1]. destruct (H2 i j) as [Ha2 Hz2].
    pose proof (Hv2 i j) as ((Hr0 & Hr1) & _ & _ & _).
    split; [ exact Ha1 | split; [ exact Ha2 | split; [ lra | split; [ lra | ] ] ] ].
    split; [ exact Hz1 | exact Hz2 ].
Qed.

Lemma wf_image_same_size (c : Canvas) (f : nat -> nat -> Pixel) :
  wf_image c ->
  wf_image (ImageData.mk (ImageData.width c) (ImageData.height c)
              (tabulate (ImageData.width c) (ImageData.height c) f)).
Proof.
  intros [_ Hne]. split; [ apply wf_tabulate | exact Hne ].
Qed.

Lemma drawLine_frame (x0 y0 x1 y1 : Q) (s : State) :
  depsOf (drawLine' x0 y0 x1 y1 s) = depsOf s /\
  originalImageRef (drawLine' x0 y0 x1 y1 s) = originalImageRef s /\
  isDrawing (drawLine' x0 y0 x1 y1 s) = isDrawing s /\
  lastPoint (drawLine' x0 y0 x1 y1 s) = lastPoint s /\
  (wf_image (canvas s) -> wf_image (canvas (drawLine' x0 y0 x1 y1 s))) /\
  (editMode s = Restore -> originalImageRef s = None ->
   canvas (drawLine' x0 y0 x1 y1 s) = canvas s).
Proof.
  unfold drawLine.
  destruct (editMode s) eqn:Hm; destruct (originalImageRef s) eqn:Ho;
    unfold depsOf;
    cbn [setCanvas setContext canvas history historyIndex editMode cropRect
         originalImageRef isDrawing lastPoint];
    rewrite ?Hm, ?Ho;
    do 4 (split; [ reflexivity | ]);
    (split;
     [ intro Hwf; first [ exact Hwf | apply wf_image_same_size; exact Hwf ]
     | intros H1 H2; first [ reflexivity | discriminate H1 | discriminate H2 ] ]).
Qed.

Lemma depsOf_fields (a b : State) :
  depsOf a = depsOf b ->
  history a = history b /\ historyIndex a = historyIndex b /\
  editMode a = editMode b /\ cropRect a = cropRect b.
Proof.
  unfold depsOf. intro H. inversion H. repeat split; assumption.
Qed.

Lemma step_down_midStroke (st : State) (p0 : Point.t) :
  editMode st <> Crop -> wf_image (canvas st) ->
  midStroke st (step' st (MouseDown p0)).
Proof.
  intros Hmode Hwf. unfold step, dispatch.
  rewrite (EditMode_eqb_Crop _ Hmode). cbn [stateOf].
  unfold startDrawing. rewrite (EditMode_eqb_Crop _ Hmode).
  set (s2 := setLastPoint (Some p0) (setIsDrawing true st)).
  destruct (drawLine_frame (Point.x p0) (Point.y p0) (Point.x p0) (Point.y p0) s2)
    as (Hd & Ho & Hi & _ & Hw & Hc).
  rewrite render_same_deps by (rewrite Hd; reflexivity).
  unfold midStroke. rewrite Hd, Ho, Hi.
  split; [ reflexivity | split; [ reflexivity | split; [ reflexivity | split ] ] ].
  - apply Hw. exact Hwf.
  - intros Hr Hn. apply Hc; assumption.
Qed.

Lemma step_move_midStroke (st0 s : State) (p : Point.t) :
  editMode st0 <> Crop -> midStroke st0 s ->
  midStroke st0 (step' s (MouseMove p)).
Proof.
  intros Hmode (Hd & Ho & Hi & Hw & Hc).
  destruct (depsOf_fields _ _ Hd) as (_ & _ & Hm & _).
  assert (Hmode' : editMode s <> Crop) by congruence.
  unfold step, dispatch.
  rewrite (EditMode_eqb_Crop _ Hmode'). cbn [stateOf].
  unfold draw. rewrite (EditMode_eqb_Crop _ Hmode'), Hi. cbn [negb].
  destruct (lastPoint s) as [last | ].
  - destruct (drawLine_frame (Point.x last) (Point.y last) (Point.x p) (Point.y p) s)
      as (Hd' & Ho' & Hi' & _ & Hw' & Hc').
    set (s' := drawLine' (Point.x last) (Point.y last) (Point.x p) (Point.y p) s) in *.
    assert (Hdeps : depsOf (setLastPoint (Some p) s') = depsOf s) by exact Hd'.
    rewrite render_same_deps by (symmetry; exact Hdeps).
    unfold midStroke.
    cbn [setLastPoint originalImageRef isDrawing canvas].
    rewrite Hdeps, Ho', Hi'.
    split; [ exact Hd | split; [ exact Ho | split; [ exact Hi | split ] ] ].
    + apply Hw'. exact Hw.
    + intros Hr Hn. rewrite Hc'; [ apply Hc; assumption | congruence | congruence ].
  - rewrite render_same. exact (conj Hd (conj Ho (conj Hi (conj Hw Hc)))).
Qed.

Lemma run_moves_midStroke (st0 : State) (moves : list Point.t) :
  editMode st0 <> Crop ->
  forall s, midStroke st0 s ->
            midStroke st0 (fold_left (fun a ev => step' a ev) (map MouseMove moves) s).
Proof.
  intro Hmode. induction moves as [ | p moves IH]; intros s Hs.
  - exact Hs.
  - cbn [map fold_left]. apply IH. apply step_move_midStroke; assumption.
Qed.

Lemma step_release_pushes (st0 s : State) (release : Event) :
  editMode st0 <> Crop ->
  Forall wf_image (history st0) ->
  (-1 <= historyIndex st0 < Z.of_nat (length (history st0)))%Z ->
  midStroke st0 s ->
  isRelease release ->
  settled (step' s release) /\
  history (step' s release) =
    firstn (Z.to_nat (historyIndex st0 + 1)) (history st0) ++ [canvas s] /\
  historyIndex (step' s release) = (historyIndex st0 + 1)%Z /\
  canvas (step' s release) = canvas s /\
  isDrawing (step' s release) = false /\
  editMode (step' s release) = editMode st0.
Proof.
  intros Hmode Hwf Hidx (Hd & Ho & Hi & Hw & Hc) Hrel.
  destruct (depsOf_fields _ _ Hd) as (Hh & Hx & Hm & _).
  assert (Hmode' : editMode s <> Crop) by congruence.
  assert (Hstep : step' s release =
                  render drawCropOverlay s (stateOf (stopDrawing s))).
  { destruct Hrel as [-> | ->]; unfold step, dispatch;
      rewrite (EditMode_eqb_Crop _ Hmode'); reflexivity. }
  rewrite Hstep. unfold stopDrawing. rewrite Hi.
  rewrite saveToHistory_ok by (rewrite ?Hh, ?Hx; assumption).
  cbn [stateOf]. rewrite Hh, Hx.
  match goal with |- context [ render _ _ ?f ] => set (final := f) end.
  assert (Hs : settled final).
  { unfold settled, final.
    cbn [canvas history historyIndex editMode setCanvas setContext setHistory setHistoryIndex
         setLastPoint setIsDrawing].
    split; [ | split; [ exact Hmode' | ] ].
    - apply Forall_app. split; [ apply Forall_firstn_of; exact Hwf | ].
      constructor; [ exact Hw | constructor ].
    - rewrite index_nth_error by lia.
      rewrite nth_error_app2 by (rewrite length_firstn; lia).
      rewrite length_firstn.
      replace (Z.to_nat (historyIndex st0 + 1) -
               Nat.min (Z.to_nat (historyIndex st0 + 1)) (length (history st0)))%nat
        with 0%nat by lia.
      reflexivity. }
  rewrite (render_settled drawCropOverlay) by exact Hs.
  split; [ exact Hs | ]. unfold final.
  cbn [canvas history historyIndex editMode isDrawing setCanvas setContext setHistory
       setHistoryIndex setLastPoint setIsDrawing].
  repeat split. exact Hm.
Qed.


End PaintProperties.

(** ** Applying a crop *)

Lemma integerPart_zero (q : Q) : q == 0 -> integerPart q = 0%Z.
Proof.
  unfold Qeq, integerPart. cbn [Qnum Qden]. intro H.
  assert (Hn : Qnum q = 0%Z) by lia.
  rewrite Hn. apply Z.quot_0_l. discriminate.
Qed.

Lemma enforceRangeLong_Normal (q : Q) (z : Z) :
  enforceRangeLong q = Normal z ->
  z = integerPart q /\ (-2147483648 <= z <= 2147483647)%Z.
Proof.
  unfold enforceRangeLong.
  destruct ((-2147483648 <=? integerPart q) && (integerPart q <=? 2147483647))%Z eqn:E;
    [ | discriminate ].
  intro H. inversion H; subst z.
  apply andb_true_iff in E. destruct E as [E1 E2].
  apply Z.leb_le in E1. apply Z.leb_le in E2. split; [ reflexivity | lia ].
Qed.

Lemma toCanvasDim_long (default : nat) (q : Q) (z : Z) :
  enforceRangeLong q = Normal z -> (0 <= z)%Z -> toCanvasDim default q = Z.to_nat z.
Proof.
  intros H Hz. apply enforceRangeLong_Normal in H. destruct H as [-> Hr].
  unfold toCanvasDim. rewrite Z.mod_small by lia.
  destruct (integerPart q <=? 2147483647)%Z eqn:E; [ reflexivity | ].
  apply Z.leb_gt in E. lia.
Qed.

Lemma getImageData_zero (c : Canvas) (sx sy sw sh : Z) :
  sw = 0%Z \/ sh = 0%Z -> getImageData c sx sy sw sh = Throw IndexSizeError.
Proof.
  intro H. unfold getImageData.
  assert (E : ((sw =? 0) || (sh =? 0))%Z = true).
  { apply orb_true_iff. destruct H as [-> | ->]; [ left | right ]; reflexivity. }
  rewrite E. reflexivity.
Qed.

Lemma getImageData_positive (c : Canvas) (sx sy sw sh : Z) :
  (0 < sw)%Z -> (0 < sh)%Z ->
  getImageData c sx sy sw sh =
    Normal (ImageData.mk (Z.to_nat sw) (Z.to_nat sh)
              (tabulate (Z.to_nat sw) (Z.to_nat sh)
                 (fun i j => pixelAt c (sx + Z.of_nat i) (sy + Z.of_nat j)))).
Proof.
  intros Hw Hh. unfold getImageData.
  assert (E : ((sw =? 0) || (sh =? 0))%Z = false).
  { apply orb_false_iff. split; apply Z.eqb_neq; lia. }
  rewrite E.
  assert (Ew : (sw <? 0)%Z = false) by (apply Z.ltb_ge; lia).
  assert (Eh : (sh <? 0)%Z = false) by (apply Z.ltb_ge; lia).
  rewrite Ew, Eh. rewrite !Zabs2Nat.abs_nat_nonneg by lia. reflexivity.
Qed.

Section CropApplyProperties.

Variable strokeCoverage : Z -> Point.t -> Point.t -> nat -> nat -> Q.
Variable clipCoverage : Point.t -> Point.t -> nat -> nat -> Q.
Variable drawImageSample :
  HTMLImageElement -> Q -> Q -> Q -> Q -> Q -> Q -> Q -> Q -> nat -> nat -> Pixel.
Variable drawCropOverlay : DrawingState -> Canvas -> CropRect.t -> Canvas.
Variable serialisable : nat -> nat -> bool.

Local Abbreviation step' := (step strokeCoverage clipCoverage drawImageSample drawCropOverlay serialisable).
Local Abbreviation handleApplyCrop' := (handleApplyCrop drawImageSample serialisable).
Local Abbreviation drawImage' := (drawImage drawImageSample).
Local Abbreviation imageOfCanvas' := (imageOfCanvas serialisable).

Lemma handleApplyCrop_zero (st : State) (rect : CropRect.t) :
  cropRect st = Some rect ->
  CropRect.width rect == 0 \/ CropRect.height rect == 0 ->
  stateOf (handleApplyCrop' st) = st /\
  (forall (originalImg : HTMLImageElement) (sx sy sw sh : Z),
      originalImageRef st = Some originalImg ->
      enforceRangeLong (CropRect.x rect) = Normal sx ->
      enforceRangeLong (CropRect.y rect) = Normal sy ->
      enforceRangeLong (CropRect.width rect) = Normal sw ->
      enforceRangeLong (CropRect.height rect) = Normal sh ->
      handleApplyCrop' st = Uncaught IndexSizeError st) /\
  (originalImageRef st = None -> handleApplyCrop' st = Ok st).
Proof.
  intros Hrect Hzero. unfold handleApplyCrop. rewrite Hrect.
  destruct (originalImageRef st) as [originalImg | ];
    [ | split; [ reflexivity | split; [ intros; discriminate | reflexivity ] ] ].
  cbv zeta.
  destruct (enforceRangeLong (CropRect.x rect)) as [sx | ex] eqn:Ex;
    [ | split; [ reflexivity | split; intros; discriminate ] ].
  destruct (enforceRangeLong (CropRect.y rect)) as [sy | ey] eqn:Ey;
    [ | split; [ reflexivity | split; intros; discriminate ] ].
  destruct (enforceRangeLong (CropRect.width rect)) as [sw | ew] eqn:Ew;
    [ | split; [ reflexivity | split; intros; discriminate ] ].
  destruct (enforceRangeLong (CropRect.height rect)) as [sh | eh] eqn:Eh;
    [ | split; [ reflexivity | split; intros; discriminate ] ].
  apply enforceRangeLong_Normal in Ew. apply enforceRangeLong_Normal in Eh.
  destruct Ew as [Ew _]. destruct Eh as [Eh _].
  rewrite getImageData_zero.
  - split; [ reflexivity | split; [ reflexivity | intros; discriminate ] ].
  - destruct Hzero as [Hz | Hz]; [ left | right ]; subst;
      apply integerPart_zero; exact Hz.
Qed.

Lemma wf_image_croppedRegion (c : Canvas) (sx sy sw sh : Z) :
  (0 < sw)%Z -> (0 < sh)%Z -> wf_image (croppedRegion c sx sy sw sh).
Proof.
  intros Hw Hh. split; [ apply wf_tabulate | ].
  unfold nonempty_bitmap, croppedRegion. cbn [ImageData.width ImageData.height]. lia.
Qed.

(** The image made from the temporary canvas loads exactly when the user
    agent can serialise a bitmap of its size. *)
Lemma imageOfCanvas_drawImage (w h : nat) (img : HTMLImageElement)
    (sx sy sw sh dx dy dw dh : Q) :
  (0 < w)%nat -> (0 < h)%nat ->
  imageOfCanvas' (drawImage' (blank w h) img sx sy sw sh dx dy dw dh) =
    if serialisable w h
    then Some (drawImage' (blank w h) img sx sy sw sh dx dy dw dh)
    else None.
Proof.
  intros Hw Hh. unfold imageOfCanvas, drawImage, blank.
  cbn [ImageData.width ImageData.height].
  assert (Ew : (0 <? w)%nat = true) by (apply Nat.ltb_lt; exact Hw).
  assert (Eh : (0 <? h)%nat = true) by (apply Nat.ltb_lt; exact Hh).
  rewrite Ew, Eh. reflexivity.
Qed.

(** A rectangle of positive integer extents whose cropped original the
    user agent cannot serialise: the [onload] callback never runs. *)
Lemma handleApplyCrop_not_loaded (st : State) (rect : CropRect.t)
    (originalImg : HTMLImageElement) (sx sy sw sh : Z) :
  cropRect st = Some rect ->
  originalImageRef st = Some originalImg ->
  enforceRangeLong (CropRect.x rect) = Normal sx ->
  enforceRangeLong (CropRect.y rect) = Normal sy ->
  enforceRangeLong (CropRect.width rect) = Normal sw ->
  enforceRangeLong (CropRect.height rect) = Normal sh ->
  (0 < sw)%Z -> (0 < sh)%Z ->
  serialisable (Z.to_nat sw) (Z.to_nat sh) = false ->
  handleApplyCrop' st = Ok st.
Proof.
  intros Hrect Horig Hx Hy Hw Hh Hsw Hsh Hser.
  unfold handleApplyCrop. rewrite Hrect, Horig. cbv zeta.
  rewrite Hx, Hy, Hw, Hh.
  rewrite getImageData_positive by assumption.
  rewrite (toCanvasDim_long 300 _ sw Hw) by lia.
  rewrite (toCanvasDim_long 150 _ sh Hh) by lia.
  rewrite imageOfCanvas_drawImage by lia.
  rewrite Hser. reflexivity.
Qed.

(** The same rectangle when the image loads: the state the [onload]
    callback leaves. *)
Lemma handleApplyCrop_positive (st : State) (rect : CropRect.t)
    (originalImg : HTMLImageElement) (sx sy sw sh : Z) :
  cropRect st = Some rect ->
  originalImageRef st = Some originalImg ->
  enforceRangeLong (CropRect.x rect) = Normal sx ->
  enforceRangeLong (CropRect.y rect) = Normal sy ->
  enforceRangeLong (CropRect.width rect) = Normal sw ->
  enforceRangeLong (CropRect.height rect) = Normal sh ->
  (0 < sw)%Z -> (0 < sh)%Z ->
  serialisable (Z.to_nat sw) (Z.to_nat sh) = true ->
  (-1 <= historyIndex st < Z.of_nat (length (history st)))%Z ->
  handleApplyCrop' st =
    Ok (setEditMode Erase
          (setCropRect None
             (setHistoryIndex (historyIndex st + 1)
                (setHistory
                   (firstn (Z.to_nat (historyIndex st + 1)) (history st) ++
                    [croppedRegion (canvas st) sx sy sw sh])
                   (setCanvas (croppedRegion (canvas st) sx sy sw sh)
                      (setContext defaultDrawingState (setOriginalImageRef
                         (Some (drawImage' (blank (Z.to_nat sw) (Z.to_nat sh)) originalImg
                                  (CropRect.x rect) (CropRect.y rect)
                                  (CropRect.width rect) (CropRect.height rect) 0 0
                                  (CropRect.width rect) (CropRect.height rect)))
                         st))))))).
Proof.
  intros Hrect Horig Hx Hy Hw Hh Hsw Hsh Hser Hidx.
  unfold handleApplyCrop. rewrite Hrect, Horig. cbv zeta.
  rewrite Hx, Hy, Hw, Hh.
  rewrite getImageData_positive by assumption.
  rewrite (toCanvasDim_long 300 _ sw Hw) by lia.
  rewrite (toCanvasDim_long 150 _ sh Hh) by lia.
  rewrite imageOfCanvas_drawImage by lia.
  rewrite Hser.
  fold (croppedRegion (canvas st) sx sy sw sh).
  replace (putImageData (blank (Z.to_nat sw) (Z.to_nat sh))
             (croppedRegion (canvas st) sx sy sw sh) 0 0)
    with (croppedRegion (canvas st) sx sy sw sh)
    by (symmetry; apply (putImageData_blank (croppedRegion (canvas st) sx sy sw sh));
        apply wf_image_croppedRegion; assumption).
  rewrite saveToHistory_ok.
  - reflexivity.
  - cbn [canvas setCanvas setContext]. apply wf_image_croppedRegion; assumption.
  - cbn [history historyIndex setCanvas setContext setOriginalImageRef]. exact Hidx.
Qed.

(** C1, amended.  In crop mode, apply-crop on a rectangle whose width or
    height is 0 changes nothing: no entry is pushed, the mode stays Crop,
    and the rectangle, the canvas and the original image are as they were.
    The handler has no check of its own: with an original image loaded and
    coordinates within the 32-bit range it is stopped by the
    [IndexSizeError] of [getImageData], which it does not catch; without an
    original image it returns at once. *)
Theorem apply_crop_on_empty_rectangle_changes_nothing :
  forall (st : State) (rect : CropRect.t),
    editMode st = Crop ->
    cropRect st = Some rect ->
    CropRect.width rect == 0 \/ CropRect.height rect == 0 ->
    let final := step' st ClickApplyCrop in
    final = st /\
    history final = history st /\
    historyIndex final = historyIndex st /\
    editMode final = Crop /\
    cropRect final = Some rect /\
    canvas final = canvas st /\
    originalImageRef final = originalImageRef st /\
    (forall (originalImg : HTMLImageElement) (sx sy sw sh : Z),
        originalImageRef st = Some originalImg ->
        enforceRangeLong (CropRect.x rect) = Normal sx ->
        enforceRangeLong (CropRect.y rect) = Normal sy ->
        enforceRangeLong (CropRect.width rect) = Normal sw ->
        enforceRangeLong (CropRect.height rect) = Normal sh ->
        handleApplyCrop' st = Uncaught IndexSizeError st) /\
    (originalImageRef st = None -> handleApplyCrop' st = Ok st).
Proof.
  intros st rect Hmode Hrect Hzero final.
  destruct (handleApplyCrop_zero st rect Hrect Hzero) as (Hst & Hthrow & Hnone).
  assert (Hfinal : final = st).
  { unfold final, step, dispatch. rewrite Hmode. cbn [EditMode_eqb].
    fold handleApplyCrop'. rewrite Hst. apply render_same. }
  rewrite Hfinal.
  repeat split; try reflexivity; try assumption.
Qed.

End CropApplyProperties.

(** ** The reference user agent, instantiated *)

Lemma roundCoverage_range (lineWidth : Z) (p0 p1 : Point.t) (i j : nat) :
  0 <= roundCoverage lineWidth p0 p1 i j <= 1.
Proof.
  unfold roundCoverage.
  repeat match goal with |- context [ if ?b then _ else _ ] => destruct b end;
    split; unfold Qle; cbn; lia.
Qed.

Lemma valid_solid (w h : nat) (p : Pixel) : premultiplied p -> valid_canvas (solid w h p).
Proof.
  intros Hp i j. unfold pixelAt.
  destruct (inBounds (solid w h p) i j) eqn:E; [ | apply premultiplied_transparent ].
  destruct (inBounds_to_nat _ _ _ E) as (Hi & Hj & Hw & Hh).
  pose proof (pixelAt_tabulate w h (fun _ _ => p) (Z.to_nat i) (Z.to_nat j) Hw Hh) as Hpix.
  rewrite <- Hi, <- Hj in Hpix. unfold pixelAt in Hpix.
  change (ImageData.mk w h (tabulate w h (fun _ _ => p))) with (solid w h p) in Hpix.
  rewrite E in Hpix. rewrite Hpix. exact Hp.
Qed.

(** C1, as stated, fails for a rectangle that extends beyond the canvas.
    In [overshootSession] the rectangle has positive extents and reaches
    beyond the right and bottom edges of the 4x4 canvas; applying the crop
    is not rejected: an entry is pushed, the mode becomes Erase, the
    rectangle is cleared, the canvas and the original image become 5x5, and
    the last row and column of the canvas, read outside the old canvas, are
    transparent. *)
Lemma out_of_bounds_crop_is_applied :
  editMode overshootSession = Crop /\
  (exists r : CropRect.t,
     cropRect overshootSession = Some r /\
     0 < CropRect.width r /\ 0 < CropRect.height r /\
     4 < CropRect.x r + CropRect.width r /\
     4 < CropRect.y r + CropRect.height r /\
     ~ withinCanvas (canvas overshootSession) r) /\
  ImageData.width (canvas overshootSession) = 4%nat /\
  ImageData.height (canvas overshootSession) = 4%nat /\
  length (history overshootSession) = 1%nat /\
  length (history (refStep overshootSession ClickApplyCrop)) = 2%nat /\
  editMode (refStep overshootSession ClickApplyCrop) = Erase /\
  cropRect (refStep overshootSession ClickApplyCrop) = None /\
  ImageData.width (canvas (refStep overshootSession ClickApplyCrop)) = 5%nat /\
  ImageData.height (canvas (refStep overshootSession ClickApplyCrop)) = 5%nat /\
  pixelAt (canvas (refStep overshootSession ClickApplyCrop)) 4 4 = transparent /\
  (exists o : HTMLImageElement,
     originalImageRef (refStep overshootSession ClickApplyCrop) = Some o /\
     ImageData.width o = 5%nat /\ ImageData.height o = 5%nat) /\
  refStep overshootSession ClickApplyCrop <> overshootSession.
Proof.
  split; [ vm_compute; reflexivity | ].
  split.
  { eexists. split; [ vm_compute; reflexivity | ].
    cbn [CropRect.x CropRect.y CropRect.width CropRect.height].
    split; [ reflexivity | ].
    split; [ reflexivity | ].
    split; [ reflexivity | ].
    split; [ reflexivity | ].
    intros (_ & _ & Hx & _). vm_compute in Hx. apply Hx. reflexivity. }
  split; [ vm_compute; reflexivity | ].
  split; [ vm_compute; reflexivity | ].
  split; [ vm_compute; reflexivity | ].
  split; [ vm_compute; reflexivity | ].
  split; [ vm_compute; reflexivity | ].
  split; [ vm_compute; reflexivity | ].
  split; [ vm_compute; reflexivity | ].
  split; [ vm_compute; reflexivity | ].
  split; [ vm_compute; reflexivity | ].
  split.
  { eexists. split; [ vm_compute; reflexivity | split; reflexivity ]. }
  intro H. apply (f_equal editMode) in H. vm_compute in H. discriminate.
Qed.

Lemma apply_crop_on_empty_rectangle_changes_nothing_witness :
  editMode (cropSessionWith (CropRect.mk 0 0 0 0)) = Crop /\
  refStep (cropSessionWith (CropRect.mk 0 0 0 0)) ClickApplyCrop =
    cropSessionWith (CropRect.mk 0 0 0 0) /\
  handleApplyCrop nearestSample upTo4096 (cropSessionWith (CropRect.mk 0 0 0 0)) =
    Uncaught IndexSizeError (cropSessionWith (CropRect.mk 0 0 0 0)).
Proof.
  split; [ reflexivity | ].
  destruct (apply_crop_on_empty_rectangle_changes_nothing roundCoverage segmentClip
              nearestSample cropOverlay upTo4096 (cropSessionWith (CropRect.mk 0 0 0 0))
              (CropRect.mk 0 0 0 0) eq_refl eq_refl)
    as (Hstep & _ & _ & _ & _ & _ & _ & Hthrow & _).
  - left; reflexivity.
  - split; [ exact Hstep | ].
    apply (Hthrow (solid 4 4 greenPx) 0%Z 0%Z 0%Z 0%Z); reflexivity.
Defined.

Lemma restore_without_original_is_noop_witness :
  editMode noOriginalSession = Restore /\
  originalImageRef noOriginalSession = None /\
  drawLine roundCoverage segmentClip nearestSample 0 0 1 1 noOriginalSession =
    noOriginalSession /\
  canvas (refStep noOriginalSession (MouseDown (Point.mk (1 # 2) (1 # 2)))) =
    canvas noOriginalSession.
Proof.
  split; [ reflexivity | split; [ reflexivity | ] ].
  destruct (restore_without_original_is_noop roundCoverage segmentClip nearestSample
              cropOverlay upTo4096 noOriginalSession (Point.mk (1 # 2) (1 # 2)) eq_refl eq_refl)
    as (Hline & _ & _ & _ & _ & Hdown & _).
  split; [ apply Hline | exact Hdown ].
Defined.

Lemma erase_never_raises_alpha_witness :
  valid_canvas (solid 2 2 redPx) /\
  alpha (pixelAt (eraseStroke roundCoverage
                    (eraseStroke roundCoverage (solid 2 2 redPx) 1
                       (Point.mk (1 # 2) (1 # 2)) (Point.mk (3 # 2) (1 # 2)))
                    1 (Point.mk (1 # 2) (1 # 2)) (Point.mk (3 # 2) (1 # 2))) 0 0)
  <= alpha (pixelAt (eraseStroke roundCoverage (solid 2 2 redPx) 1
                       (Point.mk (1 # 2) (1 # 2)) (Point.mk (3 # 2) (1 # 2))) 0 0) /\
  alpha (pixelAt (eraseStroke roundCoverage (solid 2 2 redPx) 1
                    (Point.mk (1 # 2) (1 # 2)) (Point.mk (3 # 2) (1 # 2))) 0 0)
  <= alpha (pixelAt (solid 2 2 redPx) 0 0).
Proof.
  assert (Hv : valid_canvas (solid 2 2 redPx)).
  { apply valid_solid. unfold premultiplied, redPx, opaque; cbn.
    repeat split; unfold Qle; cbn; lia. }
  split; [ exact Hv | ].
  destruct (erase_never_raises_alpha roundCoverage segmentClip nearestSample
              roundCoverage_range (solid 2 2 redPx) 1
              (Point.mk (1 # 2) (1 # 2)) (Point.mk (3 # 2) (1 # 2)) 1
              (Point.mk (1 # 2) (1 # 2)) (Point.mk (3 # 2) (1 # 2)) Hv)
    as (_ & _ & _ & Hpix).
  destruct (Hpix 0%Z 0%Z) as (H1 & H2 & _).
  split; [ exact H2 | exact H1 ].
Defined.



(** * Further properties of the component *)

Section EventProperties.

Variable strokeCoverage : Z -> Point.t -> Point.t -> nat -> nat -> Q.
Variable clipCoverage : Point.t -> Point.t -> nat -> nat -> Q.
Variable drawImageSample :
  HTMLImageElement -> Q -> Q -> Q -> Q -> Q -> Q -> Q -> Q -> nat -> nat -> Pixel.
Variable drawCropOverlay : DrawingState -> Canvas -> CropRect.t -> Canvas.
Variable serialisable : nat -> nat -> bool.

Local Abbreviation step' := (step strokeCoverage clipCoverage drawImageSample drawCropOverlay serialisable).
Local Abbreviation dispatch' := (dispatch strokeCoverage clipCoverage drawImageSample serialisable).
Local Abbreviation drawLine' := (drawLine strokeCoverage clipCoverage drawImageSample).
Local Abbreviation startDrawing' := (startDrawing strokeCoverage clipCoverage drawImageSample).
Local Abbreviation draw' := (draw strokeCoverage clipCoverage drawImageSample).
Local Abbreviation stopDrawing' := stopDrawing.
Local Abbreviation handleApplyCrop' := (handleApplyCrop drawImageSample serialisable).
Local Abbreviation undos' := (undos strokeCoverage clipCoverage drawImageSample drawCropOverlay serialisable).
Local Abbreviation redos' := (redos strokeCoverage clipCoverage drawImageSample drawCropOverlay serialisable).

(** [redrawCanvas] writes the canvas and nothing else. *)
Lemma render_frame (before after : State) :
  editMode (render drawCropOverlay before after) = editMode after /\
  history (render drawCropOverlay before after) = history after /\
  historyIndex (render drawCropOverlay before after) = historyIndex after /\
  cropRect (render drawCropOverlay before after) = cropRect after /\
  cropAction (render drawCropOverlay before after) = cropAction after /\
  originalImageRef (render drawCropOverlay before after) = originalImageRef after /\
  isDrawing (render drawCropOverlay before after) = isDrawing after /\
  brushSettings (render drawCropOverlay before after) = brushSettings after.
Proof.
  unfold render. destruct (Deps_eq_dec (depsOf before) (depsOf after));
    repeat split; reflexivity.
Qed.

(** What [saveToHistory] can leave behind. *)
Lemma saveToHistory_cases (st : State) :
  (exists e, saveToHistory st = Uncaught e st) \/
  (exists snap,
     saveToHistory st =
       Ok (setHistoryIndex
             (Z.of_nat (length (slice0 (history st) (historyIndex st + 1) ++ [snap])) - 1)
             (setHistory (slice0 (history st) (historyIndex st + 1) ++ [snap]) st))).
Proof.
  unfold saveToHistory.
  destruct (getImageData (canvas st) 0 0 (Z.of_nat (ImageData.width (canvas st)))
              (Z.of_nat (ImageData.height (canvas st)))) as [snap | e].
  - right. exists snap. reflexivity.
  - left. exists e. reflexivity.
Qed.

Lemma drawLine_history (x0 y0 x1 y1 : Q) (st : State) :
  history (drawLine' x0 y0 x1 y1 st) = history st /\
  historyIndex (drawLine' x0 y0 x1 y1 st) = historyIndex st /\
  cropRect (drawLine' x0 y0 x1 y1 st) = cropRect st /\
  cropAction (drawLine' x0 y0 x1 y1 st) = cropAction st /\
  editMode (drawLine' x0 y0 x1 y1 st) = editMode st /\
  originalImageRef (drawLine' x0 y0 x1 y1 st) = originalImageRef st.
Proof.
  unfold drawLine.
  destruct (editMode st) eqn:Hm; destruct (originalImageRef st) eqn:Ho;
    cbn [setCanvas setContext history historyIndex cropRect cropAction editMode
         originalImageRef];
    rewrite ?Hm, ?Ho; repeat split; reflexivity.
Qed.

Ltac split_cases :=
  repeat match goal with
         | |- context [ if ?b then _ else _ ] => destruct b
         | |- context [ match ?x with _ => _ end ] => destruct x
         end.

Lemma handleCropMouseDown_frame (pos : Point.t) (st : State) :
  history (handleCropMouseDown pos st) = history st /\
  historyIndex (handleCropMouseDown pos st) = historyIndex st /\
  cropRect (handleCropMouseDown pos st) = cropRect st /\
  editMode (handleCropMouseDown pos st) = editMode st /\
  canvas (handleCropMouseDown pos st) = canvas st /\
  originalImageRef (handleCropMouseDown pos st) = originalImageRef st.
Proof.
  unfold handleCropMouseDown.
  destruct (negb (EditMode_eqb (editMode st) Crop)); [ repeat split | ].
  destruct (cropRect st) as [rect | ] eqn:Hr; [ | repeat split; exact Hr ].
  destruct (getCropHandle pos rect) as [h | ];
    [ destruct (truthy h) | ]; try destruct (insideRect pos rect);
    repeat split; exact Hr.
Qed.

Lemma handleCropMouseMove_frame (pos : Point.t) (st : State) :
  history (handleCropMouseMove pos st) = history st /\
  historyIndex (handleCropMouseMove pos st) = historyIndex st /\
  cropAction (handleCropMouseMove pos st) = cropAction st /\
  editMode (handleCropMouseMove pos st) = editMode st /\
  canvas (handleCropMouseMove pos st) = canvas st /\
  originalImageRef (handleCropMouseMove pos st) = originalImageRef st.
Proof.
  unfold handleCropMouseMove.
  destruct (cropAction st) as [act | ] eqn:Ha; [ | repeat split; assumption ].
  destruct (negb (EditMode_eqb (editMode st) Crop)); [ repeat split; assumption | ].
  destruct (CropAction.type act); destruct (CropAction.startRect act);
    destruct (CropAction.handle act) as [h | ]; try destruct (truthy h);
    repeat split; assumption.
Qed.

Lemma startDrawing_frame (pos : Point.t) (st : State) :
  history (startDrawing' pos st) = history st /\
  historyIndex (startDrawing' pos st) = historyIndex st /\
  cropRect (startDrawing' pos st) = cropRect st /\
  cropAction (startDrawing' pos st) = cropAction st /\
  editMode (startDrawing' pos st) = editMode st /\
  originalImageRef (startDrawing' pos st) = originalImageRef st.
Proof.
  unfold startDrawing.
  destruct (EditMode_eqb (editMode st) Crop); [ repeat split | ].
  apply (drawLine_history _ _ _ _ (setLastPoint (Some pos) (setIsDrawing true st))).
Qed.

Lemma draw_frame (pos : Point.t) (st : State) :
  history (draw' pos st) = history st /\
  historyIndex (draw' pos st) = historyIndex st /\
  cropRect (draw' pos st) = cropRect st /\
  cropAction (draw' pos st) = cropAction st /\
  editMode (draw' pos st) = editMode st /\
  originalImageRef (draw' pos st) = originalImageRef st.
Proof.
  unfold draw.
  destruct (EditMode_eqb (editMode st) Crop); [ repeat split | ].
  destruct (negb (isDrawing st)); [ repeat split | ].
  destruct (lastPoint st) as [last | ]; [ | repeat split ].
  apply (drawLine_history (Point.x last) (Point.y last) (Point.x pos) (Point.y pos) st).
Qed.

Lemma stopDrawing_effect (st : State) :
  historyUnchanged st (stateOf (stopDrawing st)) \/
  historyPushed st (stateOf (stopDrawing st)).
Proof.
  unfold stopDrawing. destruct (isDrawing st); [ | left; split; reflexivity ].
  destruct (saveToHistory_cases st) as [[e He] | [snap Hs]].
  - rewrite He. left; split; reflexivity.
  - rewrite Hs. right. exists snap. split; reflexivity.
Qed.

Lemma handleApplyCrop_effect (st : State) :
  historyUnchanged st (stateOf (handleApplyCrop' st)) \/
  historyPushed st (stateOf (handleApplyCrop' st)).
Proof.
  unfold handleApplyCrop.
  destruct (cropRect st) as [rect | ]; [ | left; split; reflexivity ].
  destruct (originalImageRef st) as [originalImg | ]; [ | left; split; reflexivity ].
  cbv zeta.
  destruct (enforceRangeLong (CropRect.x rect)); [ | left; split; reflexivity ].
  destruct (enforceRangeLong (CropRect.y rect)); [ | left; split; reflexivity ].
  destruct (enforceRangeLong (CropRect.width rect)); [ | left; split; reflexivity ].
  destruct (enforceRangeLong (CropRect.height rect)); [ | left; split; reflexivity ].
  match goal with |- context [ getImageData ?c ?a ?b ?w ?h ] =>
    destruct (getImageData c a b w h) as [cropped | e] end;
    [ | left; split; reflexivity ].
  match goal with |- context [ imageOfCanvas ?s ?c ] =>
    destruct (imageOfCanvas s c) as [newOriginalImage | ] end;
    [ | left; split; reflexivity ].
  match goal with |- context [ saveToHistory ?s ] =>
    destruct (saveToHistory_cases s) as [[e He] | [snap Hs]]; [ rewrite He | rewrite Hs ] end.
  - left; split; reflexivity.
  - right. exists snap. split; reflexivity.
Qed.

Lemma restoreEntry_frame (i : Z) (st : State) :
  history (stateOf (restoreEntry i st)) = history st /\
  historyIndex (stateOf (restoreEntry i st)) = i /\
  editMode (stateOf (restoreEntry i st)) = editMode st /\
  cropRect (stateOf (restoreEntry i st)) = cropRect st /\
  cropAction (stateOf (restoreEntry i st)) = cropAction st /\
  originalImageRef (stateOf (restoreEntry i st)) = originalImageRef st.
Proof.
  unfold restoreEntry. destruct (index (history st) i); repeat split.
Qed.

Lemma handleSetEditMode_frame (mode : EditMode) (st : State) :
  history (handleSetEditMode mode st) = history st /\
  historyIndex (handleSetEditMode mode st) = historyIndex st /\
  editMode (handleSetEditMode mode st) = mode /\
  canvas (handleSetEditMode mode st) = canvas st /\
  cropAction (handleSetEditMode mode st) = cropAction st /\
  originalImageRef (handleSetEditMode mode st) = originalImageRef st.
Proof.
  unfold handleSetEditMode. destruct mode; destruct (cropRect st); repeat split.
Qed.

Lemma step_history_effect (st : State) (ev : Event) :
  match ev with
  | MouseUp | MouseLeave | ClickApplyCrop =>
      historyUnchanged st (step' st ev) \/ historyPushed st (step' st ev)
  | ClickUndo =>
      history (step' st ev) = history st /\
      (historyIndex (step' st ev) = historyIndex st \/
       (0 < historyIndex st)%Z /\ historyIndex (step' st ev) = (historyIndex st - 1)%Z)
  | ClickRedo =>
      history (step' st ev) = history st /\
      (historyIndex (step' st ev) = historyIndex st \/
       (historyIndex st < Z.of_nat (length (history st)) - 1)%Z /\
       historyIndex (step' st ev) = (historyIndex st + 1)%Z)
  | _ => historyUnchanged st (step' st ev)
  end.
Proof.
  assert (Hren : forall s',
             history (render drawCropOverlay st s') = history s' /\
             historyIndex (render drawCropOverlay st s') = historyIndex s').
  { intro s'. destruct (render_frame st s') as (_ & Hh & Hi & _). split; assumption. }
  assert (Hlift : forall s',
             historyUnchanged st s' \/ historyPushed st s' ->
             historyUnchanged st (render drawCropOverlay st s') \/
             historyPushed st (render drawCropOverlay st s')).
  { intros s' [[Hh Hi] | [snap [Hh Hi]]]; destruct (Hren s') as [Rh Ri].
    - left. split; congruence.
    - right. exists snap. split; congruence. }
  unfold step, dispatch.
  destruct ev as [pos | pos | | | | | | | mode | n];
    destruct (EditMode_eqb (editMode st) Crop); cbn [orb stateOf];
    try (apply Hlift; first [ apply stopDrawing_effect | apply handleApplyCrop_effect
                            | left; split; reflexivity ]).
  - destruct (Hren (handleCropMouseDown pos st)) as [Rh Ri].
    destruct (handleCropMouseDown_frame pos st) as (Fh & Fi & _).
    split; congruence.
  - destruct (Hren (startDrawing' pos st)) as [Rh Ri].
    destruct (startDrawing_frame pos st) as (Fh & Fi & _).
    split; congruence.
  - destruct (Hren (handleCropMouseMove pos st)) as [Rh Ri].
    destruct (handleCropMouseMove_frame pos st) as (Fh & Fi & _).
    split; congruence.
  - destruct (Hren (draw' pos st)) as [Rh Ri].
    destruct (draw_frame pos st) as (Fh & Fi & _).
    split; congruence.
  - destruct (Hren st) as [Rh Ri]. split; [ exact Rh | left; exact Ri ].
  - unfold canUndo, handleUndo.
    destruct (historyIndex st >? 0)%Z eqn:E; cbn [negb stateOf].
    + apply Z.gtb_lt in E.
      destruct (Hren (stateOf (restoreEntry (historyIndex st - 1) st))) as [Rh Ri].
      destruct (restoreEntry_frame (historyIndex st - 1) st) as (Fh & Fi & _).
      split; [ congruence | right; split; [ lia | congruence ] ].
    + destruct (Hren st) as [Rh Ri]. split; [ exact Rh | left; exact Ri ].
  - destruct (Hren st) as [Rh Ri]. split; [ exact Rh | left; exact Ri ].
  - unfold canRedo, handleRedo.
    destruct (historyIndex st <? Z.of_nat (length (history st)) - 1)%Z eqn:E;
      cbn [negb stateOf].
    + apply Z.ltb_lt in E.
      destruct (Hren (stateOf (restoreEntry (historyIndex st + 1) st))) as [Rh Ri].
      destruct (restoreEntry_frame (historyIndex st + 1) st) as (Fh & Fi & _).
      split; [ congruence | right; split; [ lia | congruence ] ].
    + destruct (Hren st) as [Rh Ri]. split; [ exact Rh | left; exact Ri ].
  - destruct (Hren (handleCancelCrop st)) as [Rh Ri]. split; [ exact Rh | exact Ri ].
  - destruct (Hren st) as [Rh Ri]. split; assumption.
  - destruct (Hren st) as [Rh Ri]. split; assumption.
  - destruct (Hren (handleSetEditMode mode st)) as [Rh Ri].
    destruct (handleSetEditMode_frame mode st) as (Fh & Fi & _).
    split; congruence.
  - destruct (Hren st) as [Rh Ri]. split; assumption.
  - destruct (Hren (setBrushSettings {| size := n |} st)) as [Rh Ri]. split; assumption.
Qed.

(** X1.  Which events can touch the history.  Pointer-down, pointer-move,
    cancel, a mode switch and a brush-size change never change the history
    or the cursor; undo and redo keep the entries and move the cursor by at
    most one, and only inside the bounds; only a release and apply-crop can
    push, and a push keeps the entries up to the cursor, appends one snapshot
    and leaves the cursor on it. *)
Theorem history_changes_only_by_push_undo_redo :
  forall (st : State) (ev : Event),
    match ev with
    | MouseUp | MouseLeave | ClickApplyCrop =>
        historyUnchanged st (step' st ev) \/ historyPushed st (step' st ev)
    | ClickUndo =>
        history (step' st ev) = history st /\
        (historyIndex (step' st ev) = historyIndex st \/
         (0 < historyIndex st)%Z /\ historyIndex (step' st ev) = (historyIndex st - 1)%Z)
    | ClickRedo =>
        history (step' st ev) = history st /\
        (historyIndex (step' st ev) = historyIndex st \/
         (historyIndex st < Z.of_nat (length (history st)) - 1)%Z /\
         historyIndex (step' st ev) = (historyIndex st + 1)%Z)
    | _ => historyUnchanged st (step' st ev)
    end.
Proof. exact step_history_effect. Qed.

Lemma step_cursorInBounds (st : State) (ev : Event) :
  cursorInBounds st -> cursorInBounds (step' st ev).
Proof.
  unfold cursorInBounds. intro H.
  pose proof (step_history_effect st ev) as E.
  assert (Hpush : historyUnchanged st (step' st ev) \/ historyPushed st (step' st ev) ->
                  (0 <= historyIndex (step' st ev) <
                   Z.of_nat (length (history (step' st ev))))%Z).
  { intros [[Hh Hi] | [snap [Hh Hi]]].
    - rewrite Hh, Hi. exact H.
    - rewrite Hi, Hh, length_app. cbn [length]. lia. }
  destruct ev; try (apply Hpush; first [ exact E | left; exact E ]).
  - destruct E as [Hh [Hi | [Hpos Hi]]]; rewrite Hh, Hi; lia.
  - destruct E as [Hh [Hi | [Hpos Hi]]]; rewrite Hh, Hi; lia.
Qed.

(** X2.  Once an image is loaded the cursor stays inside the history,
    whatever the user does: every event sequence keeps
    [0 <= historyIndex < history.length], so the history is never empty, and
    the undo and redo handlers always find the entry they restore (they
    never throw). *)
Theorem cursor_stays_in_bounds :
  forall (st : State) (evs : list Event),
    cursorInBounds st ->
    let final := run strokeCoverage clipCoverage drawImageSample drawCropOverlay serialisable st evs in
    cursorInBounds final /\
    history final <> [] /\
    (exists s, handleUndo final = Ok s) /\
    (exists s, handleRedo final = Ok s).
Proof.
  intros st evs H final.
  assert (Hrun : forall l s, cursorInBounds s ->
            cursorInBounds (fold_left (fun a ev => step' a ev) l s)).
  { induction l as [ | ev l IH]; intros s Hs; cbn [fold_left]; [ exact Hs | ].
    apply IH. apply step_cursorInBounds. exact Hs. }
  assert (Hfinal : cursorInBounds final) by (apply Hrun; exact H).
  unfold cursorInBounds in Hfinal.
  split; [ exact Hfinal | split; [ | split ] ].
  - intro Hnil. rewrite Hnil in Hfinal. cbn in Hfinal. lia.
  - unfold handleUndo. destruct (historyIndex final >? 0)%Z eqn:E; [ | eexists; reflexivity ].
    apply Z.gtb_lt in E. unfold restoreEntry.
    destruct (index_exists (history final) (historyIndex final - 1)) as [img Himg]; [ lia | ].
    rewrite Himg. eexists; reflexivity.
  - unfold handleRedo.
    destruct (historyIndex final <? Z.of_nat (length (history final)) - 1)%Z eqn:E;
      [ | eexists; reflexivity ].
    apply Z.ltb_lt in E. unfold restoreEntry.
    destruct (index_exists (history final) (historyIndex final + 1)) as [img Himg]; [ lia | ].
    rewrite Himg. eexists; reflexivity.
Qed.

Lemma stopDrawing_frame (st : State) :
  cropRect (stateOf (stopDrawing st)) = cropRect st /\
  cropAction (stateOf (stopDrawing st)) = cropAction st /\
  editMode (stateOf (stopDrawing st)) = editMode st /\
  originalImageRef (stateOf (stopDrawing st)) = originalImageRef st.
Proof.
  unfold stopDrawing. destruct (isDrawing st); [ | repeat split ].
  destruct (saveToHistory_cases st) as [[e He] | [snap Hs]];
    [ rewrite He | rewrite Hs ]; repeat split.
Qed.

Lemma handleApplyCrop_frame (st : State) :
  cropAction (stateOf (handleApplyCrop' st)) = cropAction st /\
  (cropRect (stateOf (handleApplyCrop' st)) = None /\
   editMode (stateOf (handleApplyCrop' st)) = Erase \/
   cropRect (stateOf (handleApplyCrop' st)) = cropRect st /\
   editMode (stateOf (handleApplyCrop' st)) = editMode st).
Proof.
  unfold handleApplyCrop.
  destruct (cropRect st) as [rect | ] eqn:Hr;
    [ | split; [ reflexivity | right; split; [ exact Hr | reflexivity ] ] ].
  destruct (originalImageRef st) as [originalImg | ];
    [ | split; [ reflexivity | right; split; [ exact Hr | reflexivity ] ] ].
  cbv zeta.
  destruct (enforceRangeLong (CropRect.x rect));
    [ | split; [ reflexivity | right; split; [ exact Hr | reflexivity ] ] ].
  destruct (enforceRangeLong (CropRect.y rect));
    [ | split; [ reflexivity | right; split; [ exact Hr | reflexivity ] ] ].
  destruct (enforceRangeLong (CropRect.width rect));
    [ | split; [ reflexivity | right; split; [ exact Hr | reflexivity ] ] ].
  destruct (enforceRangeLong (CropRect.height rect));
    [ | split; [ reflexivity | right; split; [ exact Hr | reflexivity ] ] ].
  match goal with |- context [ getImageData ?c ?a ?b ?w ?h ] =>
    destruct (getImageData c a b w h) as [cropped | e] end;
    [ | split; [ reflexivity | right; split; [ exact Hr | reflexivity ] ] ].
  match goal with |- context [ imageOfCanvas ?s ?c ] =>
    destruct (imageOfCanvas s c) as [newOriginalImage | ] end;
    [ | split; [ reflexivity | right; split; [ exact Hr | reflexivity ] ] ].
  match goal with |- context [ saveToHistory ?s ] =>
    destruct (saveToHistory_cases s) as [[e He] | [snap Hs]]; [ rewrite He | rewrite Hs ] end.
  - split; [ reflexivity | right; split; [ exact Hr | reflexivity ] ].
  - split; [ reflexivity | left; split; reflexivity ].
Qed.

Lemma resizeRect_nonneg (h : string) (r : CropRect.t) (dx dy : Q) :
  nonNegativeExtents (resizeRect h r dx dy).
Proof.
  unfold resizeRect, nonNegativeExtents.
  destruct (includes h "l"); destruct (includes h "r");
    destruct (includes h "t"); destruct (includes h "b"); cbv zeta;
    cbn [fst snd];
    repeat match goal with
           | |- context [ ?a <? 0 ] =>
               let E := fresh "E" in
               destruct (a <? 0) eqn:E;
               [ apply Qltb_lt in E | apply Qltb_ge in E ]
           end;
    cbn [CropRect.width CropRect.height]; split; lra.
Qed.

Lemma default_extent_nonneg (n : nat) : 0 <= inject_Z (Z.of_nat n) * literal_0_8.
Proof.
  apply Qmult_le_0_compat; unfold Qle; cbn; lia.
Qed.

Lemma rectWellFormed_keep (st s' : State) :
  rectWellFormed st ->
  cropAction s' = cropAction st ->
  cropRect s' = cropRect st \/ cropRect s' = None ->
  rectWellFormed s'.
Proof.
  intros [Hr Ha] Eact Erect. split.
  - intros r Hs. destruct Erect as [E | E]; rewrite E in Hs; [ apply Hr; exact Hs | discriminate ].
  - intros a r Hs. rewrite Eact in Hs. apply Ha. exact Hs.
Qed.

Lemma handleCropMouseDown_rectWellFormed (pos : Point.t) (st : State) :
  rectWellFormed st -> rectWellFormed (handleCropMouseDown pos st).
Proof.
  intros [Hr Ha]. split.
  - intros r Hs. destruct (handleCropMouseDown_frame pos st) as (_ & _ & Hc & _).
    rewrite Hc in Hs. apply Hr. exact Hs.
  - intros a r. unfold handleCropMouseDown.
    destruct (negb (EditMode_eqb (editMode st) Crop)); [ apply Ha | ].
    destruct (cropRect st) as [rect | ] eqn:Hrect;
      [ | cbn; intros Hs Hsr; inversion Hs; subst a; discriminate ].
    pose proof (Hr rect eq_refl) as Hok.
    destruct (getCropHandle pos rect) as [h | ];
      [ destruct (truthy h) | ]; try destruct (insideRect pos rect);
      cbn; intros Hs Hsr; inversion Hs; subst a; cbn in Hsr;
      first [ discriminate | inversion Hsr; subst r; exact Hok ].
Qed.

Lemma handleCropMouseMove_rectWellFormed (pos : Point.t) (st : State) :
  rectWellFormed st -> rectWellFormed (handleCropMouseMove pos st).
Proof.
  intros [Hr Ha]. split.
  - intro r. unfold handleCropMouseMove.
    destruct (cropAction st) as [act | ] eqn:Hact; [ | apply Hr ].
    destruct (negb (EditMode_eqb (editMode st) Crop)); [ apply Hr | ].
    destruct (CropAction.type act).
    + cbn. intro Hs. inversion Hs; subst. unfold nonNegativeExtents. cbn.
      split; apply Math_abs_nonneg.
    + destruct (CropAction.startRect act) as [r0 | ] eqn:Hr0; [ | apply Hr ].
      cbn. intro Hs. inversion Hs; subst.
      exact (Ha act r0 eq_refl Hr0).
    + destruct (CropAction.startRect act) as [r0 | ]; [ | apply Hr ].
      destruct (CropAction.handle act) as [h | ]; [ | apply Hr ].
      destruct (truthy h); [ | apply Hr ].
      cbn. intro Hs. inversion Hs; subst. apply resizeRect_nonneg.
  - intros a r Hs. destruct (handleCropMouseMove_frame pos st) as (_ & _ & Hc & _).
    rewrite Hc in Hs. apply Ha. exact Hs.
Qed.

Lemma step_rectWellFormed (st : State) (ev : Event) :
  rectWellFormed st -> rectWellFormed (step' st ev).
Proof.
  intro H.
  assert (Hren : forall s', rectWellFormed s' ->
                            rectWellFormed (render drawCropOverlay st s')).
  { intros s' Hs'. destruct (render_frame st s') as (_ & _ & _ & Hc & Ha & _).
    apply (rectWellFormed_keep s'); [ exact Hs' | exact Ha | left; exact Hc ]. }
  unfold step. apply Hren. unfold dispatch.
  destruct ev as [pos | pos | | | | | | | mode | n];
    destruct (EditMode_eqb (editMode st) Crop); cbn [orb stateOf]; try exact H.
  - apply handleCropMouseDown_rectWellFormed; exact H.
  - destruct (startDrawing_frame pos st) as (_ & _ & Hc & Ha & _).
    apply (rectWellFormed_keep st); [ exact H | exact Ha | left; exact Hc ].
  - apply handleCropMouseMove_rectWellFormed; exact H.
  - destruct (draw_frame pos st) as (_ & _ & Hc & Ha & _).
    apply (rectWellFormed_keep st); [ exact H | exact Ha | left; exact Hc ].
  - split; [ apply H | intros a r Hs; discriminate ].
  - destruct (stopDrawing_frame st) as (Hc & Ha & _).
    apply (rectWellFormed_keep st); [ exact H | exact Ha | left; exact Hc ].
  - split; [ apply H | intros a r Hs; discriminate ].
  - destruct (stopDrawing_frame st) as (Hc & Ha & _).
    apply (rectWellFormed_keep st); [ exact H | exact Ha | left; exact Hc ].
  - destruct (negb (canUndo st)); [ exact H | ]. unfold handleUndo.
    destruct (historyIndex st >? 0)%Z; [ | exact H ].
    destruct (restoreEntry_frame (historyIndex st - 1) st) as (_ & _ & _ & Hc & Ha & _).
    apply (rectWellFormed_keep st); [ exact H | exact Ha | left; exact Hc ].
  - destruct (negb (canRedo st)); [ exact H | ]. unfold handleRedo.
    destruct (historyIndex st <? Z.of_nat (length (history st)) - 1)%Z; [ | exact H ].
    destruct (restoreEntry_frame (historyIndex st + 1) st) as (_ & _ & _ & Hc & Ha & _).
    apply (rectWellFormed_keep st); [ exact H | exact Ha | left; exact Hc ].
  - destruct (handleApplyCrop_frame st) as (Ha & [[Hc _] | [Hc _]]).
    + apply (rectWellFormed_keep st); [ exact H | exact Ha | right; exact Hc ].
    + apply (rectWellFormed_keep st); [ exact H | exact Ha | left; exact Hc ].
  - apply (rectWellFormed_keep st); [ exact H | reflexivity | right; reflexivity ].
  - destruct H as [Hr Ha]. split.
    + intro r. unfold handleSetEditMode.
      destruct mode; destruct (cropRect st) as [r0 | ] eqn:Hr0; cbn;
        intro Hs; try discriminate;
        try (rewrite Hr0 in Hs; apply Hr; exact Hs).
      inversion Hs; subst. unfold nonNegativeExtents. cbn.
      split; apply default_extent_nonneg.
    + intros a r Hs. destruct (handleSetEditMode_frame mode st) as (_ & _ & _ & _ & Hc & _).
      rewrite Hc in Hs. apply Ha. exact Hs.
Qed.

(** X3.  The stored crop rectangle is always well-formed: starting from a
    state whose rectangle and action snapshot (if any) have non-negative
    width and height, every sequence of events leaves them so. *)
Theorem crop_rectangle_stays_well_formed :
  forall (st : State) (evs : list Event),
    rectWellFormed st ->
    rectWellFormed (run strokeCoverage clipCoverage drawImageSample drawCropOverlay serialisable st evs).
Proof.
  intros st evs. unfold run. revert st.
  induction evs as [ | ev evs IH]; intros st H; cbn [fold_left]; [ exact H | ].
  apply IH. apply step_rectWellFormed. exact H.
Qed.

Lemma EditMode_eqb_true (m : EditMode) : EditMode_eqb m Crop = true -> m = Crop.
Proof. destruct m; [ discriminate | discriminate | reflexivity ]. Qed.

Lemma EditMode_eqb_false (m : EditMode) : EditMode_eqb m Crop = false -> m <> Crop.
Proof. destruct m; [ discriminate | discriminate | discriminate ]. Qed.

Lemma handleCropMouseMove_rect (pos : Point.t) (st : State) :
  cropRect (handleCropMouseMove pos st) = cropRect st \/
  exists r, cropRect (handleCropMouseMove pos st) = Some r.
Proof.
  unfold handleCropMouseMove.
  destruct (cropAction st) as [act | ]; [ | left; reflexivity ].
  destruct (negb (EditMode_eqb (editMode st) Crop)); [ left; reflexivity | ].
  destruct (CropAction.type act); destruct (CropAction.startRect act);
    destruct (CropAction.handle act) as [h | ]; try destruct (truthy h);
    first [ left; reflexivity | right; eexists; reflexivity ].
Qed.

Lemma modeRectAgree_keep (st s' : State) :
  modeRectAgree st -> editMode s' = editMode st -> cropRect s' = cropRect st ->
  modeRectAgree s'.
Proof.
  unfold modeRectAgree. intros H Em Er. rewrite Em, Er. exact H.
Qed.

Lemma modeRectAgree_left (s' : State) :
  editMode s' = Erase -> cropRect s' = None -> modeRectAgree s'.
Proof.
  unfold modeRectAgree. intros Em Er. rewrite Em, Er.
  split; [ discriminate | intro H; exfalso; apply H; reflexivity ].
Qed.

Lemma step_modeRectAgree (st : State) (ev : Event) :
  modeRectAgree st -> modeRectAgree (step' st ev).
Proof.
  intro H.
  assert (Hren : forall s', modeRectAgree s' ->
                            modeRectAgree (render drawCropOverlay st s')).
  { intros s' Hs'. destruct (render_frame st s') as (Hm & _ & _ & Hc & _).
    apply (modeRectAgree_keep s'); assumption. }
  unfold step. apply Hren. unfold dispatch.
  destruct ev as [pos | pos | | | | | | | mode | n];
    destruct (EditMode_eqb (editMode st) Crop) eqn:Emode; cbn [orb stateOf];
    try exact H.
  - destruct (handleCropMouseDown_frame pos st) as (_ & _ & Hc & Hm & _).
    apply (modeRectAgree_keep st); assumption.
  - destruct (startDrawing_frame pos st) as (_ & _ & Hc & _ & Hm & _).
    apply (modeRectAgree_keep st); assumption.
  - destruct (handleCropMouseMove_frame pos st) as (_ & _ & _ & Hm & _).
    apply EditMode_eqb_true in Emode.
    destruct (handleCropMouseMove_rect pos st) as [Hc | [r Hc]].
    + apply (modeRectAgree_keep st); assumption.
    + unfold modeRectAgree. rewrite Hm, Hc.
      split; [ discriminate | intros _; exact Emode ].
  - destruct (draw_frame pos st) as (_ & _ & Hc & _ & Hm & _).
    apply (modeRectAgree_keep st); assumption.
  - destruct (stopDrawing_frame st) as (Hc & _ & Hm & _).
    apply (modeRectAgree_keep st); assumption.
  - destruct (stopDrawing_frame st) as (Hc & _ & Hm & _).
    apply (modeRectAgree_keep st); assumption.
  - destruct (negb (canUndo st)); [ exact H | ]. unfold handleUndo.
    destruct (historyIndex st >? 0)%Z; [ | exact H ].
    destruct (restoreEntry_frame (historyIndex st - 1) st) as (_ & _ & Hm & Hc & _).
    apply (modeRectAgree_keep st); assumption.
  - destruct (negb (canRedo st)); [ exact H | ]. unfold handleRedo.
    destruct (historyIndex st <? Z.of_nat (length (history st)) - 1)%Z; [ | exact H ].
    destruct (restoreEntry_frame (historyIndex st + 1) st) as (_ & _ & Hm & Hc & _).
    apply (modeRectAgree_keep st); assumption.
  - destruct (handleApplyCrop_frame st) as (_ & [[Hc Hm] | [Hc Hm]]).
    + apply modeRectAgree_left; assumption.
    + apply (modeRectAgree_keep st); assumption.
  - apply modeRectAgree_left; reflexivity.
  - unfold modeRectAgree, handleSetEditMode.
    destruct mode; destruct (cropRect st) eqn:Hr0; cbn; rewrite ?Hr0;
      (split; [ intro E; first [ discriminate E | discriminate ]
              | intro E; first [ reflexivity | exfalso; apply E; reflexivity ] ]).
Qed.

(** X4.  A crop rectangle is stored exactly while the editor is in crop
    mode: from a state where this holds (such as a freshly loaded session,
    in Erase mode with no rectangle), every sequence of events keeps
    [editMode = Crop] equivalent to [cropRect <> null]. *)
Theorem rectangle_exists_exactly_in_crop_mode :
  forall (st : State) (evs : list Event),
    modeRectAgree st ->
    modeRectAgree (run strokeCoverage clipCoverage drawImageSample drawCropOverlay serialisable st evs).
Proof.
  intros st evs. unfold run. revert st.
  induction evs as [ | ev evs IH]; intros st H; cbn [fold_left]; [ exact H | ].
  apply IH. apply step_modeRectAgree. exact H.
Qed.

Lemma handleCropMouseMove_target (pos : Point.t) (st : State) :
  cropRect (handleCropMouseMove pos st) =
  match moveTarget st pos with
  | Some r => Some r
  | None => cropRect st
  end.
Proof.
  unfold moveTarget, handleCropMouseMove.
  cbn [cropAction editMode setCropRect].
  destruct (cropAction st) as [act | ]; [ | reflexivity ].
  destruct (negb (EditMode_eqb (editMode st) Crop)); [ reflexivity | ].
  destruct (CropAction.type act); destruct (CropAction.startRect act);
    destruct (CropAction.handle act) as [h | ]; try destruct (truthy h); reflexivity.
Qed.

Lemma moveTarget_ext (a b : State) (pos : Point.t) :
  cropAction a = cropAction b -> editMode a = editMode b ->
  moveTarget a pos = moveTarget b pos.
Proof.
  intros Ha Hm. unfold moveTarget, handleCropMouseMove.
  cbn [cropAction editMode setCropRect]. rewrite Ha, Hm.
  destruct (cropAction b) as [act | ]; [ | reflexivity ].
  destruct (negb (EditMode_eqb (editMode b) Crop)); [ reflexivity | ].
  destruct (CropAction.type act); destruct (CropAction.startRect act);
    destruct (CropAction.handle act) as [h | ]; try destruct (truthy h); reflexivity.
Qed.

Lemma moveTarget_None (st : State) (p q : Point.t) :
  moveTarget st p = None -> moveTarget st q = None.
Proof.
  unfold moveTarget, handleCropMouseMove.
  cbn [cropAction editMode setCropRect].
  destruct (cropAction st) as [act | ]; [ | intro; reflexivity ].
  destruct (negb (EditMode_eqb (editMode st) Crop)); [ intro; reflexivity | ].
  destruct (CropAction.type act); destruct (CropAction.startRect act);
    destruct (CropAction.handle act) as [h | ]; try destruct (truthy h);
    cbn; intro H; first [ reflexivity | discriminate H ].
Qed.

Lemma step_move_fields (st : State) (p : Point.t) :
  cropAction (step' st (MouseMove p)) = cropAction st /\
  editMode (step' st (MouseMove p)) = editMode st /\
  cropRect (step' st (MouseMove p)) =
    match moveTarget st p with
    | Some r => Some r
    | None => cropRect st
    end.
Proof.
  unfold step, dispatch.
  destruct (EditMode_eqb (editMode st) Crop) eqn:E; cbn [stateOf].
  - destruct (render_frame st (handleCropMouseMove p st)) as (Hm & _ & _ & Hc & Ha & _).
    destruct (handleCropMouseMove_frame p st) as (_ & _ & Fa & Fm & _).
    rewrite Hm, Hc, Ha, Fa, Fm, handleCropMouseMove_target. repeat split.
  - destruct (render_frame st (draw' p st)) as (Hm & _ & _ & Hc & Ha & _).
    destruct (draw_frame p st) as (_ & _ & Fc & Fa & Fm & _).
    rewrite Hm, Hc, Ha, Fa, Fm, Fc.
    assert (Hnone : moveTarget st p = None).
    { unfold moveTarget, handleCropMouseMove. cbn [cropAction editMode setCropRect].
      destruct (cropAction st); [ | reflexivity ]. rewrite E. reflexivity. }
    rewrite Hnone. repeat split.
Qed.


(** X6.  In crop mode a release (pointer-up or pointer-leave) discards the
    action and keeps the rectangle and the history; until the next
    pointer-down, pointer moves then leave the whole state as it is. *)
Theorem release_ends_the_crop_action :
  forall (st : State) (release : Event) (moves : list Point.t),
    editMode st = Crop ->
    isRelease release ->
    let s := step' st release in
    cropAction s = None /\
    cropRect s = cropRect st /\
    history s = history st /\
    historyIndex s = historyIndex st /\
    run strokeCoverage clipCoverage drawImageSample drawCropOverlay serialisable s
      (map MouseMove moves) = s.
Proof.
  intros st release moves Hmode Hrel s.
  assert (Hs : s = render drawCropOverlay st (handleCropMouseUp st)).
  { unfold s, step, dispatch. destruct Hrel as [-> | ->]; rewrite Hmode; reflexivity. }
  destruct (render_frame st (handleCropMouseUp st)) as (Hm & Hh & Hi & Hc & Ha & _).
  rewrite <- Hs in Hm, Hh, Hi, Hc, Ha.
  split; [ exact Ha | split; [ exact Hc | split; [ exact Hh | split; [ exact Hi | ] ] ] ].
  assert (Hfix : forall p, step' s (MouseMove p) = s).
  { intro p. unfold step, dispatch. rewrite Hm. cbn [handleCropMouseUp setCropAction editMode].
    rewrite Hmode. cbn [EditMode_eqb stateOf].
    unfold handleCropMouseMove. rewrite Ha. apply render_same. }
  unfold run. induction moves as [ | p moves IH]; cbn [map fold_left]; [ reflexivity | ].
  rewrite Hfix. exact IH.
Qed.

Lemma getCropHandle_tag (pos : Point.t) (rect : CropRect.t) (h : string) :
  getCropHandle pos rect = Some h -> In h handleTags.
Proof.
  rewrite getCropHandle_find. intro H. apply find_some in H. exact (proj1 H).
Qed.

Lemma handleTags_cursor (h : string) :
  In h handleTags -> isResizeCursor (getCursorForHandle (Some h)).
Proof.
  intro Hin. cbn in Hin. unfold isResizeCursor.
  repeat (destruct Hin as [Hin | Hin];
          [ subst h; cbn; first [ left; reflexivity
                                | right; left; reflexivity
                                | right; right; left; reflexivity
                                | right; right; right; reflexivity ] | ]).
  contradiction.
Qed.

(** Outside crop mode, only the Crop button leads into it. *)
Lemma step_stays_out_of_crop (st : State) (ev : Event) :
  editMode st <> Crop -> ev <> ClickMode Crop -> editMode (step' st ev) <> Crop.
Proof.
  intros Hmode Hev. unfold step.
  rewrite (proj1 (render_frame st _)).
  unfold dispatch. rewrite (EditMode_eqb_Crop _ Hmode).
  destruct ev as [pos | pos | | | | | | | mode | n]; cbn [orb stateOf]; try exact Hmode.
  - rewrite (proj1 (proj2 (proj2 (proj2 (proj2 (startDrawing_frame pos st)))))).
    exact Hmode.
  - rewrite (proj1 (proj2 (proj2 (proj2 (proj2 (draw_frame pos st)))))). exact Hmode.
  - rewrite (proj1 (proj2 (proj2 (stopDrawing_frame st)))). exact Hmode.
  - rewrite (proj1 (proj2 (proj2 (stopDrawing_frame st)))). exact Hmode.
  - destruct (negb (canUndo st)); [ exact Hmode | ]. unfold handleUndo.
    destruct (historyIndex st >? 0)%Z; [ | exact Hmode ].
    rewrite (proj1 (proj2 (proj2 (restoreEntry_frame (historyIndex st - 1) st)))).
    exact Hmode.
  - destruct (negb (canRedo st)); [ exact Hmode | ]. unfold handleRedo.
    destruct (historyIndex st <? Z.of_nat (length (history st)) - 1)%Z; [ | exact Hmode ].
    rewrite (proj1 (proj2 (proj2 (restoreEntry_frame (historyIndex st + 1) st)))).
    exact Hmode.
  - rewrite (proj1 (proj2 (proj2 (handleSetEditMode_frame mode st)))).
    intro E. apply Hev. rewrite E. reflexivity.
Qed.


(** X8.  Undo and redo are inverse to each other on a settled session: [n]
    undos followed by [n] redos (when the cursor is at least [n]), or [n]
    redos followed by [n] undos (when at least [n] entries follow the
    cursor), give back the same history, cursor and canvas. *)
Theorem undo_redo_round_trip :
  forall (st : State) (n : nat),
    settled st ->
    ((Z.of_nat n <= historyIndex st)%Z ->
     let s := redos' n (undos' n st) in
     settled s /\ history s = history st /\
     historyIndex s = historyIndex st /\ canvas s = canvas st) /\
    ((historyIndex st + Z.of_nat n <= Z.of_nat (length (history st)) - 1)%Z ->
     let s := undos' n (redos' n st) in
     settled s /\ history s = history st /\
     historyIndex s = historyIndex st /\ canvas s = canvas st).
Proof.
  intros st n Hs.
  assert (Hcanvas : forall s, settled s -> history s = history st ->
                              historyIndex s = historyIndex st -> canvas s = canvas st).
  { intros s (_ & _ & Hi) Hh Hx. destruct Hs as (_ & _ & Hi0).
    rewrite Hh, Hx, Hi0 in Hi. congruence. }
  pose proof Hs as (_ & _ & Hidx).
  pose proof (index_Some _ _ _ Hidx) as [Hrange _].
  split; intros Hn s.
  - destruct (undos_settled strokeCoverage clipCoverage drawImageSample drawCropOverlay
                serialisable n st Hs Hn) as (Hs1 & Hh1 & Hi1).
    destruct (redos_settled strokeCoverage clipCoverage drawImageSample drawCropOverlay
                serialisable n _ Hs1 ltac:(rewrite Hh1, Hi1; lia)) as (Hs2 & Hh2 & Hi2).
    fold s in Hs2, Hh2, Hi2.
    assert (Hh : history s = history st) by congruence.
    assert (Hi : historyIndex s = historyIndex st) by lia.
    split; [ exact Hs2 | split; [ exact Hh | split; [ exact Hi | ] ] ].
    apply Hcanvas; assumption.
  - destruct (redos_settled strokeCoverage clipCoverage drawImageSample drawCropOverlay
                serialisable n st Hs Hn) as (Hs1 & Hh1 & Hi1).
    destruct (undos_settled strokeCoverage clipCoverage drawImageSample drawCropOverlay
                serialisable n _ Hs1 ltac:(rewrite Hi1; lia)) as (Hs2 & Hh2 & Hi2).
    fold s in Hs2, Hh2, Hi2.
    assert (Hh : history s = history st) by congruence.
    assert (Hi : historyIndex s = historyIndex st) by lia.
    split; [ exact Hs2 | split; [ exact Hh | split; [ exact Hi | ] ] ].
    apply Hcanvas; assumption.
Qed.

(** X9.  Cancelling a crop discards the rectangle and returns to Erase mode
    without touching the history, the cursor or the original image, and the
    redraw that follows removes the overlay: the canvas shows the entry
    under the cursor again. *)
Theorem cancel_crop_restores_the_canvas :
  forall (st : State),
    cropping st ->
    let s := step' st ClickCancelCrop in
    settled s /\
    editMode s = Erase /\
    cropRect s = None /\
    history s = history st /\
    historyIndex s = historyIndex st /\
    originalImageRef s = originalImageRef st /\
    index (history st) (historyIndex st) = Some (canvas s).
Proof.
  intros st (Hmode & Hwf & entry & Hentry & Hw & Hh) s.
  assert (Hs : s = redrawCanvas drawCropOverlay (handleCancelCrop st)).
  { unfold s, step, dispatch. rewrite Hmode. cbn [EditMode_eqb stateOf].
    unfold render.
    destruct (Deps_eq_dec (depsOf st) (depsOf (handleCancelCrop st))) as [E | _];
      [ | reflexivity ].
    apply depsOf_fields in E. destruct E as (_ & _ & E & _).
    cbn in E. congruence. }
  assert (Hc : canvas s = entry).
  { rewrite Hs. unfold redrawCanvas.
    cbn [handleCancelCrop setEditMode setCropRect history historyIndex editMode cropRect
         canvas setCanvas].
    pose proof (index_Some _ _ _ Hentry) as [Hrange _].
    assert (Hlen : (0 <? length (history st))%nat = true) by (apply Nat.ltb_lt; lia).
    rewrite Hlen, Hentry. unfold clearAll. rewrite Hw, Hh.
    apply putImageData_blank. apply (Forall_index _ _ _ _ Hwf Hentry). }
  assert (Hfields : editMode s = Erase /\ cropRect s = None /\
                    history s = history st /\ historyIndex s = historyIndex st /\
                    originalImageRef s = originalImageRef st).
  { rewrite Hs. unfold redrawCanvas. repeat split. }
  destruct Hfields as (Fm & Fc & Fh & Fi & Fo).
  split; [ | repeat split; try assumption; rewrite Hc; exact Hentry ].
  unfold settled. rewrite Fh, Fi, Fm, Hc.
  split; [ exact Hwf | split; [ discriminate | exact Hentry ] ].
Qed.

(** X10.  Entering crop mode from a brush mode with no rectangle creates the
    default rectangle: its origin is a tenth and its extents are eight
    tenths of the extents of the canvas, up to the precision of the literals
    [0.1] and [0.8] (2^-50 of the extent), so the margins on opposite sides
    agree to that precision; it has non-negative extents and lies within the
    canvas; the history is not touched.  Switching to Erase or Restore
    instead stores no rectangle. *)
Theorem entering_crop_mode_sets_default_rectangle :
  forall (st : State) (mode : EditMode),
    editMode st <> Crop ->
    cropRect st = None ->
    let W := inject_Z (Z.of_nat (ImageData.width (canvas st))) in
    let H := inject_Z (Z.of_nat (ImageData.height (canvas st))) in
    let s := step' st (ClickMode mode) in
    editMode s = mode /\
    history s = history st /\
    historyIndex s = historyIndex st /\
    (mode <> Crop -> cropRect s = None) /\
    (mode = Crop ->
     exists r,
       cropRect s = Some r /\
       near W (CropRect.x r) (W / 10) /\
       near H (CropRect.y r) (H / 10) /\
       near W (CropRect.width r) (W * 8 / 10) /\
       near H (CropRect.height r) (H * 8 / 10) /\
       near W (W - (CropRect.x r + CropRect.width r)) (CropRect.x r) /\
       near H (H - (CropRect.y r + CropRect.height r)) (CropRect.y r) /\
       nonNegativeExtents r /\
       withinCanvas (canvas st) r).
Proof.
  intros st mode Hmode Hrect W H s.
  assert (Hs : s = render drawCropOverlay st (handleSetEditMode mode st)).
  { unfold s, step, dispatch. rewrite (EditMode_eqb_Crop _ Hmode). reflexivity. }
  destruct (render_frame st (handleSetEditMode mode st)) as (Rm & Rh & Ri & Rc & _).
  rewrite <- Hs in Rm, Rh, Ri, Rc.
  destruct (handleSetEditMode_frame mode st) as (Fh & Fi & Fm & _).
  split; [ congruence | split; [ congruence | split; [ congruence | split ] ] ].
  - intro Hm. rewrite Rc. unfold handleSetEditMode. rewrite Hrect.
    destruct mode; [ reflexivity | reflexivity | congruence ].
  - intro Hm. subst mode. rewrite Rc. unfold handleSetEditMode. rewrite Hrect.
    eexists. split; [ reflexivity | ].
    cbn [CropRect.x CropRect.y CropRect.width CropRect.height cropRect setCropRect].
    fold W H.
    assert (HW : 0 <= W) by (unfold W, Qle; cbn; lia).
    assert (HH : 0 <= H) by (unfold H, Qle; cbn; lia).
    unfold nonNegativeExtents, withinCanvas, near.
    cbn [CropRect.x CropRect.y CropRect.width CropRect.height]. fold W H.
    unfold literal_0_1, literal_0_8.
    assert (D1 : W / 10 == W * (1 # 10)) by field.
    assert (D2 : H / 10 == H * (1 # 10)) by field.
    assert (D3 : W * 8 / 10 == W * (8 # 10)) by field.
    assert (D4 : H * 8 / 10 == H * (8 # 10)) by field.
    repeat split; try (apply Qabs_Qle_condition; split);
      rewrite ?D1, ?D2, ?D3, ?D4; lra.
Qed.

End EventProperties.

(** ** Painting *)

Section StrokeProperties.

Variable strokeCoverage : Z -> Point.t -> Point.t -> nat -> nat -> Q.
Variable clipCoverage : Point.t -> Point.t -> nat -> nat -> Q.
Variable drawImageSample :
  HTMLImageElement -> Q -> Q -> Q -> Q -> Q -> Q -> Q -> Q -> nat -> nat -> Pixel.

Local Abbreviation eraseStroke' := (eraseStroke strokeCoverage).
Local Abbreviation restoreStroke' := (restoreStroke clipCoverage drawImageSample).
Local Abbreviation drawLine' := (drawLine strokeCoverage clipCoverage drawImageSample).

Lemma px_eq_refl (p : Pixel) : px_eq p p.
Proof. unfold px_eq. repeat split; reflexivity. Qed.

(** X11.  Erase strokes commute and combine: erasing along one segment and
    then another leaves every pixel as erasing them in the other order
    does, and as a single [destination-out] with coverage
    [a + b - a * b] would, where [a] and [b] are the coverages of the two
    strokes at that pixel. *)
Theorem erase_strokes_commute :
  forall (c : Canvas) (lw1 : Z) (p0 p1 : Point.t) (lw2 : Z) (q0 q1 : Point.t) (i j : Z),
    let a := strokeCoverage lw1 p0 p1 (Z.to_nat i) (Z.to_nat j) in
    let b := strokeCoverage lw2 q0 q1 (Z.to_nat i) (Z.to_nat j) in
    px_eq (pixelAt (eraseStroke' (eraseStroke' c lw1 p0 p1) lw2 q0 q1) i j)
          (pixelAt (eraseStroke' (eraseStroke' c lw2 q0 q1) lw1 p0 p1) i j) /\
    (inBounds c i j = true ->
     px_eq (pixelAt (eraseStroke' (eraseStroke' c lw1 p0 p1) lw2 q0 q1) i j)
           (destination_out (pixelAt c i j) (a + b - a * b))).
Proof.
  intros c lw1 p0 p1 lw2 q0 q1 i j a b.
  rewrite !(pixelAt_eraseStroke strokeCoverage).
  change (inBounds (eraseStroke' c lw1 p0 p1) i j) with (inBounds c i j).
  change (inBounds (eraseStroke' c lw2 q0 q1) i j) with (inBounds c i j).
  destruct (inBounds c i j); [ | split; [ apply px_eq_refl | discriminate ] ].
  fold a b. unfold px_eq, destination_out, scalePixel. cbn [red green blue alpha].
  split; [ | intros _ ]; repeat split; ring.
Qed.

Lemma pixelAt_restoreStroke (c : Canvas) (img : HTMLImageElement) (p0 p1 : Point.t)
    (i j : Z) :
  pixelAt (restoreStroke' c img p0 p1) i j =
  if inBounds c i j
  then source_over
         (scalePixel (clipCoverage p0 p1 (Z.to_nat i) (Z.to_nat j))
            (drawImageSample img 0 0
               (inject_Z (Z.of_nat (ImageData.width img)))
               (inject_Z (Z.of_nat (ImageData.height img))) 0 0
               (inject_Z (Z.of_nat (ImageData.width c)))
               (inject_Z (Z.of_nat (ImageData.height c)))
               (Z.to_nat i) (Z.to_nat j)))
         (pixelAt c i j)
  else transparent.
Proof.
  destruct (inBounds c i j) eqn:E.
  - destruct (inBounds_to_nat _ _ _ E) as (Hi & Hj & Hw & Hh).
    unfold restoreStroke. cbv zeta. rewrite Hi, Hj.
    rewrite pixelAt_tabulate by assumption.
    rewrite !Nat2Z.id. reflexivity.
  - unfold pixelAt at 1.
    change (inBounds (restoreStroke' c img p0 p1) i j) with (inBounds c i j).
    rewrite E. reflexivity.
Qed.

(** X12.  A stroke segment paints only where it covers.  [drawLine] never
    changes the size of the canvas; in Erase mode a pixel the stroke does
    not cover is left as it is and a pixel it covers fully becomes
    transparent black; in Restore mode a pixel outside the clipping region
    is left as it is. *)
Theorem stroke_paints_only_where_it_covers :
  forall (st : State) (x0 y0 x1 y1 : Q) (i j : Z),
    let c := canvas st in
    let c' := canvas (drawLine' x0 y0 x1 y1 st) in
    let p0 := Point.mk x0 y0 in
    let p1 := Point.mk x1 y1 in
    ImageData.width c' = ImageData.width c /\
    ImageData.height c' = ImageData.height c /\
    (editMode st = Erase ->
     strokeCoverage (size (brushSettings st)) p0 p1 (Z.to_nat i) (Z.to_nat j) == 0 ->
     px_eq (pixelAt c' i j) (pixelAt c i j)) /\
    (editMode st = Erase ->
     strokeCoverage (size (brushSettings st)) p0 p1 (Z.to_nat i) (Z.to_nat j) == 1 ->
     px_eq (pixelAt c' i j) transparent) /\
    (editMode st = Restore ->
     clipCoverage p0 p1 (Z.to_nat i) (Z.to_nat j) == 0 ->
     px_eq (pixelAt c' i j) (pixelAt c i j)).
Proof.
  intros st x0 y0 x1 y1 i j c c' p0 p1.
  assert (Hdims : ImageData.width c' = ImageData.width c /\
                  ImageData.height c' = ImageData.height c).
  { unfold c', c, drawLine.
    destruct (editMode st); destruct (originalImageRef st); split; reflexivity. }
  destruct Hdims as [Hw Hh].
  assert (Hout : forall d : Canvas, inBounds d i j = false -> pixelAt d i j = transparent).
  { intros d E. unfold pixelAt. rewrite E. reflexivity. }
  split; [ exact Hw | split; [ exact Hh | split; [ | split ] ] ].
  - intros Hmode Hcov. unfold c', drawLine. rewrite Hmode. cbn [canvas setCanvas setContext].
    fold c p0 p1. rewrite (pixelAt_eraseStroke strokeCoverage).
    destruct (inBounds c i j) eqn:E; [ | rewrite (Hout c E); apply px_eq_refl ].
    unfold px_eq, destination_out, scalePixel. cbn [red green blue alpha].
    rewrite Hcov. repeat split; ring.
  - intros Hmode Hcov. unfold c', drawLine. rewrite Hmode. cbn [canvas setCanvas setContext].
    fold c p0 p1. rewrite (pixelAt_eraseStroke strokeCoverage).
    destruct (inBounds c i j) eqn:E; [ | apply px_eq_refl ].
    unfold px_eq, destination_out, scalePixel, transparent. cbn [red green blue alpha].
    rewrite Hcov. repeat split; ring.
  - intros Hmode Hcov. unfold c', drawLine. rewrite Hmode.
    destruct (originalImageRef st) as [img | ]; [ | apply px_eq_refl ].
    cbn [canvas setCanvas setContext]. fold c p0 p1.
    rewrite pixelAt_restoreStroke.
    destruct (inBounds c i j) eqn:E; [ | rewrite (Hout c E); apply px_eq_refl ].
    unfold px_eq, source_over, scalePixel. cbn [red green blue alpha].
    rewrite Hcov. repeat split; ring.
Qed.

End StrokeProperties.

(** ** Crop and history together *)

Section CropHistoryProperties.

Variable strokeCoverage : Z -> Point.t -> Point.t -> nat -> nat -> Q.
Variable clipCoverage : Point.t -> Point.t -> nat -> nat -> Q.
Variable drawImageSample :
  HTMLImageElement -> Q -> Q -> Q -> Q -> Q -> Q -> Q -> Q -> nat -> nat -> Pixel.
Variable drawCropOverlay : DrawingState -> Canvas -> CropRect.t -> Canvas.
Variable serialisable : nat -> nat -> bool.

Local Abbreviation step' := (step strokeCoverage clipCoverage drawImageSample drawCropOverlay serialisable).

Lemma step_undo_redo_original (st : State) :
  originalImageRef (step' st ClickUndo) = originalImageRef st /\
  originalImageRef (step' st ClickRedo) = originalImageRef st.
Proof.
  split; unfold step, dispatch.
  - destruct (render_frame drawCropOverlay st
                (stateOf (if EditMode_eqb (editMode st) Crop || negb (canUndo st)
                          then Ok st else handleUndo st)))
      as (_ & _ & _ & _ & _ & Ho & _).
    rewrite Ho.
    destruct (EditMode_eqb (editMode st) Crop || negb (canUndo st)); [ reflexivity | ].
    unfold handleUndo. destruct (historyIndex st >? 0)%Z; [ | reflexivity ].
    apply restoreEntry_frame.
  - destruct (render_frame drawCropOverlay st
                (stateOf (if EditMode_eqb (editMode st) Crop || negb (canRedo st)
                          then Ok st else handleRedo st)))
      as (_ & _ & _ & _ & _ & Ho & _).
    rewrite Ho.
    destruct (EditMode_eqb (editMode st) Crop || negb (canRedo st)); [ reflexivity | ].
    unfold handleRedo.
    destruct (historyIndex st <? Z.of_nat (length (history st)) - 1)%Z; [ | reflexivity ].
    apply restoreEntry_frame.
Qed.

(** X13.  Undo does not undo the crop of the original image.  When a crop
    is applied (the rectangle has positive integer extents and the image of
    the cropped original loads), undo brings back the canvas of before the
    crop, at its former size, while [originalImageRef] is still the cropped
    original, of the size of the rectangle; redo shows the cropped canvas
    again.  Undo and redo never write [originalImageRef]. *)
Theorem undo_after_crop_keeps_the_cropped_original :
  forall (st : State) (rect : CropRect.t) (originalImg : HTMLImageElement)
         (sx sy sw sh : Z) (entry : ImageData.t),
    editMode st = Crop ->
    cropRect st = Some rect ->
    originalImageRef st = Some originalImg ->
    enforceRangeLong (CropRect.x rect) = Normal sx ->
    enforceRangeLong (CropRect.y rect) = Normal sy ->
    enforceRangeLong (CropRect.width rect) = Normal sw ->
    enforceRangeLong (CropRect.height rect) = Normal sh ->
    (0 < sw)%Z -> (0 < sh)%Z ->
    serialisable (Z.to_nat sw) (Z.to_nat sh) = true ->
    Forall wf_image (history st) ->
    index (history st) (historyIndex st) = Some entry ->
    let cropped := step' st ClickApplyCrop in
    let undone := step' cropped ClickUndo in
    canvas cropped = croppedRegion (canvas st) sx sy sw sh /\
    canvas undone = entry /\
    historyIndex undone = historyIndex st /\
    history undone = history cropped /\
    canRedo undone = true /\
    (exists o, originalImageRef cropped = Some o /\
               originalImageRef undone = Some o /\
               ImageData.width o = Z.to_nat sw /\
               ImageData.height o = Z.to_nat sh) /\
    canvas (step' undone ClickRedo) = croppedRegion (canvas st) sx sy sw sh /\
    (forall s, originalImageRef (step' s ClickUndo) = originalImageRef s /\
               originalImageRef (step' s ClickRedo) = originalImageRef s).
Proof.
  intros st rect originalImg sx sy sw sh entry Hmode Hrect Horig Hx Hy Hw Hh Hsw Hsh
         Hser Hwf Hentry cropped undone.
  pose proof (index_Some _ _ _ Hentry) as [Hrange Hnth].
  pose proof (handleApplyCrop_positive drawImageSample serialisable st rect originalImg
                sx sy sw sh Hrect Horig Hx Hy Hw Hh Hsw Hsh Hser ltac:(lia)) as Hok.
  match type of Hok with _ = Ok ?s => set (st' := s) in * end.
  assert (Hlen0 : length (firstn (Z.to_nat (historyIndex st + 1)) (history st)) =
                  Z.to_nat (historyIndex st + 1)).
  { rewrite length_firstn. lia. }
  assert (Hs : settled st').
  { unfold settled, st'.
    cbn [canvas history historyIndex editMode setCanvas setContext setHistory
         setHistoryIndex setEditMode setCropRect setOriginalImageRef].
    split; [ | split; [ discriminate | ] ].
    - apply Forall_app. split; [ apply Forall_firstn_of; exact Hwf | ].
      constructor; [ apply wf_image_croppedRegion; assumption | constructor ].
    - rewrite index_nth_error by lia.
      rewrite nth_error_app2 by lia.
      rewrite Hlen0, Nat.sub_diag. reflexivity. }
  assert (Hcropped : cropped = st').
  { unfold cropped, step, dispatch. rewrite Hmode. cbn [EditMode_eqb].
    rewrite Hok. cbn [stateOf]. apply render_settled. exact Hs. }
  assert (Hi' : historyIndex st' = (historyIndex st + 1)%Z) by reflexivity.
  assert (Hh' : history st' =
                firstn (Z.to_nat (historyIndex st + 1)) (history st) ++
                [croppedRegion (canvas st) sx sy sw sh]) by reflexivity.
  destruct (undo_step_settled strokeCoverage clipCoverage drawImageSample drawCropOverlay
                serialisable st' Hs ltac:(lia)) as (Hsu & Hhu & Hiu).
  rewrite <- Hcropped in Hsu, Hhu, Hiu. fold undone in Hsu, Hhu, Hiu.
  assert (Hiu' : historyIndex undone = historyIndex st) by (rewrite Hiu, Hcropped, Hi'; lia).
  assert (Hcu : canvas undone = entry).
  { destruct Hsu as (_ & _ & Hvis).
    rewrite Hhu, Hiu', Hcropped, Hh' in Hvis.
    rewrite index_nth_error in Hvis by lia.
    rewrite nth_error_app1 in Hvis by lia.
    rewrite nth_error_firstn_lt in Hvis by lia.
    congruence. }
  assert (Hredo : (historyIndex undone < Z.of_nat (length (history undone)) - 1)%Z).
  { rewrite Hiu', Hhu, Hcropped, Hh', length_app, Hlen0. cbn [length]. lia. }
  destruct (redo_step_settled strokeCoverage clipCoverage drawImageSample drawCropOverlay
                serialisable undone Hsu Hredo) as (Hsr & Hhr & Hir).
  split; [ rewrite Hcropped; reflexivity | ].
  split; [ exact Hcu | split; [ exact Hiu' | split; [ exact Hhu | ] ] ].
  split; [ unfold canRedo; apply Z.ltb_lt; exact Hredo | ].
  split.
  - eexists. split; [ rewrite Hcropped; reflexivity | ].
    split; [ | split; reflexivity ].
    unfold undone. rewrite (proj1 (step_undo_redo_original cropped)).
    rewrite Hcropped. reflexivity.
  - split; [ | intro s; apply step_undo_redo_original ].
    destruct Hsr as (_ & _ & Hvis).
    rewrite Hhr, Hir, Hhu, Hiu', Hcropped, Hh' in Hvis.
    rewrite index_nth_error in Hvis by lia.
    rewrite nth_error_app2 in Hvis by lia.
    rewrite Hlen0, Nat.sub_diag in Hvis. cbn in Hvis. congruence.
Qed.

(** X21.  Apply-crop takes effect exactly when the image made from the
    cropped original loads.  For a rectangle whose coordinates convert to
    32-bit integers with positive width and height: when the user agent
    cannot serialise a bitmap of that size, no [load] event comes and
    nothing changes; when it can, the canvas and the original image take
    the integer size of the rectangle, the canvas receives the region read
    from the old canvas (transparent black outside it, so also for a
    rectangle that extends beyond the canvas), one entry is pushed after the
    cursor, the rectangle is cleared and the mode becomes Erase. *)
Theorem apply_crop_takes_effect_when_the_image_loads :
  forall (st : State) (rect : CropRect.t) (originalImg : HTMLImageElement)
         (sx sy sw sh : Z),
    editMode st = Crop ->
    cropRect st = Some rect ->
    originalImageRef st = Some originalImg ->
    enforceRangeLong (CropRect.x rect) = Normal sx ->
    enforceRangeLong (CropRect.y rect) = Normal sy ->
    enforceRangeLong (CropRect.width rect) = Normal sw ->
    enforceRangeLong (CropRect.height rect) = Normal sh ->
    (0 < sw)%Z -> (0 < sh)%Z ->
    Forall wf_image (history st) ->
    (-1 <= historyIndex st < Z.of_nat (length (history st)))%Z ->
    let final := step' st ClickApplyCrop in
    (serialisable (Z.to_nat sw) (Z.to_nat sh) = false ->
     handleApplyCrop drawImageSample serialisable st = Ok st /\ final = st) /\
    (serialisable (Z.to_nat sw) (Z.to_nat sh) = true ->
     handleApplyCrop drawImageSample serialisable st = Ok final /\
     history final =
       firstn (Z.to_nat (historyIndex st + 1)) (history st) ++
       [croppedRegion (canvas st) sx sy sw sh] /\
     historyIndex final = (historyIndex st + 1)%Z /\
     editMode final = Erase /\
     cropRect final = None /\
     canvas final = croppedRegion (canvas st) sx sy sw sh /\
     (exists o, originalImageRef final = Some o /\
                ImageData.width o = Z.to_nat sw /\
                ImageData.height o = Z.to_nat sh) /\
     (forall i j : nat,
         (i < Z.to_nat sw)%nat -> (j < Z.to_nat sh)%nat ->
         pixelAt (canvas final) (Z.of_nat i) (Z.of_nat j) =
           pixelAt (canvas st) (sx + Z.of_nat i) (sy + Z.of_nat j) /\
         (inBounds (canvas st) (sx + Z.of_nat i) (sy + Z.of_nat j) = false ->
          pixelAt (canvas final) (Z.of_nat i) (Z.of_nat j) = transparent))).
Proof.
  intros st rect originalImg sx sy sw sh Hmode Hrect Horig Hx Hy Hw Hh Hsw Hsh
         Hwf Hidx final.
  split; intro Hser.
  - pose proof (handleApplyCrop_not_loaded drawImageSample serialisable st rect
                  originalImg sx sy sw sh Hrect Horig Hx Hy Hw Hh Hsw Hsh Hser) as Hok.
    split; [ exact Hok | ].
    unfold final, step, dispatch. rewrite Hmode. cbn [EditMode_eqb].
    rewrite Hok. cbn [stateOf]. apply render_same.
  - pose proof (handleApplyCrop_positive drawImageSample serialisable st rect
                  originalImg sx sy sw sh Hrect Horig Hx Hy Hw Hh Hsw Hsh Hser Hidx) as Hok.
    match type of Hok with _ = Ok ?s => set (st' := s) in * end.
    assert (Hs : settled st').
    { unfold settled, st'.
      cbn [canvas history historyIndex editMode setCanvas setContext setHistory
           setHistoryIndex setEditMode setCropRect setOriginalImageRef].
      split; [ | split; [ discriminate | ] ].
      - apply Forall_app. split; [ apply Forall_firstn_of; exact Hwf | ].
        constructor; [ apply wf_image_croppedRegion; assumption | constructor ].
      - rewrite index_nth_error by lia.
        rewrite nth_error_app2 by (rewrite length_firstn; lia).
        rewrite length_firstn.
        replace (Z.to_nat (historyIndex st + 1) -
                 Nat.min (Z.to_nat (historyIndex st + 1)) (length (history st)))%nat
          with 0%nat by lia.
        reflexivity. }
    assert (Hfinal : final = st').
    { unfold final, step, dispatch. rewrite Hmode. cbn [EditMode_eqb].
      rewrite Hok. cbn [stateOf]. apply render_settled. exact Hs. }
    rewrite Hfinal.
    split; [ exact Hok | ].
    unfold st'.
    cbn [canvas history historyIndex editMode cropRect originalImageRef
         setCanvas setContext setHistory setHistoryIndex setEditMode setCropRect
         setOriginalImageRef].
    do 5 (split; [ reflexivity | ]).
    split; [ eexists; split; [ reflexivity | split; reflexivity ] | ].
    intros i j Hi Hj.
    assert (Hpix : pixelAt (croppedRegion (canvas st) sx sy sw sh)
                     (Z.of_nat i) (Z.of_nat j) =
                   pixelAt (canvas st) (sx + Z.of_nat i) (sy + Z.of_nat j)).
    { unfold croppedRegion. rewrite pixelAt_tabulate by assumption. reflexivity. }
    split; [ exact Hpix | ].
    intro Hout. rewrite Hpix. unfold pixelAt. rewrite Hout. reflexivity.
Qed.

End CropHistoryProperties.

(** ** Export and pointer position *)

(** X14.  The JPEG export never encodes a transparent pixel.  On a canvas
    of premultiplied pixels, the surface [handleDownload] encodes for
    ['jpeg'] has the size of the canvas and every pixel of it is opaque with
    colours in [0, 1]: a transparent pixel of the canvas comes out white and
    an opaque one keeps its colour.  For ['png'] the canvas itself is
    encoded.  The file names are [background_removed.jpg] and
    [background_removed.png]. *)
Theorem jpeg_export_is_opaque :
  forall (st : State),
    valid_canvas (canvas st) ->
    let c := canvas st in
    let out := encoded (handleDownload jpeg st) in
    encoded (handleDownload png st) = c /\
    fileName (handleDownload png st) = "background_removed.png"%string /\
    fileName (handleDownload jpeg st) = "background_removed.jpg"%string /\
    ImageData.width out = ImageData.width c /\
    ImageData.height out = ImageData.height c /\
    (forall i j : nat,
        (i < ImageData.width c)%nat -> (j < ImageData.height c)%nat ->
        let p := pixelAt c (Z.of_nat i) (Z.of_nat j) in
        let q := pixelAt out (Z.of_nat i) (Z.of_nat j) in
        alpha q == 1 /\
        0 <= red q <= 1 /\ 0 <= green q <= 1 /\ 0 <= blue q <= 1 /\
        (alpha p == 0 -> px_eq q {| red := 1; green := 1; blue := 1; alpha := 1 |}) /\
        (alpha p == 1 -> px_eq q p)).
Proof.
  intros st Hv c out.
  split; [ reflexivity | split; [ reflexivity | split; [ reflexivity | ] ] ].
  split; [ reflexivity | split; [ reflexivity | ] ].
  intros i j Hi Hj p q.
  assert (Hq : q = source_over p
                     (source_over {| red := 1; green := 1; blue := 1; alpha := 1 |}
                        transparent)).
  { unfold q, p, out, handleDownload, drawCanvas. cbv zeta.
    cbn [encoded fillWhite ImageData.width ImageData.height].
    rewrite pixelAt_tabulate by assumption.
    rewrite (inBounds_nat (canvas st) i j Hi Hj).
    unfold fillWhite. rewrite pixelAt_tabulate by assumption. reflexivity. }
  destruct (Hv (Z.of_nat i) (Z.of_nat j)) as ((Hr0 & Hr1) & (Hg0 & Hg1) & (Hb0 & Hb1) & Ha).
  fold c p in Hr0, Hr1, Hg0, Hg1, Hb0, Hb1, Ha.
  rewrite Hq. unfold source_over, transparent, px_eq. cbn [red green blue alpha].
  assert (Ha0 : 0 <= alpha p) by lra.
  split; [ ring | ].
  split; [ split; nra | ].
  split; [ split; nra | ].
  split; [ split; nra | ].
  split.
  - intro Hz. assert (red p == 0) by lra. assert (green p == 0) by lra.
    assert (blue p == 0) by lra. repeat split; nra.
  - intro Ho. repeat split; nra.
Qed.


(** ** The background-removal service *)

Lemma prefix_split (p s : string) :
  String.prefix p s = true -> s = (p ++ dropChars (String.length p) s)%string.
Proof.
  revert s. induction p as [ | a p IH]; intros s H; [ reflexivity | ].
  destruct s as [ | b s]; [ discriminate | ].
  cbn in H. destruct (ascii_dec a b) as [-> | ]; [ | discriminate ].
  cbn. f_equal. apply IH. exact H.
Qed.

Lemma prefix_append (p s : string) : String.prefix p (p ++ s)%string = true.
Proof.
  induction p as [ | a p IH]; [ destruct s; reflexivity | ].
  cbn. destruct (ascii_dec a a) as [ _ | n ]; [ exact IH | contradiction ].
Qed.

Lemma dropChars_append (p s : string) :
  dropChars (String.length p) (p ++ s)%string = s.
Proof.
  induction p as [ | a p IH]; [ destruct s; reflexivity | exact IH ].
Qed.

Lemma mimeTypeMatch_Some (s kind : string) :
  Gemini.mimeTypeMatch s = Some kind ->
  In kind ["png"; "jpeg"; "webp"]%string /\
  String.prefix (Gemini.mimePrefix kind) s = true.
Proof.
  unfold Gemini.mimeTypeMatch.
  destruct (String.prefix (Gemini.mimePrefix "png") s) eqn:E1.
  { intro H; inversion H; subst. split; [ left; reflexivity | exact E1 ]. }
  destruct (String.prefix (Gemini.mimePrefix "jpeg") s) eqn:E2.
  { intro H; inversion H; subst. split; [ right; left; reflexivity | exact E2 ]. }
  destruct (String.prefix (Gemini.mimePrefix "webp") s) eqn:E3.
  { intro H; inversion H; subst. split; [ right; right; left; reflexivity | exact E3 ]. }
  discriminate.
Qed.

(** X16.  [removeBackground] accepts exactly the data URIs of PNG, JPEG and
    WEBP images, and splits them without loss.  A string that does not start
    with one of the three prefixes is rejected with the "Invalid image
    format" error whatever the service would answer; for an accepted string
    the captured kind is one of the three and the prefix followed by the data
    sent to the service is the string itself; conversely a prefix followed by
    any data is accepted with that kind and that data. *)
Theorem removeBackground_accepts_three_formats :
  forall (generateContent : string -> string -> Promise Gemini.Response) (s : string),
    (Gemini.mimeTypeMatch s = None ->
     Gemini.removeBackground generateContent s =
       Rejected
         (ErrorObject "Invalid image format. Only PNG, JPEG, and WEBP are supported.")) /\
    (forall kind,
        Gemini.mimeTypeMatch s = Some kind ->
        In kind ["png"; "jpeg"; "webp"]%string /\
        s = (Gemini.mimePrefix kind ++
             dropChars (String.length (Gemini.mimePrefix kind)) s)%string) /\
    (forall kind data,
        In kind ["png"; "jpeg"; "webp"]%string ->
        Gemini.mimeTypeMatch (Gemini.mimePrefix kind ++ data)%string = Some kind /\
        dropChars (String.length (Gemini.mimePrefix kind))
          (Gemini.mimePrefix kind ++ data)%string = data).
Proof.
  intros generateContent s. split; [ | split ].
  - intro H. unfold Gemini.removeBackground. rewrite H. reflexivity.
  - intros kind H. destruct (mimeTypeMatch_Some s kind H) as [Hin Hp].
    split; [ exact Hin | apply prefix_split; exact Hp ].
  - intros kind data Hin. split; [ | apply dropChars_append ].
    cbn in Hin.
    destruct Hin as [<- | [<- | [<- | []]]]; unfold Gemini.mimeTypeMatch.
    + rewrite prefix_append. reflexivity.
    + change (String.prefix (Gemini.mimePrefix "png")
                (Gemini.mimePrefix "jpeg" ++ data)%string) with false.
      rewrite prefix_append. reflexivity.
    + change (String.prefix (Gemini.mimePrefix "png")
                (Gemini.mimePrefix "webp" ++ data)%string) with false.
      change (String.prefix (Gemini.mimePrefix "jpeg")
                (Gemini.mimePrefix "webp" ++ data)%string) with false.
      rewrite prefix_append. reflexivity.
Qed.

Lemma removeBackground_rejects_with_Error
    (generateContent : string -> string -> Promise Gemini.Response) (s : string)
    (t : Thrown) :
  Gemini.removeBackground generateContent s = Rejected t ->
  exists message,
    t = ErrorObject message /\
    (message = "Invalid image format. Only PNG, JPEG, and WEBP are supported."%string \/
     String.prefix "The API returned an error: " message = true \/
     message = "An unknown API error occurred."%string).
Proof.
  unfold Gemini.removeBackground.
  destruct (Gemini.mimeTypeMatch s) as [kind | ].
  - cbv zeta.
    destruct (generateContent _ _) as [response | [m | ]].
    + unfold Gemini.noImageError.
      destruct (Gemini.parts response) as [ps | ];
        [ destruct (Gemini.firstInlineData ps) | ];
        intro H; inversion H; subst; eexists; (split; [ reflexivity | ]);
        right; left; reflexivity.
    + intro H; inversion H; subst. eexists. split; [ reflexivity | ].
      right; left. exact (prefix_append "The API returned an error: " m).
    + intro H; inversion H; subst. eexists. split; [ reflexivity | ].
      right; right; reflexivity.
  - intro H; inversion H; subst. eexists. split; [ reflexivity | left; reflexivity ].
Qed.

(** X17.  What [removeBackground] resolves or rejects with.  For an
    accepted string it resolves exactly when the service answers with parts
    of which one carries inline data, and then with the data of the first
    such part; the service is called with the data after the prefix and the
    MIME type of the prefix.  It never rejects with anything but an [Error],
    whose message is the "Invalid image format" one, starts with "The API
    returned an error: " (also when the service answered without an image),
    or is "An unknown API error occurred.". *)
Theorem removeBackground_outcome :
  forall (generateContent : string -> string -> Promise Gemini.Response) (s : string),
    (forall kind,
        Gemini.mimeTypeMatch s = Some kind ->
        let call :=
          generateContent (dropChars (String.length (Gemini.mimePrefix kind)) s)
            ("image/" ++ kind)%string in
        (forall data,
            Gemini.removeBackground generateContent s = Resolved data <->
            exists response ps,
              call = Resolved response /\
              Gemini.parts response = Some ps /\
              Gemini.firstInlineData ps = Some data) /\
        (forall response,
            call = Resolved response ->
            (forall ps, Gemini.parts response = Some ps ->
                        Gemini.firstInlineData ps = None) ->
            exists rest,
              Gemini.removeBackground generateContent s =
                Rejected
                  (ErrorObject
                     ("The API returned an error: API did not return an image." ++ rest)%string))) /\
    (forall t,
        Gemini.removeBackground generateContent s = Rejected t ->
        exists message,
          t = ErrorObject message /\
          (message = "Invalid image format. Only PNG, JPEG, and WEBP are supported."%string \/
           String.prefix "The API returned an error: " message = true \/
           message = "An unknown API error occurred."%string)).
Proof.
  intros generateContent s. split.
  - intros kind Hk call. unfold Gemini.removeBackground. rewrite Hk. cbv zeta. fold call.
    split.
    + intro data. split.
      * destruct call as [response | [m | ]]; try discriminate.
        destruct (Gemini.parts response) as [ps | ] eqn:Ep; [ | discriminate ].
        destruct (Gemini.firstInlineData ps) as [d | ] eqn:Ef; [ | discriminate ].
        intro H. inversion H; subst. exists response, ps. repeat split; assumption.
      * intros (response & ps & Hc & Hp & Hf). rewrite Hc, Hp, Hf. reflexivity.
    + intros response Hc Hnone. rewrite Hc.
      unfold Gemini.noImageError.
      destruct (Gemini.parts response) as [ps | ] eqn:Ep.
      * rewrite (Hnone ps eq_refl). eexists. reflexivity.
      * eexists. reflexivity.
  - intros t. apply removeBackground_rejects_with_Error.
Qed.

(** ** The application shell *)

Lemma truthy_failed_message (err : Thrown) :
  truthy ("Failed to process image. " ++ App.errorMessage err)%string = true.
Proof. reflexivity. Qed.

Lemma reachable_shape (st : App.State) :
  App.reachable st ->
  App.isLoading st = true \/
  App.isLoading st = false /\
  (truthyOpt (App.error st) = true /\ App.originalImage st = None \/
   App.error st = None /\ truthyOpt (App.originalImage st) = false \/
   App.error st = None /\ truthyOpt (App.originalImage st) = true /\
   truthyOpt (App.processedImage st) = true).
Proof.
  intro H. induction H as [ | st s f rb Hst IH Hup Hin | st Hst IH Hshow ].
  - right. split; [ reflexivity | right; left; split; reflexivity ].
  - unfold App.handleImageUpload in Hin.
    destruct f as [b | err].
    + destruct (rb b) as [r | err].
      * cbn in Hin. destruct Hin as [<- | [<- | [<- | []]]];
          [ left; reflexivity | left; reflexivity | ].
        right. split; [ reflexivity | ]. cbn.
        destruct (truthy b) eqn:Eb.
        -- right; right. repeat split; try exact Eb.
        -- right; left. split; [ reflexivity | first [ exact Eb | reflexivity ] ].
      * cbn in Hin. destruct Hin as [<- | [<- | [<- | []]]];
          [ left; reflexivity | left; reflexivity | ].
        right. split; [ reflexivity | left; split; reflexivity ].
    + cbn in Hin. destruct Hin as [<- | [<- | []]]; [ left; reflexivity | ].
      right. split; [ reflexivity | left; split; reflexivity ].
  - right. split; [ reflexivity | right; left; split; reflexivity ].
Qed.

(** X18.  The page always shows exactly one of its four panels.  In every
    state the application reaches (uploads started from the upload panel,
    each with any outcome of reading the file and of the background removal,
    and resets from the error panel or the editor), including the states in
    the middle of an upload, exactly one of the spinner, the error panel, the
    upload panel and the editor is rendered. *)
Theorem page_shows_exactly_one_panel :
  forall st : App.State, App.reachable st -> App.panelCount st = 1%nat.
Proof.
  intros st H. apply reachable_shape in H.
  unfold App.panelCount, App.showsSpinner, App.showsError, App.showsUpload,
    App.showsEditor.
  destruct H as [Hl | [Hl [[He Ho] | [[He Ho] | [He [Ho Hp]]]]]].
  - rewrite Hl. cbn. rewrite !andb_false_r. reflexivity.
  - rewrite Hl, He, Ho. reflexivity.
  - rewrite Hl, He, Ho. reflexivity.
  - rewrite Hl, He, Ho, Hp. reflexivity.
Qed.

(** X19.  How an upload ends.  While the upload is in progress every state
    is loading; the last state is not, and keeps the key.  If reading the
    file and removing the background both succeed, the last state holds the
    data URI read from the file as original and the result as a PNG data URI
    as processed image, with no error.  If either fails, it holds no original
    and no processed image, the error panel is shown, and the message is
    "Failed to process image. " followed by the message of the error (or by
    "An unknown error occurred." for a thrown value that is not an
    [Error]). *)
Theorem upload_outcome :
  forall (fileToBase64 : Promise string) (removeBackground : string -> Promise string)
         (st : App.State),
    let trace := App.handleImageUpload fileToBase64 removeBackground st in
    let final := last trace st in
    (forall s, In s (removelast trace) -> App.isLoading s = true) /\
    trace <> [] /\
    App.isLoading final = false /\
    App.key final = App.key st /\
    (forall b r,
        fileToBase64 = Resolved b -> removeBackground b = Resolved r ->
        App.originalImage final = Some b /\
        App.processedImage final = Some ("data:image/png;base64," ++ r)%string /\
        App.error final = None) /\
    (forall err,
        fileToBase64 = Rejected err \/
        (exists b, fileToBase64 = Resolved b /\ removeBackground b = Rejected err) ->
        App.originalImage final = None /\
        App.processedImage final = None /\
        App.error final =
          Some ("Failed to process image. " ++ App.errorMessage err)%string /\
        App.showsError final = true).
Proof.
  intros f rb st trace final. unfold final, trace, App.handleImageUpload.
  destruct f as [b | err0].
  - destruct (rb b) as [r | err1] eqn:Er.
    + cbn. split; [ intros s [<- | [<- | []]]; reflexivity | ].
      split; [ discriminate | split; [ reflexivity | split; [ reflexivity | split ] ] ].
      * intros b' r' Hb Hr. inversion Hb; subst b'. rewrite Er in Hr. inversion Hr; subst r'.
        repeat split.
      * intros err [H | (b' & Hb & Hr)]; [ discriminate | ].
        inversion Hb; subst b'. rewrite Er in Hr. discriminate.
    + cbn. split; [ intros s [<- | [<- | []]]; reflexivity | ].
      split; [ discriminate | split; [ reflexivity | split; [ reflexivity | split ] ] ].
      * intros b' r' Hb Hr. inversion Hb; subst b'. rewrite Er in Hr. discriminate.
      * intros err [H | (b' & Hb & Hr)]; [ discriminate | ].
        inversion Hb; subst b'. rewrite Er in Hr. inversion Hr; subst err.
        repeat split.
  - cbn. split; [ intros s [<- | []]; reflexivity | ].
    split; [ discriminate | split; [ reflexivity | split; [ reflexivity | split ] ] ].
    + intros b r Hb. discriminate.
    + intros err [H | (b' & Hb & Hr)]; [ | discriminate ].
      inversion H; subst err. repeat split.
Qed.

(** X20.  Uploading through the service.  When the background removal is
    [removeBackground], a file whose data URI is not PNG, JPEG or WEBP ends
    in the error "Failed to process image. Invalid image format. Only PNG,
    JPEG, and WEBP are supported." whatever the service would answer; and
    once the file has been read, the fallback message "An unknown error
    occurred." never appears, because [removeBackground] only rejects with
    [Error] objects. *)
Theorem upload_through_the_service :
  forall (generateContent : string -> string -> Promise Gemini.Response)
         (b : string) (st : App.State),
    let final :=
      last (App.handleImageUpload (Resolved b)
              (Gemini.removeBackground generateContent) st) st in
    (Gemini.mimeTypeMatch b = None ->
     App.error final =
       Some "Failed to process image. Invalid image format. Only PNG, JPEG, and WEBP are supported."%string /\
     App.originalImage final = None /\
     App.showsError final = true) /\
    App.error final <> Some "Failed to process image. An unknown error occurred."%string /\
    (App.error final = None ->
     exists data,
       Gemini.removeBackground generateContent b = Resolved data /\
       App.originalImage final = Some b /\
       App.processedImage final = Some ("data:image/png;base64," ++ data)%string).
Proof.
  intros generateContent b st final. unfold final, App.handleImageUpload.
  pose proof (removeBackground_rejects_with_Error generateContent b) as Hrej.
  destruct (Gemini.removeBackground generateContent b) as [data | t] eqn:E.
  - cbn. split; [ | split; [ discriminate | ] ].
    + intro Hnone. unfold Gemini.removeBackground in E. rewrite Hnone in E. discriminate.
    + intros _. exists data. repeat split.
  - destruct (Hrej t eq_refl) as (m & -> & Hm). cbn.
    split; [ | split; [ | discriminate ] ].
    + intro Hnone. unfold Gemini.removeBackground in E. rewrite Hnone in E.
      inversion E; subst m. repeat split.
    + intro H. inversion H as [Hm'].
      destruct Hm as [-> | [Hp | ->]]; try discriminate.
      rewrite Hm' in Hp. discriminate.
Qed.

(** ** The further properties on concrete sessions *)

Lemma cursor_stays_in_bounds_witness :
  cursorInBounds tinySession /\
  cursorInBounds
    (refRun tinySession
       (oneStroke ++ [ClickUndo; ClickUndo; ClickRedo])) /\
  exists s,
    handleUndo
      (refRun tinySession
         (oneStroke ++ [ClickUndo; ClickUndo; ClickRedo])) =
    Ok s.
Proof.
  assert (H : cursorInBounds tinySession) by (unfold cursorInBounds; cbn; lia).
  split; [ exact H | ].
  destruct (cursor_stays_in_bounds roundCoverage segmentClip nearestSample cropOverlay
              upTo4096 tinySession
              (oneStroke ++ [ClickUndo; ClickUndo; ClickRedo])
              H) as (Hc & _ & Hu & _).
  split; [ exact Hc | exact Hu ].
Defined.

Lemma crop_rectangle_stays_well_formed_witness :
  rectWellFormed tinySession /\
  rectWellFormed
    (refRun tinySession
       [ClickMode Crop; MouseDown (Point.mk (1 # 2) (1 # 2));
        MouseMove (Point.mk (-3) (-3)); MouseUp]).
Proof.
  assert (H : rectWellFormed tinySession).
  { split; [ intros r Hr; discriminate Hr | intros a r Ha; discriminate Ha ]. }
  split; [ exact H | ].
  exact (crop_rectangle_stays_well_formed roundCoverage segmentClip nearestSample
           cropOverlay upTo4096 tinySession _ H).
Defined.

Lemma rectangle_exists_exactly_in_crop_mode_witness :
  modeRectAgree tinySession /\
  modeRectAgree
    (refRun tinySession [ClickMode Crop; MouseDown (Point.mk (1 # 2) (1 # 2)); ClickCancelCrop]).
Proof.
  assert (H : modeRectAgree tinySession).
  { split; [ discriminate | intro E; exfalso; apply E; reflexivity ]. }
  split; [ exact H | ].
  exact (rectangle_exists_exactly_in_crop_mode roundCoverage segmentClip nearestSample
           cropOverlay upTo4096 tinySession _ H).
Defined.


Lemma release_ends_the_crop_action_witness :
  editMode movingSession = Crop /\
  cropAction (refStep movingSession MouseLeave) = None /\
  cropRect (refStep movingSession MouseLeave) = cropRect movingSession /\
  refRun (refStep movingSession MouseLeave)
    (map MouseMove [Point.mk 1 1; Point.mk 2 2]) = refStep movingSession MouseLeave.
Proof.
  split; [ reflexivity | ].
  destruct (release_ends_the_crop_action roundCoverage segmentClip nearestSample cropOverlay upTo4096
              movingSession MouseLeave [Point.mk 1 1; Point.mk 2 2] eq_refl
              (or_intror eq_refl)) as (Ha & Hc & _ & _ & Hrun).
  split; [ exact Ha | split; [ exact Hc | exact Hrun ] ].
Defined.


Lemma undo_redo_round_trip_witness :
  settled fiveEntrySession /\
  canvas (refRedos 2 (refUndos 2 fiveEntrySession)) = canvas fiveEntrySession /\
  historyIndex (refRedos 2 (refUndos 2 fiveEntrySession)) = historyIndex fiveEntrySession.
Proof.
  assert (H : settled fiveEntrySession) by concrete_wf.
  split; [ exact H | ].
  destruct (proj1 (undo_redo_round_trip roundCoverage segmentClip nearestSample cropOverlay upTo4096
                     fiveEntrySession 2 H)) as (_ & _ & Hi & Hc).
  - cbn; lia.
  - split; [ exact Hc | exact Hi ].
Defined.

Lemma cancel_crop_restores_the_canvas_witness :
  cropping cropSession /\
  settled (refStep cropSession ClickCancelCrop) /\
  cropRect (refStep cropSession ClickCancelCrop) = None /\
  index (history cropSession) (historyIndex cropSession) =
    Some (canvas (refStep cropSession ClickCancelCrop)).
Proof.
  assert (H : cropping cropSession).
  { split; [ reflexivity | split; [ concrete_wf | ] ].
    exists (solid 4 4 redPx). repeat split. }
  split; [ exact H | ].
  destruct (cancel_crop_restores_the_canvas roundCoverage segmentClip nearestSample
              cropOverlay upTo4096 cropSession H) as (Hs & _ & Hc & _ & _ & _ & Hv).
  split; [ exact Hs | split; [ exact Hc | exact Hv ] ].
Defined.

Lemma entering_crop_mode_sets_default_rectangle_witness :
  editMode threeByThreeSession <> Crop /\
  cropRect threeByThreeSession = None /\
  exists r,
    cropRect (refStep threeByThreeSession (ClickMode Crop)) = Some r /\
    near 3 (CropRect.x r) (3 / 10) /\
    near 3 (CropRect.width r) (3 * 8 / 10) /\
    withinCanvas (canvas threeByThreeSession) r.
Proof.
  split; [ discriminate | split; [ reflexivity | ] ].
  destruct (entering_crop_mode_sets_default_rectangle roundCoverage segmentClip
              nearestSample cropOverlay upTo4096 threeByThreeSession Crop)
    as (_ & _ & _ & _ & Hcrop).
  - discriminate.
  - reflexivity.
  - destruct (Hcrop eq_refl) as (r & Hr & Hx & _ & Hw & _ & _ & _ & _ & Hin).
    exists r. split; [ exact Hr | split; [ exact Hx | split; [ exact Hw | exact Hin ] ] ].
Defined.

Lemma erase_strokes_commute_witness :
  inBounds (solid 2 2 redPx) 0 0 = true /\
  px_eq
    (pixelAt
       (eraseStroke roundCoverage
          (eraseStroke roundCoverage (solid 2 2 redPx) 4
             (Point.mk 1 1) (Point.mk (3 # 2) 1))
          4 (Point.mk 1 1) (Point.mk 1 (3 # 2))) 0 0)
    (destination_out (pixelAt (solid 2 2 redPx) 0 0)
       (roundCoverage 4 (Point.mk 1 1) (Point.mk (3 # 2) 1) 0 0 +
        roundCoverage 4 (Point.mk 1 1) (Point.mk 1 (3 # 2)) 0 0 -
        roundCoverage 4 (Point.mk 1 1) (Point.mk (3 # 2) 1) 0 0 *
        roundCoverage 4 (Point.mk 1 1) (Point.mk 1 (3 # 2)) 0 0)) /\
  px_eq
    (pixelAt
       (eraseStroke roundCoverage
          (eraseStroke roundCoverage (solid 2 2 redPx) 4
             (Point.mk 1 1) (Point.mk (3 # 2) 1))
          4 (Point.mk 1 1) (Point.mk 1 (3 # 2))) 0 0)
    transparent.
Proof.
  split; [ reflexivity | ].
  pose proof (proj2 (erase_strokes_commute roundCoverage (solid 2 2 redPx) 4
                       (Point.mk 1 1) (Point.mk (3 # 2) 1) 4
                       (Point.mk 1 1) (Point.mk 1 (3 # 2)) 0%Z 0%Z)
                eq_refl) as H.
  split; [ exact H | ].
  vm_compute. repeat split.
Defined.

Lemma stroke_paints_only_where_it_covers_witness :
  editMode fineBrushSession = Erase /\
  roundCoverage (size (brushSettings fineBrushSession))
    (Point.mk (1 # 2) (1 # 2)) (Point.mk (3 # 2) (1 # 2)) (Z.to_nat 3) (Z.to_nat 3) == 0 /\
  px_eq
    (pixelAt
       (canvas (drawLine roundCoverage segmentClip nearestSample
                  (1 # 2) (1 # 2) (3 # 2) (1 # 2) fineBrushSession)) 3 3)
    (pixelAt (canvas fineBrushSession) 3 3).
Proof.
  split; [ reflexivity | ].
  assert (Hcov : roundCoverage (size (brushSettings fineBrushSession))
                   (Point.mk (1 # 2) (1 # 2)) (Point.mk (3 # 2) (1 # 2))
                   (Z.to_nat 3) (Z.to_nat 3) == 0) by (vm_compute; reflexivity).
  split; [ exact Hcov | ].
  destruct (stroke_paints_only_where_it_covers roundCoverage segmentClip nearestSample
              fineBrushSession (1 # 2) (1 # 2) (3 # 2) (1 # 2) 3%Z 3%Z)
    as (_ & _ & Hkeep & _).
  apply Hkeep; [ reflexivity | exact Hcov ].
Defined.

Lemma undo_after_crop_keeps_the_cropped_original_witness :
  editMode overshootSession = Crop /\
  upTo4096 5 5 = true /\
  canvas (refStep (refStep overshootSession ClickApplyCrop) ClickUndo) = solid 4 4 redPx /\
  exists o,
    originalImageRef (refStep (refStep overshootSession ClickApplyCrop) ClickUndo) = Some o /\
    ImageData.width o = 5%nat /\ ImageData.height o = 5%nat.
Proof.
  split; [ vm_compute; reflexivity | ].
  split; [ reflexivity | ].
  destruct (cropRect overshootSession) as [r | ] eqn:Hr;
    [ | vm_compute in Hr; discriminate ].
  pose proof Hr as Hval. vm_compute in Hval. injection Hval as Hval. subst r.
  destruct (undo_after_crop_keeps_the_cropped_original roundCoverage segmentClip
              nearestSample cropOverlay upTo4096 overshootSession _
              (solid 4 4 greenPx) 0%Z 0%Z 5%Z 5%Z (solid 4 4 redPx)
              ltac:(vm_compute; reflexivity) Hr)
    as (_ & Hc & _ & _ & _ & (o & _ & Ho & Hw & Hh) & _).
  - vm_compute; reflexivity.
  - vm_compute; reflexivity.
  - vm_compute; reflexivity.
  - vm_compute; reflexivity.
  - vm_compute; reflexivity.
  - lia.
  - lia.
  - reflexivity.
  - concrete_wf.
  - vm_compute; reflexivity.
  - split; [ exact Hc | ]. exists o. split; [ exact Ho | split; [ exact Hw | exact Hh ] ].
Defined.

Lemma apply_crop_takes_effect_when_the_image_loads_witness :
  editMode overshootSession = Crop /\
  upTo4096 5 5 = true /\
  editMode (refStep overshootSession ClickApplyCrop) = Erase /\
  canvas (refStep overshootSession ClickApplyCrop) =
    croppedRegion (canvas overshootSession) 0 0 5 5 /\
  editMode (cropSessionWith (CropRect.mk 0 0 5000 1)) = Crop /\
  upTo4096 5000 1 = false /\
  refStep (cropSessionWith (CropRect.mk 0 0 5000 1)) ClickApplyCrop =
    cropSessionWith (CropRect.mk 0 0 5000 1).
Proof.
  split; [ vm_compute; reflexivity | ].
  split; [ reflexivity | ].
  destruct (cropRect overshootSession) as [r | ] eqn:Hr;
    [ | vm_compute in Hr; discriminate ].
  pose proof Hr as Hval. vm_compute in Hval. injection Hval as Hval. subst r.
  destruct (apply_crop_takes_effect_when_the_image_loads roundCoverage segmentClip
              nearestSample cropOverlay upTo4096 overshootSession _
              (solid 4 4 greenPx) 0%Z 0%Z 5%Z 5%Z
              ltac:(vm_compute; reflexivity) Hr) as [_ Hloads].
  - vm_compute; reflexivity.
  - vm_compute; reflexivity.
  - vm_compute; reflexivity.
  - vm_compute; reflexivity.
  - vm_compute; reflexivity.
  - lia.
  - lia.
  - concrete_wf.
  - concrete_range.
  - destruct (Hloads eq_refl) as (_ & _ & _ & Hm & _ & Hc & _).
    split; [ exact Hm | split; [ exact Hc | ] ].
    split; [ reflexivity | split; [ reflexivity | ] ].
    destruct (apply_crop_takes_effect_when_the_image_loads roundCoverage segmentClip
                nearestSample cropOverlay upTo4096
                (cropSessionWith (CropRect.mk 0 0 5000 1)) (CropRect.mk 0 0 5000 1)
                (solid 4 4 greenPx) 0%Z 0%Z 5000%Z 1%Z) as [Hnot _].
    + reflexivity.
    + reflexivity.
    + reflexivity.
    + reflexivity.
    + reflexivity.
    + reflexivity.
    + reflexivity.
    + lia.
    + lia.
    + concrete_wf.
    + concrete_range.
    + apply Hnot. reflexivity.
Defined.

Lemma jpeg_export_is_opaque_witness :
  valid_canvas (canvas (refRun tinySession oneStroke)) /\
  px_eq
    (pixelAt (encoded (handleDownload jpeg (refRun tinySession oneStroke))) 0 0)
    {| red := 1; green := 1; blue := 1; alpha := 1 |}.
Proof.
  assert (Hv : valid_canvas (canvas (refRun tinySession oneStroke))).
  { change (canvas (refRun tinySession oneStroke)) with (solid 1 1 transparent).
    apply valid_solid. apply premultiplied_transparent. }
  split; [ exact Hv | ].
  destruct (jpeg_export_is_opaque (refRun tinySession oneStroke) Hv)
    as (_ & _ & _ & _ & _ & Hpix).
  destruct (Hpix 0%nat 0%nat) as (_ & _ & _ & _ & Hwhite & _).
  - vm_compute; lia.
  - vm_compute; lia.
  - apply Hwhite. vm_compute. reflexivity.
Defined.


Lemma removeBackground_accepts_three_formats_witness :
  Gemini.mimeTypeMatch "data:image/gif;base64,R0lG" = None /\
  Gemini.removeBackground sampleService "data:image/gif;base64,R0lG" =
    Rejected (ErrorObject "Invalid image format. Only PNG, JPEG, and WEBP are supported.") /\
  Gemini.mimeTypeMatch (Gemini.mimePrefix "jpeg" ++ "AAAA")%string = Some "jpeg"%string.
Proof.
  split; [ reflexivity | ].
  destruct (removeBackground_accepts_three_formats sampleService "data:image/gif;base64,R0lG")
    as (Hbad & _ & Hgood).
  split; [ apply Hbad; reflexivity | ].
  apply (Hgood "jpeg"%string "AAAA"%string). right; left; reflexivity.
Defined.

Lemma removeBackground_outcome_witness :
  Gemini.mimeTypeMatch "data:image/png;base64,AAAA" = Some "png"%string /\
  Gemini.removeBackground sampleService "data:image/png;base64,AAAA" = Resolved "QUJD"%string.
Proof.
  split; [ reflexivity | ].
  destruct (proj1 (removeBackground_outcome sampleService "data:image/png;base64,AAAA")
              "png"%string eq_refl) as [Hres _].
  apply (proj2 (Hres "QUJD"%string)).
  eexists. eexists. split; [ reflexivity | split; reflexivity ].
Defined.

Lemma page_shows_exactly_one_panel_witness :
  App.reachable
    (App.failed OtherValue (App.mk None None true None 0)) /\
  App.panelCount (App.failed OtherValue (App.mk None None true None 0)) = 1%nat.
Proof.
  assert (H : App.reachable (App.failed OtherValue (App.mk None None true None 0))).
  { apply (App.reachable_upload App.initial _ (Rejected OtherValue) (fun _ => Rejected OtherValue)).
    - apply App.reachable_initial.
    - reflexivity.
    - right; left; reflexivity. }
  split; [ exact H | ].
  exact (page_shows_exactly_one_panel _ H).
Defined.

Lemma upload_outcome_witness :
  App.originalImage
    (last (App.handleImageUpload (Resolved "data:image/png;base64,AAAA"%string)
             (fun _ => Resolved "QUJD"%string) App.initial) App.initial) =
    Some "data:image/png;base64,AAAA"%string /\
  App.processedImage
    (last (App.handleImageUpload (Resolved "data:image/png;base64,AAAA"%string)
             (fun _ => Resolved "QUJD"%string) App.initial) App.initial) =
    Some "data:image/png;base64,QUJD"%string.
Proof.
  destruct (upload_outcome (Resolved "data:image/png;base64,AAAA"%string)
              (fun _ => Resolved "QUJD"%string) App.initial)
    as (_ & _ & _ & _ & Hok & _).
  destruct (Hok "data:image/png;base64,AAAA"%string "QUJD"%string eq_refl eq_refl)
    as (Ho & Hp & _).
  split; [ exact Ho | exact Hp ].
Defined.

Lemma upload_through_the_service_witness :
  Gemini.mimeTypeMatch "data:image/gif;base64,R0lG" = None /\
  App.error
    (last (App.handleImageUpload (Resolved "data:image/gif;base64,R0lG"%string)
             (Gemini.removeBackground sampleService) App.initial) App.initial) =
    Some "Failed to process image. Invalid image format. Only PNG, JPEG, and WEBP are supported."%string.
Proof.
  split; [ reflexivity | ].
  destruct (upload_through_the_service sampleService "data:image/gif;base64,R0lG"%string
              App.initial) as (Hbad & _).
  destruct (Hbad eq_refl) as (He & _). exact He.
Defined.
